(** * FFMC: job orchestration, worker pool and persistence

    A shallow embedding of the conversion pipeline of FFMC
    ([ffmc/core/orchestrator.py], [ffmc/core/worker_pool.py],
    [ffmc/persistence/database.py], [ffmc/persistence/state_manager.py],
    [ffmc/conversion/encoder.py]) and the properties its specification
    states about it.

    Conventions of the embedding:
    - Python [int] is [Z]; Python [float] durations are exact rationals
      ([Q]); rounding is not modelled and no statement depends on it.
    - SQLite INTEGER values are 64-bit; the statements about what the
      result store writes for given sizes assume that range ([int64]).
    - [Path] objects are [string]s; [datetime.now()] readings are passed
      in as [Z] clock values.
    - A Python [dict] whose keys may be missing is a record of [option]
      fields; subscripting a missing key raises [KeyError].
    - Code that can raise returns a sum [A + Exn] next to the state it
      leaves behind.
    - asyncio is cooperative: the code between two suspension points runs
      atomically, so a coroutine is modelled by one function per slice. *)

From Stdlib Require Import ZArith QArith List Permutation Sorted Lia Bool Ascii.
From stdpp Require Import base option list gmap strings pretty.

Local Open Scope Z_scope.

(** ** Exceptions ([ffmc/utils/exceptions.py] and the built-in ones raised on the modelled paths) *)

Inductive Exn : Type :=
| ConversionError (msg : string)
| AnalysisError (msg : string)
| DatabaseError (msg : string)
| FileSystemError (msg : string)
| SqliteError (msg : string)
| TypeError (msg : string)
| KeyError (key : string)
| IndexError
| ZeroDivisionError
| OtherError (msg : string)
| KeyboardInterrupt
| CancelledError.

(** [isinstance(e, Exception)]: [KeyboardInterrupt] and
    [asyncio.CancelledError] derive from [BaseException] only. *)
Definition is_Exception (e : Exn) : bool :=
  match e with
  | KeyboardInterrupt | CancelledError => false
  | _ => true
  end.

(** [str(e)] *)
Definition exn_str (e : Exn) : string :=
  match e with
  | ConversionError m | AnalysisError m | DatabaseError m
  | FileSystemError m | SqliteError m | TypeError m | OtherError m => m
  | KeyError k => k
  | IndexError => "list index out of range"
  | ZeroDivisionError => "division by zero"
  | KeyboardInterrupt => ""
  | CancelledError => ""
  end.

(** ** Analysis results ([ffmc/analysis/codec_detector.py], [VideoAnalysis])

    The fields the pipeline reads; width, height, fps, bitrate and the
    raw probe blob are carried by the source but inspected by no modelled
    function. *)

Record VideoAnalysis : Type := mkAnalysis {
  file_path : string;
  video_codec : string;
  audio_codec : string;
  container : string;
  resolution : string;
  duration : Q;
  file_size : Z;
  needs_conversion : bool;
  reason : string
}.

(** The dict returned by [VideoEncoder.convert_video] on success. *)
Record ConvResult : Type := mkConvResult {
  output_path : string;
  output_size : Z;
  result_duration : Q;
  success : bool
}.

(** What awaiting [convert_video] gives: a returned value ([None] or the
    result dict) or a raised exception. *)
Inductive EncoderOutcome : Type :=
| Returned (r : option ConvResult)
| Raised (e : Exn).

(** ** [ffmc/persistence/database.py] *)

Module ConversionDatabase.

Inductive Status : Type := started | completed | failed | skipped.

Definition Status_eqb (a b : Status) : bool :=
  match a, b with
  | started, started | completed, completed
  | failed, failed | skipped, skipped => true
  | _, _ => false
  end.

(** A row of [videos]. *)
Record VideoRow : Type := mkVideoRow {
  v_id : Z;
  v_file_path : string;
  v_analysis : VideoAnalysis
}.

(** A row of [conversions]. *)
Record ConversionRow : Type := mkConversionRow {
  c_id : Z;
  c_video_id : Z;
  c_file_path : string;
  c_status : Status;
  c_original_size : Z;
  c_converted_size : option Z;
  c_compression_ratio : option Q;
  c_space_saved : option Z;
  c_processing_time : option Q;
  c_error_message : option string;
  c_started_at : option Z;
  c_completed_at : option Z
}.

(** The single row of [statistics] (inserted by [_initialize_database];
    no modelled statement inserts or deletes rows of this table, and the
    [UPDATE]s carry no [WHERE]). *)
Record Statistics : Type := mkStatistics {
  total_conversions : Z;
  successful_conversions : Z;
  failed_conversions : Z;
  skipped_conversions : Z;
  total_original_size : Z;
  total_converted_size : Z;
  total_space_saved : Z;
  total_processing_time : Q;
  last_updated : Z
}.

(** The database file: three tables and the two AUTOINCREMENT counters. *)
Record Database : Type := mkDatabase {
  videos : list VideoRow;
  video_seq : Z;
  conversions : list ConversionRow;
  conversion_seq : Z;
  statistics : Statistics
}.

(** [_initialize_database] on a fresh file; [now] is CURRENT_TIMESTAMP. *)
Definition _initialize_database (now : Z) : Database :=
  {| videos := []; video_seq := 0;
     conversions := []; conversion_seq := 0;
     statistics := mkStatistics 0 0 0 0 0 0 0 0%Q now |}.

(** *** Connections and transactions

    [sqlite3.connect(..., isolation_level='DEFERRED')]: statements work
    on an uncommitted image; [conn.commit()] makes it durable;
    [conn.rollback()] and closing an uncommitted connection drop it.

    INTEGER values are SQLite's signed 64-bit integers.  The sizes the
    methods are given are file sizes; the statements below that read
    them, or the sums of the ledger, assume that they are in that range
    ([int64]).  Outside it the source raises [OverflowError] when it
    binds a parameter, and SQLite turns an overflowing sum into a REAL;
    neither is modelled. *)

Definition int64 (z : Z) : Prop :=
  -9223372036854775808 <= z <= 9223372036854775807.

(** Where the sqlite calls of one [with self._get_connection()] block
    raise [sqlite3.Error]: [sqlite3.connect]; the [k]-th call made on the
    connection inside the block ([cursor.execute], [conn.commit]);
    [conn.rollback()] in the handler; [conn.close()] in the [finally]. *)
Record Faults : Type := mkFaults {
  connect_fails : bool;
  call_fails : nat -> bool;
  rollback_fails : bool;
  close_fails : bool
}.

Record Conn : Type := mkConn {
  durable : Database;
  working : Database;
  n_ops : nat
}.

Definition Tx (A : Type) : Type := Conn -> (A + Exn) * Conn.

Definition tx_ret {A} (a : A) : Tx A := fun c => (inl a, c).

Definition tx_raise {A} (e : Exn) : Tx A := fun c => (inr e, c).

Definition tx_bind {A B} (m : Tx A) (k : A -> Tx B) : Tx B :=
  fun c =>
    match m c with
    | (inl a, c') => k a c'
    | (inr e, c') => (inr e, c')
    end.

Notation "x <- m ;; k" := (tx_bind m (fun x => k))
  (at level 100, m at next level, right associativity).
Notation "m ;;; k" := (tx_bind m (fun _ => k))
  (at level 100, right associativity).

(** [cursor.execute] of a statement whose effect on the tables is [f]. *)
Definition execute {A} (fault : nat -> bool) (f : Database -> A * Database) : Tx A :=
  fun c =>
    if fault (n_ops c)
    then (inr (SqliteError "sqlite3.Error"), mkConn (durable c) (working c) (S (n_ops c)))
    else let (a, d) := f (working c) in
         (inl a, mkConn (durable c) d (S (n_ops c))).

(** [conn.commit()] *)
Definition commit (fault : nat -> bool) : Tx unit :=
  fun c =>
    if fault (n_ops c)
    then (inr (SqliteError "sqlite3.Error"), mkConn (durable c) (working c) (S (n_ops c)))
    else (inl tt, mkConn (working c) (working c) (S (n_ops c))).

(** The [except sqlite3.Error] clause: [conn.rollback()], then
    [raise DatabaseError(...)]; a [sqlite3.Error] of the rollback leaves
    in its place; any other outcome of the block passes through. *)
Definition handle_sqlite_error {A} (fault : Faults) (r : A + Exn) : A + Exn :=
  match r with
  | inr (SqliteError m) =>
      if rollback_fails fault then inr (SqliteError "sqlite3.Error")
      else inr (DatabaseError ("Database error: " +:+ m))
  | _ => r
  end.

(** [with self._get_connection() as conn: body].  [sqlite3.connect] is
    called before the [try], so its [sqlite3.Error] leaves as it is.
    The [finally] closes the connection in every case, which leaves only
    what was committed; a [sqlite3.Error] of [conn.close()] replaces the
    outcome of the block, a returned value included. *)
Definition _get_connection {A} (fault : Faults) (body : Tx A) (db : Database)
    : (A + Exn) * Database :=
  if connect_fails fault then (inr (SqliteError "sqlite3.Error"), db)
  else
    let (r, c) := body (mkConn db db 0%nat) in
    if close_fails fault then (inr (SqliteError "sqlite3.Error"), durable c)
    else (handle_sqlite_error fault r, durable c).

Definition no_fault : Faults := mkFaults false (fun _ => false) false false.

(** *** Statements *)

(** [INSERT OR REPLACE INTO videos ...]: [file_path] is UNIQUE, so a row
    with the same path is deleted before the new one is inserted. *)
Definition sql_upsert_video (path : string) (a : VideoAnalysis) (d : Database) : unit * Database :=
  (tt,
   {| videos := List.filter (fun r => negb (String.eqb (v_file_path r) path)) (videos d)
                  ++ [mkVideoRow (video_seq d + 1) path a];
      video_seq := video_seq d + 1;
      conversions := conversions d;
      conversion_seq := conversion_seq d;
      statistics := statistics d |}).

(** [SELECT ... FROM videos WHERE file_path = ?] followed by [fetchone()]. *)
Definition sql_select_video (path : string) (d : Database) : option VideoRow * Database :=
  (List.find (fun r => String.eqb (v_file_path r) path) (videos d), d).

(** [INSERT INTO conversions (...) VALUES (?, ?, 'started', ?, ?)];
    the value is [cursor.lastrowid]. *)
Definition sql_insert_started (video_id : Z) (path : string) (original_size now : Z)
    (d : Database) : Z * Database :=
  (conversion_seq d + 1,
   {| videos := videos d;
      video_seq := video_seq d;
      conversions := conversions d ++
        [mkConversionRow (conversion_seq d + 1) video_id path started original_size
           None None None None None (Some now) None];
      conversion_seq := conversion_seq d + 1;
      statistics := statistics d |}).

(** [WHERE file_path = ? AND status = 'started'] *)
Definition is_started_for (path : string) (r : ConversionRow) : bool :=
  String.eqb (c_file_path r) path && Status_eqb (c_status r) started.

Definition update_conversions (f : ConversionRow -> ConversionRow) (path : string)
    (d : Database) : unit * Database :=
  (tt,
   {| videos := videos d;
      video_seq := video_seq d;
      conversions := map (fun r => if is_started_for path r then f r else r) (conversions d);
      conversion_seq := conversion_seq d;
      statistics := statistics d |}).

Definition update_statistics (f : Statistics -> Statistics) (d : Database) : unit * Database :=
  (tt,
   {| videos := videos d;
      video_seq := video_seq d;
      conversions := conversions d;
      conversion_seq := conversion_seq d;
      statistics := f (statistics d) |}).

(** [SET status = 'completed', converted_size = ?, ...] *)
Definition set_completed (converted_size : Z) (ratio : Q) (space_saved : Z)
    (processing_time : Q) (now : Z) (r : ConversionRow) : ConversionRow :=
  mkConversionRow (c_id r) (c_video_id r) (c_file_path r) completed (c_original_size r)
    (Some converted_size) (Some ratio) (Some space_saved) (Some processing_time)
    (c_error_message r) (c_started_at r) (Some now).

(** [SET status = 'failed', error_message = ?, completed_at = ?] *)
Definition set_failed (msg : string) (now : Z) (r : ConversionRow) : ConversionRow :=
  mkConversionRow (c_id r) (c_video_id r) (c_file_path r) failed (c_original_size r)
    (c_converted_size r) (c_compression_ratio r) (c_space_saved r) (c_processing_time r)
    (Some msg) (c_started_at r) (Some now).

(** [SET status = 'skipped', error_message = ?, completed_at = ?] *)
Definition set_skipped (msg : string) (now : Z) (r : ConversionRow) : ConversionRow :=
  mkConversionRow (c_id r) (c_video_id r) (c_file_path r) skipped (c_original_size r)
    (c_converted_size r) (c_compression_ratio r) (c_space_saved r) (c_processing_time r)
    (Some msg) (c_started_at r) (Some now).

(** The ledger increment of [mark_completed]. *)
Definition add_success (original_size converted_size space_saved : Z)
    (processing_time : Q) (now : Z) (s : Statistics) : Statistics :=
  mkStatistics (total_conversions s)
    (successful_conversions s + 1)
    (failed_conversions s) (skipped_conversions s)
    (total_original_size s + original_size)
    (total_converted_size s + converted_size)
    (total_space_saved s + space_saved)
    (total_processing_time s + processing_time)%Q
    now.

Definition add_failure (now : Z) (s : Statistics) : Statistics :=
  mkStatistics (total_conversions s) (successful_conversions s)
    (failed_conversions s + 1) (skipped_conversions s)
    (total_original_size s) (total_converted_size s) (total_space_saved s)
    (total_processing_time s) now.

Definition add_skip (now : Z) (s : Statistics) : Statistics :=
  mkStatistics (total_conversions s) (successful_conversions s)
    (failed_conversions s) (skipped_conversions s + 1)
    (total_original_size s) (total_converted_size s) (total_space_saved s)
    (total_processing_time s) now.

(** *** Methods *)

Definition store_analysis (fault : Faults) (video_path : string) (analysis : VideoAnalysis)
    (db : Database) : (unit + Exn) * Database :=
  _get_connection fault
    (execute (call_fails fault) (sql_upsert_video video_path analysis) ;;;
     commit (call_fails fault))
    db.

(** The reconstructed analysis has [reason=""]. *)
Definition get_analysis (fault : Faults) (video_path : string)
    (db : Database) : (option VideoAnalysis + Exn) * Database :=
  _get_connection fault
    (row <- execute (call_fails fault) (sql_select_video video_path) ;;
     tx_ret (match row with
             | None => None
             | Some r =>
                 let a := v_analysis r in
                 Some (mkAnalysis (v_file_path r) (video_codec a) (audio_codec a)
                         (container a) (resolution a) (duration a) (file_size a)
                         (needs_conversion a) "")
             end))
    db.

Definition mark_started (fault : Faults) (video_path : string) (original_size now : Z)
    (db : Database) : (Z + Exn) * Database :=
  _get_connection fault
    (row <- execute (call_fails fault) (sql_select_video video_path) ;;
     match row with
     | None => tx_raise (DatabaseError ("Video not found in database: " +:+ video_path))
     | Some r =>
         conversion_id <-
           execute (call_fails fault)
             (sql_insert_started (v_id r) video_path original_size now) ;;
         commit (call_fails fault) ;;;
         tx_ret conversion_id
     end)
    db.

(** [converted_size / original_size if original_size > 0 else 1.0] *)
Definition compression_ratio (original_size converted_size : Z) : Q :=
  if 0 <? original_size
  then (inject_Z converted_size / inject_Z original_size)%Q
  else 1%Q.

Definition mark_completed (fault : Faults) (video_path : string)
    (original_size converted_size : Z) (processing_time : Q) (now : Z)
    (db : Database) : (unit + Exn) * Database :=
  let space_saved := original_size - converted_size in
  let ratio := compression_ratio original_size converted_size in
  _get_connection fault
    (execute (call_fails fault)
       (update_conversions
          (set_completed converted_size ratio space_saved processing_time now) video_path) ;;;
     execute (call_fails fault)
       (update_statistics
          (add_success original_size converted_size space_saved processing_time now)) ;;;
     commit (call_fails fault))
    db.

Definition mark_failed (fault : Faults) (video_path : string) (error_message : string)
    (now : Z) (db : Database) : (unit + Exn) * Database :=
  _get_connection fault
    (execute (call_fails fault) (update_conversions (set_failed error_message now) video_path) ;;;
     execute (call_fails fault) (update_statistics (add_failure now)) ;;;
     commit (call_fails fault))
    db.

Definition mark_skipped (fault : Faults) (video_path : string) (reason : string)
    (now : Z) (db : Database) : (unit + Exn) * Database :=
  _get_connection fault
    (execute (call_fails fault) (update_conversions (set_skipped reason now) video_path) ;;;
     execute (call_fails fault) (update_statistics (add_skip now)) ;;;
     commit (call_fails fault))
    db.

(** [SELECT COUNT( * ) ... WHERE file_path = ? AND status = 'completed'],
    then [count > 0].  A read; the stored tables are not touched. *)
Definition is_converted (video_path : string) (db : Database) : bool :=
  0 <? Z.of_nat (length (List.filter
    (fun r => String.eqb (c_file_path r) video_path && Status_eqb (c_status r) completed)
    (conversions db))).

(** *** [get_statistics] and [clear_statistics] *)

(** A value of a result row: an INTEGER or a REAL (a Python [int] or
    [float]). *)
Inductive SqlValue : Type :=
| VInt (z : Z)
| VReal (q : Q).

(** [dict(row)] for the row of [statistics]; its [id] is 1. *)
Definition statistics_dict (s : Statistics) : gmap string SqlValue :=
  list_to_map
    [ ("id", VInt 1);
      ("total_conversions", VInt (total_conversions s));
      ("successful_conversions", VInt (successful_conversions s));
      ("failed_conversions", VInt (failed_conversions s));
      ("skipped_conversions", VInt (skipped_conversions s));
      ("total_original_size", VInt (total_original_size s));
      ("total_converted_size", VInt (total_converted_size s));
      ("total_space_saved", VInt (total_space_saved s));
      ("total_processing_time", VReal (total_processing_time s));
      ("last_updated", VInt (last_updated s)) ].

(** The derived statistics. *)
Definition avg_savings_percent (s : Statistics) : SqlValue :=
  if 0 <? successful_conversions s
  then if 0 <? total_original_size s
       then VReal (inject_Z (total_space_saved s) / inject_Z (total_original_size s) * 100)%Q
       else VInt 0
  else VInt 0.

Definition avg_compression_ratio (s : Statistics) : SqlValue :=
  if 0 <? successful_conversions s
  then if 0 <? total_original_size s
       then VReal (inject_Z (total_converted_size s) / inject_Z (total_original_size s))%Q
       else VReal 1
  else VReal 1.

Definition avg_processing_time (s : Statistics) : SqlValue :=
  if 0 <? successful_conversions s
  then VReal (total_processing_time s / inject_Z (successful_conversions s))%Q
  else VInt 0.

Definition get_statistics (fault : Faults) (db : Database)
    : (gmap string SqlValue + Exn) * Database :=
  _get_connection fault
    (s <- execute (call_fails fault) (fun d => (statistics d, d)) ;;
     tx_ret (<["avg_processing_time" := avg_processing_time s]>
             (<["avg_compression_ratio" := avg_compression_ratio s]>
              (<["avg_savings_percent" := avg_savings_percent s]> (statistics_dict s)))))
    db.

(** [UPDATE statistics SET successful_conversions = 0, ...]: the SET list
    does not name [total_conversions]. *)
Definition reset_statistics (now : Z) (s : Statistics) : Statistics :=
  mkStatistics (total_conversions s) 0 0 0 0 0 0 0%Q now.

Definition clear_statistics (fault : Faults) (now : Z) (db : Database)
    : (unit + Exn) * Database :=
  _get_connection fault
    (execute (call_fails fault) (update_statistics (reset_statistics now)) ;;;
     commit (call_fails fault))
    db.

End ConversionDatabase.

(** ** [ffmc/persistence/state_manager.py] *)

Module StateManager.

(** [{'error': ..., 'timestamp': ...}] and [{'reason': ..., 'timestamp': ...}] *)
Record ReasonInfo : Type := mkReasonInfo {
  info_text : string;
  info_timestamp : Z
}.

(** [job_metadata]: a dict whose ['errors'] and ['skipped_reasons']
    entries are created on first use. *)
Record JobMetadata : Type := mkJobMetadata {
  errors : option (gmap string ReasonInfo);
  skipped_reasons : option (gmap string ReasonInfo)
}.

(** The state dict.  [None] is a key that is not in the dict. *)
Record StateDict : Type := mkStateDict {
  version : option Z;
  created_at : option Z;
  updated_at : option Z;
  pending : option (list string);
  completed : option (gset string);
  failed : option (gset string);
  skipped : option (gset string);
  job_metadata : option JobMetadata;
  timestamp : option Z
}.

(** The manager: the pickled file on disk ([None]: no file) and
    [self.current_state]. *)
Record t : Type := mkStateManager {
  state_file : option StateDict;
  current_state : StateDict
}.

Definition with_updated_at (v : Z) (s : StateDict) : StateDict :=
  mkStateDict (version s) (created_at s) (Some v) (pending s) (completed s)
    (failed s) (skipped s) (job_metadata s) (timestamp s).

Definition with_pending (v : list string) (s : StateDict) : StateDict :=
  mkStateDict (version s) (created_at s) (updated_at s) (Some v) (completed s)
    (failed s) (skipped s) (job_metadata s) (timestamp s).

Definition with_completed (v : gset string) (s : StateDict) : StateDict :=
  mkStateDict (version s) (created_at s) (updated_at s) (pending s) (Some v)
    (failed s) (skipped s) (job_metadata s) (timestamp s).

Definition with_failed (v : gset string) (s : StateDict) : StateDict :=
  mkStateDict (version s) (created_at s) (updated_at s) (pending s) (completed s)
    (Some v) (skipped s) (job_metadata s) (timestamp s).

Definition with_skipped (v : gset string) (s : StateDict) : StateDict :=
  mkStateDict (version s) (created_at s) (updated_at s) (pending s) (completed s)
    (failed s) (Some v) (job_metadata s) (timestamp s).

Definition with_job_metadata (v : JobMetadata) (s : StateDict) : StateDict :=
  mkStateDict (version s) (created_at s) (updated_at s) (pending s) (completed s)
    (failed s) (skipped s) (Some v) (timestamp s).

Definition _default_state (now : Z) : StateDict :=
  {| version := Some 1;
     created_at := Some now;
     updated_at := Some now;
     pending := Some [];
     completed := Some ∅;
     failed := Some ∅;
     skipped := Some ∅;
     job_metadata := Some (mkJobMetadata None None);
     timestamp := None |}.

(** [__init__]: the file is whatever an earlier process left. *)
Definition init (file : option StateDict) (now : Z) : t :=
  {| state_file := file; current_state := _default_state now |}.

(** [load]: absent file or a dict without ['version'] gives [None]. *)
Definition load (sm : t) : option StateDict * t :=
  match state_file sm with
  | None => (None, sm)
  | Some state =>
      match version state with
      | None => (None, sm)
      | Some _ => (Some state, mkStateManager (state_file sm) state)
      end
  end.

(** [save(state)]: [write_ok = false] is a failure of the temp-file
    write or of the rename; the file then keeps its old contents. *)
Definition save (write_ok : bool) (state : option StateDict) (now : Z) (sm : t)
    : (unit + Exn) * t :=
  let cs := with_updated_at now (default (current_state sm) state) in
  if write_ok
  then (inl tt, mkStateManager (Some cs) cs)
  else (inr (FileSystemError "Could not save state"), mkStateManager (state_file sm) cs).

(** [list.remove(x)]: the first occurrence. *)
Fixpoint remove_first (x : string) (l : list string) : list string :=
  match l with
  | [] => []
  | y :: l' => if String.eqb y x then l' else y :: remove_first x l'
  end.

(** [if file_str in pending: pending.remove(file_str)] *)
Definition drop_pending (file_str : string) (l : list string) : list string :=
  if existsb (String.eqb file_str) l then remove_first file_str l else l.

Definition mark_completed (write_ok : bool) (file_str : string) (now : Z) (sm : t)
    : (unit + Exn) * t :=
  let cs := current_state sm in
  match pending cs with
  | None => (inr (KeyError "pending"), sm)
  | Some p =>
      let cs1 := with_pending (drop_pending file_str p) cs in
      match completed cs1 with
      | None => (inr (KeyError "completed"), mkStateManager (state_file sm) cs1)
      | Some c =>
          let cs2 := with_completed (c ∪ {[file_str]}) cs1 in
          match failed cs2 with
          | None => (inr (KeyError "failed"), mkStateManager (state_file sm) cs2)
          | Some f =>
              let cs3 := with_failed (f ∖ {[file_str]}) cs2 in
              save write_ok None now (mkStateManager (state_file sm) cs3)
          end
      end
  end.

Definition mark_failed (write_ok : bool) (file_str error : string) (now : Z) (sm : t)
    : (unit + Exn) * t :=
  let cs := current_state sm in
  match pending cs with
  | None => (inr (KeyError "pending"), sm)
  | Some p =>
      let cs1 := with_pending (drop_pending file_str p) cs in
      match failed cs1 with
      | None => (inr (KeyError "failed"), mkStateManager (state_file sm) cs1)
      | Some f =>
          let cs2 := with_failed (f ∪ {[file_str]}) cs1 in
          match job_metadata cs2 with
          | None => (inr (KeyError "job_metadata"), mkStateManager (state_file sm) cs2)
          | Some jm =>
              let errs := default ∅ (errors jm) in
              let jm' := mkJobMetadata (Some (<[file_str := mkReasonInfo error now]> errs))
                           (skipped_reasons jm) in
              save write_ok None now
                (mkStateManager (state_file sm) (with_job_metadata jm' cs2))
          end
      end
  end.

Definition mark_skipped (write_ok : bool) (file_str reason : string) (now : Z) (sm : t)
    : (unit + Exn) * t :=
  let cs := current_state sm in
  match pending cs with
  | None => (inr (KeyError "pending"), sm)
  | Some p =>
      let cs1 := with_pending (drop_pending file_str p) cs in
      match skipped cs1 with
      | None => (inr (KeyError "skipped"), mkStateManager (state_file sm) cs1)
      | Some k =>
          let cs2 := with_skipped (k ∪ {[file_str]}) cs1 in
          match job_metadata cs2 with
          | None => (inr (KeyError "job_metadata"), mkStateManager (state_file sm) cs2)
          | Some jm =>
              let rs := default ∅ (skipped_reasons jm) in
              let jm' := mkJobMetadata (errors jm)
                           (Some (<[file_str := mkReasonInfo reason now]> rs)) in
              save write_ok None now
                (mkStateManager (state_file sm) (with_job_metadata jm' cs2))
          end
      end
  end.

(** [str(file_path) in self.current_state.get('failed', set())] *)
Definition is_failed (file_str : string) (sm : t) : bool :=
  bool_decide (file_str ∈ default ∅ (failed (current_state sm))).

Definition is_completed (file_str : string) (sm : t) : bool :=
  bool_decide (file_str ∈ default ∅ (completed (current_state sm))).

(** [self.current_state.get('pending', [])] *)
Definition get_pending (sm : t) : list string :=
  default [] (pending (current_state sm)).

Definition is_skipped (file_str : string) (sm : t) : bool :=
  bool_decide (file_str ∈ default ∅ (skipped (current_state sm))).

(** [self.current_state.get('failed', set())] *)
Definition get_failed (sm : t) : gset string :=
  default ∅ (failed (current_state sm)).

(** [get_error_message]: the stored error of a path, [None] when the
    path has none. *)
Definition get_error_message (file_str : string) (sm : t) : option string :=
  let errs := default ∅ (default (mkJobMetadata None None) (job_metadata (current_state sm))).(errors) in
  info_text <$> (errs !! file_str).

(** [clear]: back to the default state, and saved. *)
Definition clear (write_ok : bool) (now : Z) (sm : t) : (unit + Exn) * t :=
  save write_ok None now (mkStateManager (state_file sm) (_default_state now)).

(** [delete]: the file is removed if it exists; the state is the default. *)
Definition delete (now : Z) (sm : t) : t :=
  mkStateManager None (_default_state now).

(** [get_statistics]: the sizes of the four collections. *)
Record StateStatistics : Type := mkStateStatistics {
  total_pending : nat;
  total_completed : nat;
  total_failed : nat;
  total_skipped : nat
}.

Definition get_statistics (sm : t) : StateStatistics :=
  let cs := current_state sm in
  {| total_pending := length (default [] (pending cs));
     total_completed := size (default ∅ (completed cs));
     total_failed := size (default ∅ (failed cs));
     total_skipped := size (default ∅ (skipped cs)) |}.

End StateManager.

(** ** [ffmc/conversion/encoder.py] *)

Module VideoEncoder.

(** What the FFmpeg child process and the file system let
    [convert_video] observe.  A field of type [option Exn] is the
    exception raised at that point, if any. *)
Record FfmpegRun : Type := mkFfmpegRun {
  setup_error : option Exn;    (* [_get_output_path] (its [mkdir]) or [build_command], before the [try] *)
  spawn_error : option Exn;    (* starting, monitoring and awaiting FFmpeg, progress callback included *)
  returncode : Z;
  exists_error : option Exn;   (* [output_path.exists()] *)
  output_exists : bool;
  stat_error : option Exn;     (* [output_path.stat()] *)
  st_size : Z;                 (* [output_path.stat().st_size] *)
  unlink_error : option Exn;   (* [output_path.unlink()] of an empty or of a larger output *)
  replace_error : option Exn;  (* [_replace_original] or the completion callback *)
  cleanup_error : option Exn;  (* [output_path.exists()] and [unlink()] in the handler *)
  elapsed : Q                  (* [(datetime.now() - start_time).total_seconds()] *)
}.

(** The two [except] clauses of [convert_video].  A [ConversionError] is
    re-raised.  Any other [Exception] is logged, the output file is
    removed if it exists, and [ConversionError] is raised in its place,
    unless the removal raises.  What is not an [Exception] passes
    through. *)
Definition on_exception (r : FfmpegRun) (e : Exn) : EncoderOutcome :=
  match e with
  | ConversionError _ => Raised e
  | _ =>
      if is_Exception e
      then match cleanup_error r with
           | Some e' => Raised e'
           | None => Raised (ConversionError ("Conversion failed: " +:+ exn_str e))
           end
      else Raised e
  end.

(** The body of the [try], from the check of the exit code on. *)
Definition check_output (skip_if_larger : bool) (out_path : string)
    (analysis : VideoAnalysis) (r : FfmpegRun) : EncoderOutcome :=
  if negb (returncode r =? 0)
  then Raised (ConversionError ("FFmpeg error (code " +:+ pretty (returncode r) +:+ ")"))
  else
    match exists_error r with
    | Some e => on_exception r e
    | None =>
        if negb (output_exists r) then Raised (ConversionError "Output file not created")
        else
          match stat_error r with
          | Some e => on_exception r e
          | None =>
              if st_size r =? 0
              then match unlink_error r with
                   | Some e => on_exception r e
                   | None => Raised (ConversionError "Output file is empty")
                   end
              else if skip_if_larger && (file_size analysis <=? st_size r)
              then match unlink_error r with
                   | Some e => on_exception r e
                   | None => Returned None
                   end
              else match replace_error r with
                   | Some e => on_exception r e
                   | None =>
                       Returned (Some (mkConvResult out_path (st_size r) (elapsed r) true))
                   end
          end
    end.

(** [convert_video]; [out_path] is what [_get_output_path] returns.  The
    files that [_replace_original] renames are outside the model, which
    has no file system: what a later scan finds is given by the
    environment of that run. *)
Definition convert_video (skip_if_larger : bool) (out_path : string)
    (analysis : VideoAnalysis) (r : FfmpegRun) : EncoderOutcome :=
  match setup_error r with
  | Some e => Raised e
  | None =>
      match spawn_error r with
      | Some e => on_exception r e
      | None => check_output skip_if_larger out_path analysis r
      end
  end.

End VideoEncoder.

(** ** [ffmc/core/worker_pool.py]: [WorkerMetrics] and [Worker] *)

Module Worker.

Record WorkerMetrics : Type := mkMetrics {
  worker_id : nat;
  current_task : option string;
  tasks_completed : Z;
  tasks_failed : Z;
  total_processing_time : Q;
  cpu_affinity : list nat;
  is_busy : bool;
  last_task_time : option Z
}.

(** [_set_cpu_affinity]; [cpu_count] is [psutil.cpu_count(logical=False)].
    A zero [concurrent_conversions] raises inside the [try], which leaves
    the affinity list empty. *)
Definition _set_cpu_affinity (cpu_count : option nat) (concurrent id : nat) : list nat :=
  if (concurrent =? 0)%nat then []
  else
    let cpus := match cpu_count with Some (S n) => S n | _ => 1%nat end in
    let cores_per_worker := Nat.max 1 (cpus / concurrent) in
    let start_core := ((id * cores_per_worker) mod cpus)%nat in
    let end_core := Nat.min (start_core + cores_per_worker) cpus in
    seq start_core (end_core - start_core).

(** [Worker.__init__] *)
Definition init (affinity_enabled : bool) (cpu_count : option nat) (concurrent id : nat)
    : WorkerMetrics :=
  {| worker_id := id; current_task := None;
     tasks_completed := 0; tasks_failed := 0; total_processing_time := 0%Q;
     cpu_affinity := if affinity_enabled then _set_cpu_affinity cpu_count concurrent id else [];
     is_busy := false; last_task_time := None |}.

(** [video_path.name]: the last component of a (normalised) path. *)
Fixpoint path_name_from (acc p : string) : string :=
  match p with
  | EmptyString => acc
  | String c r =>
      if Ascii.eqb c "/"%char then path_name_from EmptyString r
      else path_name_from (acc +:+ String c EmptyString) r
  end.

Definition path_name (p : string) : string := path_name_from EmptyString p.

(** [process], first slice: from the acquisition of the semaphore to the
    suspension in [await self.encoder.convert_video(...)].  The pool
    only hands jobs to idle workers, so the semaphore is free here. *)
Definition process_begin (video_path : string) (m : WorkerMetrics) : WorkerMetrics :=
  mkMetrics (worker_id m) (Some (path_name video_path)) (tasks_completed m) (tasks_failed m)
    (total_processing_time m) (cpu_affinity m) true (last_task_time m).

(** The [finally] block. *)
Definition clear (m : WorkerMetrics) : WorkerMetrics :=
  mkMetrics (worker_id m) None (tasks_completed m) (tasks_failed m)
    (total_processing_time m) (cpu_affinity m) false (last_task_time m).

(** [process], second slice: from the resumption after the encoder to
    the exit.  [processing_time] and [now] are the two clock readings of
    the success path. *)
Definition process_end (out : EncoderOutcome) (processing_time : Q) (now : Z)
    (m : WorkerMetrics) : (option ConvResult + Exn) * WorkerMetrics :=
  match out with
  | Returned result =>
      (inl result,
       clear (mkMetrics (worker_id m) (current_task m) (tasks_completed m + 1) (tasks_failed m)
                (total_processing_time m + processing_time)%Q (cpu_affinity m) (is_busy m)
                (Some now)))
  | Raised e =>
      if is_Exception e
      then (inl None,
            clear (mkMetrics (worker_id m) (current_task m) (tasks_completed m)
                     (tasks_failed m + 1) (total_processing_time m) (cpu_affinity m)
                     (is_busy m) (last_task_time m)))
      else (inr e, clear m)
  end.

(** One whole call of [process] on an idle worker. *)
Definition process (video_path : string) (out : EncoderOutcome) (processing_time : Q)
    (now : Z) (m : WorkerMetrics) : (option ConvResult + Exn) * WorkerMetrics :=
  process_end out processing_time now (process_begin video_path m).

(** The invariant of [WorkerMetrics]: [busy == (currentJob != none)]. *)
Definition metrics_inv (m : WorkerMetrics) : Prop :=
  is_busy m = bool_decide (current_task m ≠ None).

End Worker.

(** ** [ffmc/core/worker_pool.py]: [WorkerPool]

    A task created by [submit] runs [_process_task].  Its slices are:
    one poll of [_get_available_worker] (repeated after each
    [asyncio.sleep(0.1)]) which, when it obtains a worker, continues
    without suspension through the shutdown check and the first slice of
    [Worker.process]; and the resumption after the encoder. *)

Module WorkerPool.

Inductive TaskStatus : Type :=
| Waiting                                   (* not started, or asleep in the polling loop *)
| Running (w : nat)                         (* suspended in the encoder on worker [w] *)
| Finished (r : option ConvResult + Exn).   (* the task's result or exception *)

Record Task : Type := mkTask {
  t_video_path : string;
  t_analysis : VideoAnalysis;
  t_status : TaskStatus
}.

(** [tasks] holds every task [submit] created, in creation order; the
    position is the handle.  [started_log] and [finished_log] record the
    order in which tasks entered [Worker.process] and resolved. *)
Record t : Type := mkPool {
  max_workers : nat;
  workers : list Worker.WorkerMetrics;
  tasks : list Task;
  shutdown_event : bool;
  started_log : list nat;
  finished_log : list nat
}.

(** [__init__] with [_initialize_workers] *)
Definition init (affinity_enabled : bool) (cpu_count : option nat) (max_workers : nat) : t :=
  {| max_workers := max_workers;
     workers := map (Worker.init affinity_enabled cpu_count max_workers) (seq 0 max_workers);
     tasks := [];
     shutdown_event := false;
     started_log := [];
     finished_log := [] |}.

(** [self.active_tasks]: the handles not yet done. *)
Definition is_active (tk : Task) : bool :=
  match t_status tk with
  | Finished _ => false
  | _ => true
  end.

Definition active_tasks (p : t) : list Task := List.filter is_active (tasks p).

(** [submit]: creates the task and returns its handle. *)
Definition submit (video_path : string) (analysis : VideoAnalysis) (p : t) : nat * t :=
  (length (tasks p),
   mkPool (max_workers p) (workers p) (tasks p ++ [mkTask video_path analysis Waiting])
     (shutdown_event p) (started_log p) (finished_log p)).

Fixpoint first_idle (i : nat) (ws : list Worker.WorkerMetrics) : option nat :=
  match ws with
  | [] => None
  | m :: ws' => if Worker.is_busy m then first_idle (S i) ws' else Some i
  end.

Inductive Avail : Type :=
| Found (w : nat)
| Sleep
| Fail (e : Exn).

(** One turn of the loop of [_get_available_worker]. *)
Definition _get_available_worker (p : t) : Avail :=
  if shutdown_event p
  then match workers p with
       | [] => Fail IndexError
       | _ => Found 0
       end
  else match first_idle 0 (workers p) with
       | Some w => Found w
       | None => Sleep
       end.

Definition set_status (i : nat) (st : TaskStatus) (l : list Task) : list Task :=
  alter (fun tk => mkTask (t_video_path tk) (t_analysis tk) st) i l.

Definition resolve (i : nat) (r : option ConvResult + Exn) (p : t) : t :=
  mkPool (max_workers p) (workers p) (set_status i (Finished r) (tasks p))
    (shutdown_event p) (started_log p) (finished_log p ++ [i]).

(** A scheduling slice of task [i] while it has no worker. *)
Definition poll (i : nat) (p : t) : t :=
  match tasks p !! i with
  | Some tk =>
      match t_status tk with
      | Waiting =>
          match _get_available_worker p with
          | Sleep => p
          | Fail e => resolve i (inr e) p
          | Found w =>
              if shutdown_event p then resolve i (inl None) p
              else match workers p !! w with
                   | Some m =>
                       mkPool (max_workers p)
                         (<[w := Worker.process_begin (t_video_path tk) m]> (workers p))
                         (set_status i (Running w) (tasks p))
                         (shutdown_event p) (started_log p ++ [i]) (finished_log p)
                   | None => resolve i (inr IndexError) p
                   end
          end
      | _ => p
      end
  | None => p
  end.

(** The slice of task [i] that resumes when its encoder call ends. *)
Definition encoder_done (i : nat) (out : EncoderOutcome) (processing_time : Q) (now : Z)
    (p : t) : t :=
  match tasks p !! i with
  | Some tk =>
      match t_status tk with
      | Running w =>
          match workers p !! w with
          | Some m =>
              let (r, m') := Worker.process_end out processing_time now m in
              mkPool (max_workers p) (<[w := m']> (workers p))
                (set_status i (Finished r) (tasks p))
                (shutdown_event p) (started_log p) (finished_log p ++ [i])
          | None => p
          end
      | _ => p
      end
  | None => p
  end.

(** [self.shutdown_event.set()] *)
Definition set_shutdown (p : t) : t :=
  mkPool (max_workers p) (workers p) (tasks p) true (started_log p) (finished_log p).

(** What can happen to a pool, one atomic slice at a time. *)
Inductive Event : Type :=
| EvSubmit (video_path : string) (analysis : VideoAnalysis)
| EvPoll (i : nat)
| EvEncoderDone (i : nat) (out : EncoderOutcome) (processing_time : Q) (now : Z)
| EvShutdown.

Definition step (p : t) (e : Event) : t :=
  match e with
  | EvSubmit v a => snd (submit v a p)
  | EvPoll i => poll i p
  | EvEncoderDone i out pt now => encoder_done i out pt now p
  | EvShutdown => set_shutdown p
  end.

Definition run_events (evs : list Event) (p : t) : t := fold_left step evs p.

(** [wait_all]: every active task is awaited.  [encode] gives, for a
    path, the outcome of its encoder call and the time the worker
    measures.  Called from [shutdown] only, so the flag is set and a
    waiting task resolves at its next poll.  In which order the awaited
    tasks resolve is a matter of timing; the tasks are taken here in
    handle order, and no statement below reads [finished_log] after a
    wait. *)
Definition await_task (encode : string -> EncoderOutcome * Q) (now : Z) (p : t) (i : nat) : t :=
  match tasks p !! i with
  | Some tk =>
      match t_status tk with
      | Waiting => poll i p
      | Running _ =>
          let (out, pt) := encode (t_video_path tk) in
          encoder_done i out pt now p
      | Finished _ => p
      end
  | None => p
  end.

Definition wait_all (encode : string -> EncoderOutcome * Q) (now : Z) (p : t) : t :=
  fold_left (await_task encode now) (seq 0 (length (tasks p))) p.

(** [shutdown(wait)] *)
Definition shutdown (wait : bool) (encode : string -> EncoderOutcome * Q) (now : Z) (p : t) : t :=
  let p' := set_shutdown p in
  if wait then wait_all encode now p' else p'.

Definition status_of (i : nat) (p : t) : option TaskStatus :=
  t_status <$> tasks p !! i.

(** [get_metrics]: the aggregate part of the report (the per-worker
    details are the worker metrics themselves). *)
Record PoolMetrics : Type := mkPoolMetrics {
  m_total_workers : Z;
  m_busy_workers : Z;
  m_idle_workers : Z;
  m_tasks_completed : Z;
  m_tasks_failed : Z;
  m_total_processing_time : Q;
  m_avg_processing_time : Q;
  m_active_tasks : nat
}.

Definition sum_Z (l : list Z) : Z := fold_right Z.add 0 l.

Definition sum_Q (l : list Q) : Q := fold_right Qplus 0%Q l.

Definition get_metrics (p : t) : PoolMetrics :=
  let total_completed := sum_Z (map Worker.tasks_completed (workers p)) in
  let total_failed := sum_Z (map Worker.tasks_failed (workers p)) in
  let total_time := sum_Q (map Worker.total_processing_time (workers p)) in
  let busy_workers := Z.of_nat (length (List.filter Worker.is_busy (workers p))) in
  {| m_total_workers := Z.of_nat (max_workers p);
     m_busy_workers := busy_workers;
     m_idle_workers := Z.of_nat (max_workers p) - busy_workers;
     m_tasks_completed := total_completed;
     m_tasks_failed := total_failed;
     m_total_processing_time := total_time;
     m_avg_processing_time :=
       if 0 <? total_completed then (total_time / inject_Z total_completed)%Q else 0%Q;
     m_active_tasks := length (active_tasks p) |}.

End WorkerPool.

(** ** [ffmc/core/orchestrator.py]

    The external collaborators are an environment: the file system seen
    by the scanner, the analyzer, and the encoder.  Persistence I/O is
    taken to succeed here ([no_fault], [write_ok = true]); its failures
    are modelled at the level of the stores above.  The notifier, the
    progress display and the metrics collector have no effect on the
    modelled state and are left out. *)

Module ConversionOrchestrator.

Record Env : Type := mkEnv {
  is_file : string -> bool;
  is_dir : string -> bool;
  is_video_file : string -> bool;
  scan_directory : string -> list string;
  (** [CodecDetector.analyze_video]: an analysis, or the message of the
      [AnalysisError] it raises (it wraps every other exception). *)
  analyze_video : string -> VideoAnalysis + string;
  (** the outcome of [VideoEncoder.convert_video] for a path, and the
      processing time its worker measures *)
  encode : string -> EncoderOutcome * Q;
  clock : Z
}.

(** The constructor arguments that steer a run. *)
Record Flags : Type := mkFlags {
  dry_run : bool;
  force : bool
}.

Inductive LogEvent : Type :=
| LogInvalidPath (p : string)
| LogNoVideoFiles
| LogAnalysisFailed (p : string) (msg : string)
| LogSkipAnalysisFailed (p : string)
| LogSkipAlreadyConverted (p : string)
| LogSkipOptimal (p : string)
| LogAllOptimal
| LogDryRunFile (p : string) (size : Z)
| LogDryRunSummary (total_files : nat) (total_size : Z)
| LogConversionFailed (p : string) (msg : string)
| LogConversionSkipped (p : string)
| LogConversionSuccessful (p : string)
| LogSummary (successful failed skipped : Z)
| LogFatal (e : Exn).

(** The orchestrator's mutable collaborators. *)
Record World : Type := mkWorld {
  database : ConversionDatabase.Database;
  state_manager : StateManager.t;
  worker_pool : WorkerPool.t;
  log : list LogEvent
}.

Definition M (A : Type) : Type := World -> (A + Exn) * World.

Definition ret {A} (a : A) : M A := fun w => (inl a, w).

Definition raise {A} (e : Exn) : M A := fun w => (inr e, w).

Definition bind {A B} (m : M A) (k : A -> M B) : M B :=
  fun w =>
    match m w with
    | (inl a, w') => k a w'
    | (inr e, w') => (inr e, w')
    end.

Notation "x <- m ;; k" := (bind m (fun x => k))
  (at level 100, m at next level, right associativity).
Notation "m ;;; k" := (bind m (fun _ => k))
  (at level 100, right associativity).

Fixpoint foldM {A B} (f : B -> A -> M B) (l : list A) (b : B) : M B :=
  match l with
  | [] => ret b
  | a :: l' => b' <- f b a ;; foldM f l' b'
  end.

Definition say (e : LogEvent) : M unit :=
  fun w => (inl tt, mkWorld (database w) (state_manager w) (worker_pool w) (log w ++ [e])).

Definition on_database {A}
    (f : ConversionDatabase.Database -> (A + Exn) * ConversionDatabase.Database) : M A :=
  fun w =>
    let (r, d) := f (database w) in
    (r, mkWorld d (state_manager w) (worker_pool w) (log w)).

Definition on_state_manager {A} (f : StateManager.t -> (A + Exn) * StateManager.t) : M A :=
  fun w =>
    let (r, s) := f (state_manager w) in
    (r, mkWorld (database w) s (worker_pool w) (log w)).

Definition on_worker_pool {A} (f : WorkerPool.t -> A * WorkerPool.t) : M A :=
  fun w =>
    let (a, p) := f (worker_pool w) in
    (inl a, mkWorld (database w) (state_manager w) p (log w)).

(** *** Step 1: [_scan_paths] *)

(** The body of [for path in paths]. *)
Definition scan_path (env : Env) (all_files : list string) (path : string)
    : M (list string) :=
  if is_file env path
  then ret (if is_video_file env path then all_files ++ [path] else all_files)
  else if is_dir env path
  then ret (all_files ++ scan_directory env path)
  else say (LogInvalidPath path) ;;; ret all_files.

Definition _scan_paths (env : Env) (paths : list string) : M (list string) :=
  foldM (scan_path env) paths [].

(** *** Step 2: [_analyze_videos] *)

Definition batch_size : nat := 50.

(** [video_files[i:i + batch_size] for i in range(0, len(video_files), batch_size)] *)
Definition batches (video_files : list string) : list (list string) :=
  map (fun k => take batch_size (drop (k * batch_size) video_files))
      (seq 0 ((length video_files + (batch_size - 1)) / batch_size)).

(** The body of [for video, result in zip(batch, batch_results)]: the
    result is entered in the dict and, when it is an analysis, cached in
    the database. *)
Definition record_analysis (results : gmap string (option VideoAnalysis))
    (vr : string * (VideoAnalysis + string)) : M (gmap string (option VideoAnalysis)) :=
  match snd vr with
  | inr msg =>
      say (LogAnalysisFailed (fst vr) msg) ;;;
      ret (<[fst vr := None]> results)
  | inl result =>
      on_database
        (ConversionDatabase.store_analysis ConversionDatabase.no_fault (fst vr) result) ;;;
      ret (<[fst vr := Some result]> results)
  end.

(** One batch: the analyses are gathered with [return_exceptions=True],
    then taken up one by one. *)
Definition analyze_batch (env : Env) (results : gmap string (option VideoAnalysis))
    (batch : list string) : M (gmap string (option VideoAnalysis)) :=
  let batch_results := map (analyze_video env) batch in
  foldM record_analysis (zip batch batch_results) results.

Definition _analyze_videos (env : Env) (video_files : list string)
    : M (gmap string (option VideoAnalysis)) :=
  foldM (analyze_batch env) (batches video_files) ∅.

(** *** Step 3: [_filter_conversions] *)

(** [analysis_results.get(video)]: [None] for a missing key and for a
    stored [None]. *)
Definition dict_get (results : gmap string (option VideoAnalysis)) (video : string)
    : option VideoAnalysis :=
  match results !! video with
  | Some r => r
  | None => None
  end.

(** [list.sort(key=lambda x: x[1].file_size, reverse=True)]: the sort is
    stable, also under [reverse=True], so the result is the one stable
    descending arrangement; insertion from the right computes it. *)
Fixpoint insert_by_size (x : string * VideoAnalysis) (l : list (string * VideoAnalysis))
    : list (string * VideoAnalysis) :=
  match l with
  | [] => [x]
  | y :: l' =>
      if file_size (snd y) <=? file_size (snd x)
      then x :: y :: l'
      else y :: insert_by_size x l'
  end.

Definition sort_by_size_desc (l : list (string * VideoAnalysis)) : list (string * VideoAnalysis) :=
  foldr insert_by_size [] l.

(** The loop: what is kept, and what is logged for the files left out. *)
Fixpoint select (force : bool) (db : ConversionDatabase.Database)
    (results : gmap string (option VideoAnalysis)) (video_files : list string)
    : list (string * VideoAnalysis) * list LogEvent :=
  match video_files with
  | [] => ([], [])
  | video :: rest =>
      let (kept, logged) := select force db results rest in
      match dict_get results video with
      | None => (kept, LogSkipAnalysisFailed video :: logged)
      | Some analysis =>
          if negb force && ConversionDatabase.is_converted video db
          then (kept, LogSkipAlreadyConverted video :: logged)
          else if needs_conversion analysis
          then ((video, analysis) :: kept, logged)
          else (kept, LogSkipOptimal video :: logged)
      end
  end.

Definition _filter_conversions (force : bool) (video_files : list string)
    (results : gmap string (option VideoAnalysis)) (w : World)
    : list (string * VideoAnalysis) * World :=
  let (kept, logged) := select force (database w) results video_files in
  (sort_by_size_desc kept,
   mkWorld (database w) (state_manager w) (worker_pool w) (log w ++ logged)).

(** The call of [_filter_conversions] as a step of the pipeline; it
    cannot raise. *)
Definition filter_step (force : bool) (video_files : list string)
    (results : gmap string (option VideoAnalysis)) : M (list (string * VideoAnalysis)) :=
  fun w =>
    let (c, w') := _filter_conversions force video_files results w in
    (inl c, w').

(** *** [_dry_run_preview]

    The per-file and the total percentages divide by the file size and
    by the total size.  The estimated output size is computed in
    floating point ([int(file_size * 0.6)]) and is not part of the
    modelled summary. *)
Definition preview_file (total_size : Z) (va : string * VideoAnalysis) : M Z :=
  if file_size (snd va) =? 0 then raise ZeroDivisionError
  else say (LogDryRunFile (fst va) (file_size (snd va))) ;;;
       ret (total_size + file_size (snd va)).

Definition _dry_run_preview (conversions : list (string * VideoAnalysis)) : M unit :=
  total_size <- foldM preview_file conversions 0 ;;
  if total_size =? 0 then raise ZeroDivisionError
  else say (LogDryRunSummary (length conversions) total_size).

(** *** Step 4: [_execute_conversions] *)

(** The values [asyncio.gather(..., return_exceptions=True)] can hand
    back to the result loop. *)
Inductive PyValue : Type :=
| PyNone
| PyDict (r : ConvResult)
| PyException (e : Exn)
| PyTask (handle : nat).

Record Tally : Type := mkTally {
  successful : Z;
  failed : Z;
  skipped : Z
}.

(** [tasks.append(self.worker_pool.submit(...))] builds coroutine
    objects of [submit]; [submit] is not awaited.  [gather] runs each
    of them to its [return task], so what it collects are the task
    handles.  Every task so created gets its first slice before the
    gather future wakes the orchestrator. *)
Definition gather_submits (conversions : list (string * VideoAnalysis)) (p : WorkerPool.t)
    : list PyValue * WorkerPool.t :=
  let '(handles, p1) :=
    fold_left (fun acc va =>
                 let (h, p') := WorkerPool.submit (fst va) (snd va) (snd acc) in
                 (fst acc ++ [h], p'))
              conversions ([], p) in
  (map PyTask handles, fold_left (fun q h => WorkerPool.poll h q) handles p1).

(** The body of [for (video_path, analysis), result in zip(...)]. *)
Definition process_result (now : Z) (t : Tally)
    (item : (string * VideoAnalysis) * PyValue) : M Tally :=
  let video_path := fst (fst item) in
  let analysis := snd (fst item) in
  match snd item with
  | PyException e =>
      if is_Exception e
      then
        say (LogConversionFailed video_path (exn_str e)) ;;;
        on_database (ConversionDatabase.mark_failed ConversionDatabase.no_fault
                       video_path (exn_str e) now) ;;;
        ret (mkTally (successful t) (failed t + 1) (skipped t))
      else
        say (LogConversionSuccessful video_path) ;;;
        raise (TypeError "object is not subscriptable")
  | PyNone =>
      say (LogConversionSkipped video_path) ;;;
      ret (mkTally (successful t) (failed t) (skipped t + 1))
  | PyDict r =>
      say (LogConversionSuccessful video_path) ;;;
      on_database (ConversionDatabase.mark_completed ConversionDatabase.no_fault
                     video_path (file_size analysis) (output_size r) (result_duration r) now) ;;;
      on_state_manager (StateManager.mark_completed true video_path now) ;;;
      ret (mkTally (successful t + 1) (failed t) (skipped t))
  | PyTask _ =>
      say (LogConversionSuccessful video_path) ;;;
      raise (TypeError "'_asyncio.Task' object is not subscriptable")
  end.

(** *** [_print_summary] and the end of [_execute_conversions]

    [start_time] is [self.start_time]: set by [run], still [None] when
    [resume] is the entry point.  The summary reads the statistics dict
    of the database by the keys ['total_savings'] and
    ['avg_savings_percent']. *)
Definition subscript (stats : gmap string ConversionDatabase.SqlValue) (key : string)
    : M ConversionDatabase.SqlValue :=
  match stats !! key with
  | Some v => ret v
  | None => raise (KeyError key)
  end.

Definition _print_summary (start_time : option Z) (t : Tally) : M unit :=
  match start_time with
  | None => raise (TypeError "unsupported operand type(s) for -: 'datetime.datetime' and 'NoneType'")
  | Some _ =>
      stats <- on_database (ConversionDatabase.get_statistics ConversionDatabase.no_fault) ;;
      say (LogSummary (successful t) (failed t) (skipped t)) ;;;
      subscript stats "total_savings" ;;;
      subscript stats "avg_savings_percent" ;;;
      subscript stats "total_savings" ;;;
      ret tt
  end.

(** Lines 309-338: the result loop, [_print_summary], and
    [return failed == 0]. *)
Definition conclude_conversions (start_time : option Z) (now : Z)
    (conversions : list (string * VideoAnalysis)) (results : list PyValue) : M bool :=
  t <- foldM (process_result now) (zip conversions results) (mkTally 0 0 0) ;;
  _print_summary start_time t ;;;
  ret (failed t =? 0).

(** [_execute_conversions].  [start_time] is [self.start_time] at the
    call. *)
Definition _execute_conversions (start_time : option Z) (env : Env)
    (conversions : list (string * VideoAnalysis)) : M bool :=
  on_state_manager
    (StateManager.save true
       (Some (StateManager.mkStateDict None None None (Some (map fst conversions))
                None None None None (Some (clock env))))
       (clock env)) ;;;
  results <- on_worker_pool (gather_submits conversions) ;;
  conclude_conversions start_time (clock env) conversions results.

(** *** [_cleanup], [_finalize], [run], [resume] *)

Definition shutdown_pool (env : Env) (w : World) : World :=
  mkWorld (database w) (state_manager w)
    (WorkerPool.shutdown true (encode env) (clock env) (worker_pool w)) (log w).

Definition _cleanup (env : Env) (w : World) : World := shutdown_pool env w.

Definition _finalize (env : Env) (w : World) : World := shutdown_pool env w.

(** The [try] block of [run], which [self.start_time = datetime.now()]
    precedes. *)
Definition run_body (flags : Flags) (env : Env) (paths : list string) : M bool :=
  video_files <- _scan_paths env paths ;;
  match video_files with
  | [] => say LogNoVideoFiles ;;; ret false
  | _ =>
      analysis_results <- _analyze_videos env video_files ;;
      conversions_needed <- filter_step (force flags) video_files analysis_results ;;
      match conversions_needed with
      | [] => say LogAllOptimal ;;; ret true
      | _ =>
          if dry_run flags
          then _dry_run_preview conversions_needed ;;; ret true
          else _execute_conversions (Some (clock env)) env conversions_needed
      end
  end.

(** The batch of a run: what steps 1 to 3 select for conversion. *)
Definition batch_of (flags : Flags) (env : Env) (paths : list string)
    : M (list (string * VideoAnalysis)) :=
  video_files <- _scan_paths env paths ;;
  analysis_results <- _analyze_videos env video_files ;;
  filter_step (force flags) video_files analysis_results.

(** [run]: [KeyboardInterrupt] and every [Exception] are answered by
    [_cleanup] and [False]; [_finalize] runs in every case. *)
Definition run (flags : Flags) (env : Env) (paths : list string) (w : World)
    : (bool + Exn) * World :=
  let (r, w1) := run_body flags env paths w in
  match r with
  | inl b => (inl b, _finalize env w1)
  | inr e =>
      match e with
      | CancelledError => (inr e, _finalize env w1)
      | _ =>
          (inl false,
           _finalize env
             (_cleanup env
                (mkWorld (database w1) (state_manager w1) (worker_pool w1)
                   (log w1 ++ [LogFatal e]))))
      end
  end.

(** [resume]: no [try] here, an exception of [_execute_conversions]
    reaches the caller.  [self.start_time] is still [None]: only [run]
    sets it, and the command line builds one orchestrator for one
    command. *)
Definition resume (env : Env) : M bool :=
  fun w =>
    let (state, sm) := StateManager.load (state_manager w) in
    let w1 := mkWorld (database w) sm (worker_pool w) (log w) in
    match state with
    | None => (inl false, w1)
    | Some st =>
        match StateManager.pending st with
        | None | Some [] => (inl false, w1)
        | Some pending_files =>
            (conversions_needed <-
               foldM (fun acc file_path =>
                        analysis <- on_database
                          (ConversionDatabase.get_analysis ConversionDatabase.no_fault file_path) ;;
                        ret (match analysis with
                             | Some a => acc ++ [(file_path, a)]
                             | None => acc
                             end))
                     pending_files [] ;;
             match conversions_needed with
             | [] => ret false
             | _ => _execute_conversions None env conversions_needed
             end) w1
        end
    end.


End ConversionOrchestrator.

(** ** [ffmc/analysis/codec_detector.py]: the conversion decision *)

Module CodecDetector.

(** [_calculate_optimal_bitrate] *)
Definition _calculate_optimal_bitrate (width height : Z) : Z :=
  let pixels := width * height in
  if pixels <=? 921600 then 1500 * 1000
  else if pixels <=? 2073600 then 3000 * 1000
  else if pixels <=? 8294400 then 8000 * 1000
  else 20000 * 1000.

(** The three tests of [_needs_conversion].  [optimal_bitrate * 1.5] is
    an exact float for the four possible values, and Python compares an
    [int] with a [float] exactly, so [bitrate > optimal_bitrate * 1.5]
    is [2 * bitrate > 3 * optimal_bitrate]. *)
Definition wrong_video_codec (target_video_codec video_codec : string) : bool :=
  negb (String.eqb video_codec target_video_codec).

Definition wrong_audio_codec (target_audio_codec audio_codec : string) : bool :=
  negb (String.eqb audio_codec target_audio_codec || String.eqb audio_codec "none").

Definition excessive_bitrate (bitrate width height : Z) : bool :=
  (0 <? bitrate) && (3 * _calculate_optimal_bitrate width height <? 2 * bitrate).

(** [", ".join(reasons)] *)
Fixpoint join_reasons (reasons : list string) : string :=
  match reasons with
  | [] => ""
  | [r] => r
  | r :: rest => r +:+ ", " +:+ join_reasons rest
  end.

Definition _needs_conversion (target_video_codec target_audio_codec : string)
    (video_codec audio_codec container : string) (bitrate width height : Z)
    : bool * string :=
  let reasons :=
    (if wrong_video_codec target_video_codec video_codec
     then ["video codec: " +:+ video_codec +:+ " -> " +:+ target_video_codec] else [])
    ++ (if wrong_audio_codec target_audio_codec audio_codec
        then ["audio codec: " +:+ audio_codec +:+ " -> " +:+ target_audio_codec] else [])
    ++ (if excessive_bitrate bitrate width height
        then ["excessive bitrate: " +:+ pretty (bitrate / 1000) +:+ "k -> "
              +:+ pretty (_calculate_optimal_bitrate width height / 1000) +:+ "k"]
        else []) in
  match reasons with
  | [] => (false, "already optimal")
  | _ => (true, join_reasons reasons)
  end.

End CodecDetector.

(** * Properties

    Auxiliary notions, the sample data of the specification's scenarios,
    then the lemmas and the theorems. *)

Import ConversionOrchestrator.

(** [x] comes no later than [y] in a size-descending schedule. *)
Definition size_ge (x y : string * VideoAnalysis) : Prop :=
  file_size (snd y) <= file_size (snd x).

(** A pool that is shutting down and has started no job since [p]. *)
Definition frozen (p q : WorkerPool.t) : Prop :=
  WorkerPool.shutdown_event q = true
  /\ WorkerPool.started_log q = WorkerPool.started_log p
  /\ forall i w, WorkerPool.status_of i q = Some (WorkerPool.Running w) ->
                 WorkerPool.status_of i p = Some (WorkerPool.Running w).

(** What filtering and a dry run leave alone: the state store, the
    conversion records, the ledger and the pool. *)
Definition untouched (w w' : World) : Prop :=
  state_manager w' = state_manager w
  /\ ConversionDatabase.conversions (database w') = ConversionDatabase.conversions (database w)
  /\ ConversionDatabase.statistics (database w') = ConversionDatabase.statistics (database w)
  /\ worker_pool w' = worker_pool w.

Definition preserves {A} (m : M A) : Prop := forall w, untouched w (snd (m w)).

(** No state, no record, no ledger entry and no job has been added. *)
Definition no_new_work (w w' : World) : Prop :=
  state_manager w' = state_manager w
  /\ ConversionDatabase.conversions (database w') = ConversionDatabase.conversions (database w)
  /\ ConversionDatabase.statistics (database w') = ConversionDatabase.statistics (database w)
  /\ map WorkerPool.t_video_path (WorkerPool.tasks (worker_pool w'))
     = map WorkerPool.t_video_path (WorkerPool.tasks (worker_pool w))
  /\ WorkerPool.started_log (worker_pool w') = WorkerPool.started_log (worker_pool w).

(** Computations that leave the pool alone. *)
Definition keeps_pool {A} (m : M A) : Prop :=
  forall w, worker_pool (snd (m w)) = worker_pool w.

Definition total_file_size (l : list (string * VideoAnalysis)) : Z :=
  fold_right (fun va acc => file_size (snd va) + acc) 0 l.

(** The dict entry an analyzer answer leaves: the analysis, or [None]. *)
Definition entry (env : Env) (v : string) : option VideoAnalysis :=
  match analyze_video env v with
  | inl a => Some a
  | inr _ => None
  end.

(** [results] holds exactly the entries of the files in [seen]. *)
Definition covers (env : Env) (results : gmap string (option VideoAnalysis))
    (seen : list string) : Prop :=
  forall v, results !! v = if decide (v ∈ seen) then Some (entry env v) else None.





(** ** Sample data *)

Definition MB : Z := 1048576.

Definition sample_analysis (p : string) (size : Z) (needs : bool) : VideoAnalysis :=
  mkAnalysis p "h264" "aac" "matroska" "1920x1080" 60%Q size needs "video codec is h264".

(** An environment given by a table: path, analyzer answer, encoder
    answer.  The listed paths are video files; any other path is a
    directory without video files. *)
Definition env_of (files : list (string * (VideoAnalysis + string) * (EncoderOutcome * Q))) : Env :=
  {| is_file := fun p => existsb (fun x => String.eqb (fst (fst x)) p) files;
     is_dir := fun p => negb (existsb (fun x => String.eqb (fst (fst x)) p) files);
     is_video_file := fun _ => true;
     scan_directory := fun _ => [];
     analyze_video := fun p =>
       match List.find (fun x => String.eqb (fst (fst x)) p) files with
       | Some x => snd (fst x)
       | None => inr "ffprobe failed"
       end;
     encode := fun p =>
       match List.find (fun x => String.eqb (fst (fst x)) p) files with
       | Some x => snd x
       | None => (Raised (ConversionError "FFmpeg error"), 0%Q)
       end;
     clock := 7 |}.

(** A first process on an empty database, without a state file. *)
Definition fresh_world (n : nat) : World :=
  mkWorld (ConversionDatabase._initialize_database 0) (StateManager.init None 0)
    (WorkerPool.init false None n) [].

(** A later process: the database and the state file persist; the
    manager, the pool and the log are new. *)
Definition restart (n : nat) (w : World) : World :=
  mkWorld (database w)
    (StateManager.init (StateManager.state_file (state_manager w)) 9)
    (WorkerPool.init false None n) [].

Definition ok_result (p : string) (size : Z) : EncoderOutcome * Q :=
  (Returned (Some (mkConvResult p size 30%Q true)), 30%Q).

Definition live : Flags := mkFlags false false.

Definition dry : Flags := mkFlags true false.

Definition fileA : string := "/videos/a.mkv".
Definition fileB : string := "/videos/b.mkv".
Definition fileC : string := "/videos/c.mkv".

(** Scenario A: three files of 500MB, 100MB and 10MB, all to convert. *)
Definition envA : Env :=
  env_of [ (fileA, inl (sample_analysis fileA (500 * MB) true), ok_result fileA (200 * MB));
           (fileB, inl (sample_analysis fileB (100 * MB) true), ok_result fileB (40 * MB));
           (fileC, inl (sample_analysis fileC (10 * MB) true), ok_result fileC (4 * MB)) ].

(** An execution of a pool of one worker on Scenario A.  The two waiting
    tasks poll in turn; the encoder of the first job ends between the
    poll of the second task and the poll of the third. *)
Definition scenarioA_trace : list WorkerPool.Event :=
  [ WorkerPool.EvSubmit fileA (sample_analysis fileA (500 * MB) true);
    WorkerPool.EvSubmit fileB (sample_analysis fileB (100 * MB) true);
    WorkerPool.EvSubmit fileC (sample_analysis fileC (10 * MB) true);
    WorkerPool.EvPoll 0; WorkerPool.EvPoll 1; WorkerPool.EvPoll 2;
    WorkerPool.EvPoll 1;
    WorkerPool.EvEncoderDone 0 (fst (ok_result fileA (200 * MB))) 30%Q 8;
    WorkerPool.EvPoll 2; WorkerPool.EvPoll 1;
    WorkerPool.EvEncoderDone 2 (fst (ok_result fileC (4 * MB))) 30%Q 9;
    WorkerPool.EvPoll 1;
    WorkerPool.EvEncoderDone 1 (fst (ok_result fileB (40 * MB))) 30%Q 10 ].

Definition analysisA : VideoAnalysis := sample_analysis fileA (100 * MB) true.

Definition analysisB : VideoAnalysis := sample_analysis fileB (100 * MB) true.

(** Scenario C: the encoder fails on the one job of the batch. *)
Definition envC : Env :=
  env_of [ (fileA, inl analysisA, (Raised (ConversionError "FFmpeg error (code 1)"), 5%Q)) ].

(** One file whose conversion succeeds. *)
Definition resultA : ConvResult := mkConvResult "/videos/a_temp.mp4" (40 * MB) 30%Q true.

Definition envOK : Env :=
  env_of [ (fileA, inl analysisA, (Returned (Some resultA), 30%Q)) ].

(** One file whose output is not smaller than the input. *)
Definition ffmpeg_larger : VideoEncoder.FfmpegRun :=
  VideoEncoder.mkFfmpegRun None None 0 None true None (120 * MB) None None None 12%Q.

Definition envSkip : Env :=
  env_of [ (fileA, inl analysisA,
            (VideoEncoder.convert_video true "/videos/a_temp.mp4" analysisA ffmpeg_larger,
             12%Q)) ].

(** Scenario B: two analysable files. *)
Definition envB : Env :=
  env_of [ (fileA, inl analysisA, ok_result fileA (40 * MB));
           (fileB, inl analysisB, ok_result fileB (40 * MB)) ].

Definition task_error : Exn := TypeError "'_asyncio.Task' object is not subscriptable".

(** The world in which the result loop of a live run over [fileA] starts:
    after the batch is chosen, the state saved and the jobs submitted. *)
Definition world_before_loop (env : Env) : World :=
  snd (bind (on_state_manager
               (StateManager.save true
                  (Some (StateManager.mkStateDict None None None (Some [fileA])
                           None None None None (Some (clock env))))
                  (clock env)))
            (fun _ => on_worker_pool (gather_submits [(fileA, analysisA)]))
            (snd (batch_of live env [fileA] (fresh_world 1)))).

(** A database in which [fileA] has a record in [started] state. *)
Definition db_started : ConversionDatabase.Database :=
  snd (ConversionDatabase.mark_started ConversionDatabase.no_fault fileA (100 * MB) 1
         (snd (ConversionDatabase.store_analysis ConversionDatabase.no_fault fileA analysisA
                 (ConversionDatabase._initialize_database 0)))).

Definition row_completed : ConversionDatabase.ConversionRow :=
  ConversionDatabase.mkConversionRow 1 1 fileA ConversionDatabase.completed (100 * MB)
    (Some (40 * MB)) (Some (ConversionDatabase.compression_ratio (100 * MB) (40 * MB)))
    (Some (60 * MB)) (Some 30%Q) None (Some 1) (Some 2).

(** A database in which [fileA] has a record in [completed] state. *)
Definition db_completed : ConversionDatabase.Database :=
  snd (ConversionDatabase.mark_completed ConversionDatabase.no_fault fileA (100 * MB) (40 * MB)
         30%Q 2 db_started).

(** A process that finds the completed record of [fileA]. *)
Definition world_completed : World :=
  mkWorld db_completed (StateManager.init None 0) (WorkerPool.init false None 1) [].

(** A pool of one worker with [fileA] in flight and [fileB] waiting. *)
Definition pool_busy : WorkerPool.t :=
  WorkerPool.run_events
    [ WorkerPool.EvSubmit fileA (sample_analysis fileA (500 * MB) true);
      WorkerPool.EvSubmit fileB (sample_analysis fileB (100 * MB) true);
      WorkerPool.EvPoll 0; WorkerPool.EvPoll 1 ]
    (WorkerPool.init false None 1).

Definition worker_busy : Worker.WorkerMetrics :=
  Worker.process_begin fileA (Worker.init false None 1 0).

(** ** Notions for the further properties *)

(** What [get_analysis] rebuilds from the row stored for [p] with [a]. *)
Definition stored_form (p : string) (a : VideoAnalysis) : VideoAnalysis :=
  mkAnalysis p (video_codec a) (audio_codec a) (container a) (resolution a)
    (duration a) (file_size a) (needs_conversion a) "".

(** The analysis of [v] that the [videos] table answers with. *)
Definition cached (v : string) (a : VideoAnalysis) (db : ConversionDatabase.Database) : Prop :=
  fst (ConversionDatabase.get_analysis ConversionDatabase.no_fault v db)
  = inl (Some (stored_form v a)).

(** The mutating methods of the result store. *)
Inductive DbOp : Type :=
| OpStoreAnalysis (p : string) (a : VideoAnalysis)
| OpMarkStarted (p : string) (size now : Z)
| OpMarkCompleted (p : string) (original converted : Z) (pt : Q) (now : Z)
| OpMarkFailed (p : string) (msg : string) (now : Z)
| OpMarkSkipped (p : string) (msg : string) (now : Z)
| OpClearStatistics (now : Z).

Definition is_reset (op : DbOp) : bool :=
  match op with
  | OpClearStatistics _ => true
  | _ => false
  end.

Definition error_of {A} (r : A + Exn) : option Exn :=
  match r with
  | inl _ => None
  | inr e => Some e
  end.

(** A method's exception, if any, and the database it leaves. *)
Definition run_op (fault : ConversionDatabase.Faults) (op : DbOp)
    (db : ConversionDatabase.Database)
    : option Exn * ConversionDatabase.Database :=
  match op with
  | OpStoreAnalysis p a =>
      let r := ConversionDatabase.store_analysis fault p a db in (error_of (fst r), snd r)
  | OpMarkStarted p size now =>
      let r := ConversionDatabase.mark_started fault p size now db in (error_of (fst r), snd r)
  | OpMarkCompleted p o c pt now =>
      let r := ConversionDatabase.mark_completed fault p o c pt now db in
      (error_of (fst r), snd r)
  | OpMarkFailed p msg now =>
      let r := ConversionDatabase.mark_failed fault p msg now db in (error_of (fst r), snd r)
  | OpMarkSkipped p msg now =>
      let r := ConversionDatabase.mark_skipped fault p msg now db in (error_of (fst r), snd r)
  | OpClearStatistics now =>
      let r := ConversionDatabase.clear_statistics fault now db in (error_of (fst r), snd r)
  end.

(** The integers that a method binds, and the sums that it stores in
    the ledger, are within SQLite's 64-bit range. *)
Definition op_in_range (op : DbOp) (db : ConversionDatabase.Database) : Prop :=
  let s := ConversionDatabase.statistics db in
  match op with
  | OpStoreAnalysis _ a => ConversionDatabase.int64 (file_size a)
  | OpMarkStarted _ size _ => ConversionDatabase.int64 size
  | OpMarkCompleted _ o c _ _ =>
      ConversionDatabase.int64 o /\ ConversionDatabase.int64 c
      /\ ConversionDatabase.int64 (o - c)
      /\ ConversionDatabase.int64 (ConversionDatabase.successful_conversions s + 1)
      /\ ConversionDatabase.int64 (ConversionDatabase.total_original_size s + o)
      /\ ConversionDatabase.int64 (ConversionDatabase.total_converted_size s + c)
      /\ ConversionDatabase.int64 (ConversionDatabase.total_space_saved s + (o - c))
  | OpMarkFailed _ _ _ =>
      ConversionDatabase.int64 (ConversionDatabase.failed_conversions s + 1)
  | OpMarkSkipped _ _ _ =>
      ConversionDatabase.int64 (ConversionDatabase.skipped_conversions s + 1)
  | OpClearStatistics _ => True
  end.

(** One of [connect], [rollback] and [close] raises. *)
Definition connection_fails (fault : ConversionDatabase.Faults) : Prop :=
  ConversionDatabase.connect_fails fault = true
  \/ ConversionDatabase.rollback_fails fault = true
  \/ ConversionDatabase.close_fails fault = true.

(** No record of [p] is in [started] state. *)
Definition no_started_record (p : string) (db : ConversionDatabase.Database) : Prop :=
  Forall (fun r => ConversionDatabase.is_started_for p r = false)
    (ConversionDatabase.conversions db).

Ltac unfold_db :=
  unfold ConversionDatabase.store_analysis, ConversionDatabase.mark_started,
    ConversionDatabase.mark_completed, ConversionDatabase.mark_failed,
    ConversionDatabase.mark_skipped, ConversionDatabase.clear_statistics,
    ConversionDatabase.get_analysis, ConversionDatabase.get_statistics,
    ConversionDatabase._get_connection, ConversionDatabase.handle_sqlite_error,
    ConversionDatabase.tx_bind,
    ConversionDatabase.tx_ret, ConversionDatabase.tx_raise,
    ConversionDatabase.execute, ConversionDatabase.commit,
    ConversionDatabase.sql_select_video, ConversionDatabase.no_fault.

(** Case analysis on the sqlite calls that fail. *)
Ltac split_faults fault :=
  repeat match goal with
    | |- context [if ConversionDatabase.connect_fails fault then _ else _] =>
        destruct (ConversionDatabase.connect_fails fault); simpl
    | |- context [if ConversionDatabase.call_fails fault ?k then _ else _] =>
        destruct (ConversionDatabase.call_fails fault k); simpl
    | |- context [if ConversionDatabase.close_fails fault then _ else _] =>
        destruct (ConversionDatabase.close_fails fault); simpl
    | |- context [if ConversionDatabase.rollback_fails fault then _ else _] =>
        destruct (ConversionDatabase.rollback_fails fault); simpl
    | |- context [List.find ?f ?l] => destruct (List.find f l); simpl
    end.

(** The state dict that [_execute_conversions] saves for a batch, as
    [save] leaves it: ['pending'], ['timestamp'] and ['updated_at']. *)
Definition saved_batch_state (now : Z) (paths : list string) : StateManager.StateDict :=
  StateManager.mkStateDict None None (Some now) (Some paths) None None None None (Some now).

(** Every key that the [mark_*] methods subscript is in the dict. *)
Definition has_all_keys (s : StateManager.StateDict) : Prop :=
  is_Some (StateManager.pending s) /\ is_Some (StateManager.completed s)
  /\ is_Some (StateManager.failed s) /\ is_Some (StateManager.skipped s)
  /\ is_Some (StateManager.job_metadata s).

(** The three [mark_*] methods of the state store. *)
Inductive Mark : Type :=
| MarkCompleted
| MarkFailed (error : string)
| MarkSkipped (reason : string).

Definition apply_mark (write_ok : bool) (mk : Mark) (file_str : string) (now : Z)
    (sm : StateManager.t) : (unit + Exn) * StateManager.t :=
  match mk with
  | MarkCompleted => StateManager.mark_completed write_ok file_str now sm
  | MarkFailed error => StateManager.mark_failed write_ok file_str error now sm
  | MarkSkipped reason => StateManager.mark_skipped write_ok file_str reason now sm
  end.

(** Task [i] is suspended in the encoder on worker [w]. *)
Definition runs_on (p : WorkerPool.t) (i w : nat) : Prop :=
  WorkerPool.status_of i p = Some (WorkerPool.Running w).

Definition is_running (tk : WorkerPool.Task) : bool :=
  match WorkerPool.t_status tk with
  | WorkerPool.Running _ => true
  | _ => false
  end.

(** The number of tasks inside [Worker.process]. *)
Definition running_tasks (p : WorkerPool.t) : nat :=
  length (List.filter is_running (WorkerPool.tasks p)).

Definition busy_workers (p : WorkerPool.t) : nat :=
  length (List.filter Worker.is_busy (WorkerPool.workers p)).

(** The invariant of the pool: each running task holds a busy worker of
    its own, and there are as many running tasks as busy workers. *)
Definition pool_inv (p : WorkerPool.t) : Prop :=
  length (WorkerPool.workers p) = WorkerPool.max_workers p
  /\ (forall i w, runs_on p i w ->
        exists m, WorkerPool.workers p !! w = Some m /\ Worker.is_busy m = true)
  /\ (forall i j w, runs_on p i w -> runs_on p j w -> i = j)
  /\ running_tasks p = busy_workers p.

(** [psutil.cpu_count(logical=False) or 1] *)
Definition physical_cores (cpu_count : option nat) : nat :=
  match cpu_count with
  | Some (S n) => S n
  | _ => 1%nat
  end.

(** What one entry of [paths] contributes to the scan. *)
Definition scan_one (env : Env) (path : string) : list string :=
  if is_file env path then (if is_video_file env path then [path] else [])
  else if is_dir env path then scan_directory env path
  else [].

(** The entries of [paths] that are neither a file nor a directory. *)
Definition invalid_path (env : Env) (path : string) : bool :=
  negb (is_file env path) && negb (is_dir env path).

(** A state store with all its keys and three entries pending, [fileA]
    twice. *)
Definition sm_pending : StateManager.t :=
  StateManager.mkStateManager None
    (StateManager.with_pending [fileB; fileA; fileA] (StateManager._default_state 0)).

(** The key whose subscript fails first on a dict that has ['pending']
    only. *)
Definition missing_key (mk : Mark) : string :=
  match mk with
  | MarkCompleted => "completed"
  | MarkFailed _ => "failed"
  | MarkSkipped _ => "skipped"
  end.

(** A state store with one state dict on disk and in memory. *)
Definition batch_state_manager (now : Z) (paths : list string) : StateManager.t :=
  StateManager.mkStateManager (Some (saved_batch_state now paths)) (saved_batch_state now paths).

(** ** The size-descending sort *)

Lemma insert_by_size_perm x l : Permutation (x :: l) (insert_by_size x l).
Proof.
  induction l as [|y l IH]; simpl; [reflexivity|].
  destruct (file_size (snd y) <=? file_size (snd x)); [reflexivity|].
  rewrite perm_swap. by constructor.
Qed.

Lemma sort_by_size_desc_perm l : Permutation l (sort_by_size_desc l).
Proof.
  induction l as [|x l IH]; simpl; [reflexivity|].
  rewrite <- insert_by_size_perm. by constructor.
Qed.

Lemma insert_by_size_hd a x l :
  size_ge a x -> HdRel size_ge a l -> HdRel size_ge a (insert_by_size x l).
Proof.
  intros Hax Hal. destruct l as [|y l]; simpl; [by constructor|].
  destruct (file_size (snd y) <=? file_size (snd x)); constructor; [done|].
  by inversion Hal.
Qed.

Lemma insert_by_size_sorted x l :
  Sorted size_ge l -> Sorted size_ge (insert_by_size x l).
Proof.
  induction 1 as [|y l Hs IH Hhd]; simpl; [repeat constructor|].
  destruct (file_size (snd y) <=? file_size (snd x)) eqn:E.
  - constructor; [by constructor|]. constructor. unfold size_ge. lia.
  - constructor; [done|]. apply insert_by_size_hd; [|done]. unfold size_ge. lia.
Qed.

Lemma sort_by_size_desc_sorted l : StronglySorted size_ge (sort_by_size_desc l).
Proof.
  apply Sorted_StronglySorted.
  - intros x y z. unfold size_ge. lia.
  - induction l as [|x l IH]; simpl; [constructor|]. by apply insert_by_size_sorted.
Qed.

Lemma select_In force db results video_files v a :
  In (v, a) (fst (select force db results video_files)) <->
  In v video_files /\ dict_get results v = Some a /\ needs_conversion a = true
  /\ (force = true \/ ConversionDatabase.is_converted v db = false).
Proof.
  induction video_files as [|x rest IH]; simpl.
  - tauto.
  - destruct (select force db results rest) as [kept logged] eqn:Hsel; simpl in IH.
    destruct (dict_get results x) as [ax|] eqn:Hget.
    + destruct (negb force && ConversionDatabase.is_converted x db) eqn:Hconv.
      * simpl. rewrite IH. apply andb_true_iff in Hconv as [Hf Hc].
        apply negb_true_iff in Hf. split.
        -- tauto.
        -- intros [[->|Hin] (Hg & Hn & Hfc)]; [|tauto].
           destruct Hfc; congruence.
      * destruct (needs_conversion ax) eqn:Hneed; simpl.
        -- rewrite IH. split.
           ++ intros [Heq|H]; [|tauto]. inversion Heq; subst.
              split; [by left|]. split; [done|]. split; [done|].
              apply andb_false_iff in Hconv as [Hf|Hc]; [left|by right].
              by apply negb_false_iff in Hf.
           ++ intros [[->|Hin] (Hg & Hn & Hfc)]; [|tauto].
              left. congruence.
        -- rewrite IH. split; [tauto|].
           intros [[->|Hin] (Hg & Hn & Hfc)]; [|tauto]. congruence.
    + simpl. rewrite IH. split; [tauto|].
      intros [[->|Hin] (Hg & Hn & Hfc)]; [|tauto]. congruence.
Qed.

Lemma filter_conversions_In force video_files results w v a :
  In (v, a) (fst (_filter_conversions force video_files results w)) <->
  In v video_files /\ dict_get results v = Some a /\ needs_conversion a = true
  /\ (force = true \/ ConversionDatabase.is_converted v (database w) = false).
Proof.
  unfold _filter_conversions.
  pose proof (select_In force (database w) results video_files v a) as Hsel.
  destruct (select force (database w) results video_files) as [kept logged]; simpl in *.
  rewrite <- Hsel. split; apply Permutation_in.
  - symmetry. apply sort_by_size_desc_perm.
  - apply sort_by_size_desc_perm.
Qed.

(** ** Worker metrics *)

Lemma process_begin_inv video_path m :
  Worker.metrics_inv (Worker.process_begin video_path m).
Proof. unfold Worker.metrics_inv. simpl. reflexivity. Qed.

Lemma process_end_clears out pt now m :
  Worker.is_busy (snd (Worker.process_end out pt now m)) = false
  /\ Worker.current_task (snd (Worker.process_end out pt now m)) = None.
Proof. destruct out as [r|e]; simpl; [done|]. by destruct (is_Exception e). Qed.

Lemma process_end_inv out pt now m :
  Worker.metrics_inv (snd (Worker.process_end out pt now m)).
Proof.
  unfold Worker.metrics_inv. destruct (process_end_clears out pt now m) as [-> ->]. done.
Qed.

Lemma init_inv ae cc n id : Worker.metrics_inv (Worker.init ae cc n id).
Proof. reflexivity. Qed.

Lemma step_workers_inv p e :
  Forall Worker.metrics_inv (WorkerPool.workers p) ->
  Forall Worker.metrics_inv (WorkerPool.workers (WorkerPool.step p e)).
Proof.
  intros H. destruct e as [v a|i|i out pt now|]; simpl; try done.
  - unfold WorkerPool.poll.
    destruct (WorkerPool.tasks p !! i) as [tk|]; [|done].
    destruct (WorkerPool.t_status tk); try done.
    destruct (WorkerPool._get_available_worker p); try done.
    destruct (WorkerPool.shutdown_event p); [done|].
    destruct (WorkerPool.workers p !! w) as [m|]; [|done]. simpl.
    apply Forall_insert; [done|]. apply process_begin_inv.
  - unfold WorkerPool.encoder_done.
    destruct (WorkerPool.tasks p !! i) as [tk|]; [|done].
    destruct (WorkerPool.t_status tk); try done.
    destruct (WorkerPool.workers p !! w) as [m|]; [|done].
    pose proof (process_end_inv out pt now m) as Hinv.
    destruct (Worker.process_end out pt now m) as [r m']. simpl in *.
    by apply Forall_insert.
Qed.

Lemma run_events_workers_inv evs p :
  Forall Worker.metrics_inv (WorkerPool.workers p) ->
  Forall Worker.metrics_inv (WorkerPool.workers (WorkerPool.run_events evs p)).
Proof.
  revert p. induction evs as [|e evs IH]; intros p H; simpl; [done|].
  apply IH. by apply step_workers_inv.
Qed.

(** ** The pool after shutdown *)

Lemma status_of_set_status i j st l :
  WorkerPool.t_status <$> WorkerPool.set_status j st l !! i =
  if decide (j = i) then (fun _ => st) <$> l !! i else WorkerPool.t_status <$> l !! i.
Proof.
  unfold WorkerPool.set_status. rewrite list_lookup_alter.
  case_decide; [subst|done]. by destruct (l !! i).
Qed.

Lemma paths_set_status j st l :
  map WorkerPool.t_video_path (WorkerPool.set_status j st l) = map WorkerPool.t_video_path l.
Proof.
  unfold WorkerPool.set_status. revert j. induction l as [|tk l IH]; intros [|j]; simpl; try done.
  f_equal. apply IH.
Qed.

Lemma frozen_refl p : WorkerPool.shutdown_event p = true -> frozen p p.
Proof. by repeat split. Qed.

Lemma frozen_trans p q r : frozen p q -> frozen q r -> frozen p r.
Proof.
  intros (H1 & H2 & H3) (H4 & H5 & H6). split; [done|]. split; [congruence|]. eauto.
Qed.

Lemma poll_after_shutdown i p :
  WorkerPool.shutdown_event p = true ->
  WorkerPool.status_of i p = Some WorkerPool.Waiting ->
  WorkerPool.poll i p =
    WorkerPool.resolve i (match WorkerPool.workers p with
                          | [] => inr IndexError
                          | _ => inl None
                          end) p.
Proof.
  unfold WorkerPool.status_of, WorkerPool.poll, WorkerPool._get_available_worker.
  intros Hs Hst. destruct (WorkerPool.tasks p !! i) as [tk|]; [|done].
  simpl in Hst. injection Hst as ->. rewrite Hs.
  destruct (WorkerPool.workers p); done.
Qed.

Lemma step_frozen p e : WorkerPool.shutdown_event p = true -> frozen p (WorkerPool.step p e).
Proof.
  intros Hs. destruct e as [v a|i|i out pt now|]; simpl.
  - repeat split; try done. unfold WorkerPool.status_of. simpl. intros i w.
    rewrite lookup_app. destruct (WorkerPool.tasks p !! i); [done|].
    destruct (i - length (WorkerPool.tasks p))%nat as [|k]; simpl; done.
  - destruct (WorkerPool.status_of i p) as [[| |]|] eqn:Hst.
    + rewrite (poll_after_shutdown i p Hs Hst). repeat split; try done.
      unfold WorkerPool.status_of, WorkerPool.resolve. simpl. intros j w.
      rewrite status_of_set_status. case_decide; [|done].
      destruct (WorkerPool.tasks p !! j); done.
    + assert (WorkerPool.poll i p = p) as ->; [|by apply frozen_refl].
      unfold WorkerPool.status_of in Hst. unfold WorkerPool.poll.
      destruct (WorkerPool.tasks p !! i) as [tk|]; [|done]. simpl in Hst.
      injection Hst as ->. done.
    + assert (WorkerPool.poll i p = p) as ->; [|by apply frozen_refl].
      unfold WorkerPool.status_of in Hst. unfold WorkerPool.poll.
      destruct (WorkerPool.tasks p !! i) as [tk|]; [|done]. simpl in Hst.
      injection Hst as ->. done.
    + assert (WorkerPool.poll i p = p) as ->; [|by apply frozen_refl].
      unfold WorkerPool.status_of in Hst. unfold WorkerPool.poll.
      destruct (WorkerPool.tasks p !! i) as [tk|]; [done|]. done.
  - unfold WorkerPool.encoder_done.
    destruct (WorkerPool.tasks p !! i) as [tk|] eqn:Htk; [|by apply frozen_refl].
    destruct (WorkerPool.t_status tk) eqn:Hst; try by apply frozen_refl.
    destruct (WorkerPool.workers p !! w) as [m|]; [|by apply frozen_refl].
    destruct (Worker.process_end out pt now m) as [r m'].
    repeat split; try done.
    unfold WorkerPool.status_of. simpl. intros j w'.
    rewrite status_of_set_status. case_decide; [|done].
    destruct (WorkerPool.tasks p !! j); done.
  - by repeat split.
Qed.

Lemma run_events_frozen evs p :
  WorkerPool.shutdown_event p = true -> frozen p (WorkerPool.run_events evs p).
Proof.
  revert p. induction evs as [|e evs IH]; intros p Hs; simpl; [by apply frozen_refl|].
  pose proof (step_frozen p e Hs) as Hf.
  eapply frozen_trans; [exact Hf|]. apply IH. apply Hf.
Qed.

(** ** What the steps of a run leave alone *)

Lemma untouched_refl w : untouched w w.
Proof. by repeat split. Qed.

Lemma untouched_trans w1 w2 w3 : untouched w1 w2 -> untouched w2 w3 -> untouched w1 w3.
Proof. intros (?&?&?&?) (?&?&?&?). repeat split; congruence. Qed.

Lemma preserves_ret {A} (a : A) : preserves (ret a).
Proof. intros w. apply untouched_refl. Qed.

Lemma preserves_raise {A} e : preserves (@raise A e).
Proof. intros w. apply untouched_refl. Qed.

Lemma preserves_say e : preserves (say e).
Proof. intros w. by repeat split. Qed.

Lemma preserves_bind {A B} (m : M A) (k : A -> M B) :
  preserves m -> (forall a, preserves (k a)) -> preserves (bind m k).
Proof.
  intros Hm Hk w. unfold bind. specialize (Hm w).
  destruct (m w) as [[a|e] w']; simpl in *; [|done].
  eapply untouched_trans; [exact Hm|]. apply Hk.
Qed.

Lemma preserves_foldM {A B} (f : B -> A -> M B) l b :
  (forall b a, preserves (f b a)) -> preserves (foldM f l b).
Proof.
  intros Hf. revert b. induction l as [|a l IH]; intros b; simpl.
  - apply preserves_ret.
  - apply preserves_bind; [apply Hf|]. intros b'. apply IH.
Qed.

Lemma preserves_store_analysis video a :
  preserves (on_database (ConversionDatabase.store_analysis ConversionDatabase.no_fault video a)).
Proof. intros w. by repeat split. Qed.

Lemma preserves_scan env paths : preserves (_scan_paths env paths).
Proof.
  apply preserves_foldM. intros b a. unfold scan_path. destruct (is_file env a); [apply preserves_ret|].
  destruct (is_dir env a); [apply preserves_ret|].
  apply preserves_bind; [apply preserves_say|]. intros _. apply preserves_ret.
Qed.

Lemma preserves_analyze env files : preserves (_analyze_videos env files).
Proof.
  apply preserves_foldM. intros results batch. apply preserves_foldM.
  intros r [v [a|msg]]; unfold record_analysis; simpl.
  - apply preserves_bind; [apply preserves_store_analysis|]. intros _. apply preserves_ret.
  - apply preserves_bind; [apply preserves_say|]. intros _. apply preserves_ret.
Qed.

Lemma preserves_filter force files results : preserves (filter_step force files results).
Proof.
  intros w. unfold filter_step, _filter_conversions.
  destruct (select force (database w) results files). by repeat split.
Qed.

Lemma preserves_preview batch : preserves (_dry_run_preview batch).
Proof.
  apply preserves_bind.
  - apply preserves_foldM. intros t va. unfold preview_file. destruct (file_size (snd va) =? 0).
    + apply preserves_raise.
    + apply preserves_bind; [apply preserves_say|]. intros _. apply preserves_ret.
  - intros t. destruct (t =? 0); [apply preserves_raise|apply preserves_say].
Qed.

Lemma preserves_run_body_dry flags env paths :
  dry_run flags = true -> preserves (run_body flags env paths).
Proof.
  intros Hdry. unfold run_body. apply preserves_bind; [apply preserves_scan|].
  intros [|v files].
  - apply preserves_bind; [apply preserves_say|]. intros _. apply preserves_ret.
  - apply preserves_bind; [apply preserves_analyze|]. intros results.
    apply preserves_bind; [apply preserves_filter|]. intros [|c batch].
    + apply preserves_bind; [apply preserves_say|]. intros _. apply preserves_ret.
    + rewrite Hdry. apply preserves_bind; [apply preserves_preview|].
      intros _. apply preserves_ret.
Qed.

(** [shutdown] neither submits nor starts a job. *)
Lemma step_paths p e :
  (forall v a, e <> WorkerPool.EvSubmit v a) ->
  map WorkerPool.t_video_path (WorkerPool.tasks (WorkerPool.step p e))
  = map WorkerPool.t_video_path (WorkerPool.tasks p).
Proof.
  intros He. destruct e as [v a|i|i out pt now|]; simpl; try done.
  - by destruct (He v a).
  - unfold WorkerPool.poll. destruct (WorkerPool.tasks p !! i) as [tk|]; [|done].
    destruct (WorkerPool.t_status tk); try done.
    destruct (WorkerPool._get_available_worker p); try done; simpl.
    + destruct (WorkerPool.shutdown_event p); simpl; [apply paths_set_status|].
      destruct (WorkerPool.workers p !! w); simpl; apply paths_set_status.
    + apply paths_set_status.
  - unfold WorkerPool.encoder_done. destruct (WorkerPool.tasks p !! i) as [tk|]; [|done].
    destruct (WorkerPool.t_status tk); try done.
    destruct (WorkerPool.workers p !! w) as [m|]; [|done].
    destruct (Worker.process_end out pt now m). simpl. apply paths_set_status.
Qed.

Lemma await_task_is_step encode now p i :
  WorkerPool.await_task encode now p i = p
  \/ exists e, (forall v a, e <> WorkerPool.EvSubmit v a)
               /\ WorkerPool.await_task encode now p i = WorkerPool.step p e.
Proof.
  unfold WorkerPool.await_task. destruct (WorkerPool.tasks p !! i) as [tk|]; [|by left].
  destruct (WorkerPool.t_status tk).
  - right. exists (WorkerPool.EvPoll i). done.
  - destruct (encode (WorkerPool.t_video_path tk)) as [out pt].
    right. exists (WorkerPool.EvEncoderDone i out pt now). done.
  - by left.
Qed.

Lemma wait_all_frozen encode now p :
  WorkerPool.shutdown_event p = true ->
  frozen p (WorkerPool.wait_all encode now p)
  /\ map WorkerPool.t_video_path (WorkerPool.tasks (WorkerPool.wait_all encode now p))
     = map WorkerPool.t_video_path (WorkerPool.tasks p).
Proof.
  unfold WorkerPool.wait_all. generalize (seq 0 (length (WorkerPool.tasks p))).
  intros l. revert p. induction l as [|i l IH]; intros p Hs; simpl.
  - split; [by apply frozen_refl|done].
  - destruct (await_task_is_step encode now p i) as [->|(e & He & ->)]; [by apply IH|].
    pose proof (step_frozen p e Hs) as Hf.
    destruct (IH (WorkerPool.step p e) (proj1 Hf)) as [Hf' Hp].
    split; [by eapply frozen_trans|]. rewrite Hp. by apply step_paths.
Qed.

Lemma shutdown_no_new_jobs env w :
  let w' := shutdown_pool env w in
  database w' = database w /\ state_manager w' = state_manager w /\ log w' = log w
  /\ WorkerPool.started_log (worker_pool w') = WorkerPool.started_log (worker_pool w)
  /\ map WorkerPool.t_video_path (WorkerPool.tasks (worker_pool w'))
     = map WorkerPool.t_video_path (WorkerPool.tasks (worker_pool w)).
Proof.
  cbv zeta. unfold shutdown_pool, WorkerPool.shutdown. simpl.
  destruct (wait_all_frozen (encode env) (clock env) (WorkerPool.set_shutdown (worker_pool w))
              eq_refl) as [(_ & Hl & _) Hp].
  by repeat split.
Qed.

Lemma preview_positive batch : forall acc w,
  Forall (fun va => 0 < file_size (snd va)) batch ->
  exists w',
    foldM preview_file batch acc w = (inl (acc + total_file_size batch), w')
    /\ database w' = database w.
Proof.
  induction batch as [|va batch IH]; intros acc w Hpos; simpl.
  - exists w. split; [|done]. unfold ret. do 2 f_equal. lia.
  - inversion Hpos as [|? ? Hva Hrest]; subst.
    unfold bind at 1. unfold preview_file at 1.
    destruct (file_size (snd va) =? 0) eqn:E; [lia|].
    unfold bind, say, ret. simpl.
    destruct (IH (acc + file_size (snd va))
               (mkWorld (database w) (state_manager w) (worker_pool w)
                 (log w ++ [LogDryRunFile (fst va) (file_size (snd va))])) Hrest)
      as (w' & Hw' & Hd).
    exists w'. rewrite Hw'. split; [|done]. do 2 f_equal. lia.
Qed.

Lemma total_file_size_pos batch :
  batch <> [] -> Forall (fun va => 0 < file_size (snd va)) batch -> 0 < total_file_size batch.
Proof.
  intros Hne Hpos. destruct batch as [|va batch]; [done|]. simpl.
  inversion Hpos; subst. clear Hpos Hne.
  assert (0 <= total_file_size batch); [|lia].
  induction batch as [|x l IH]; simpl; [lia|]. inversion H2; subst. specialize (IH H4). lia.
Qed.

Lemma no_new_work_trans w1 w2 w3 : no_new_work w1 w2 -> no_new_work w2 w3 -> no_new_work w1 w3.
Proof. intros (?&?&?&?&?) (?&?&?&?&?). repeat split; congruence. Qed.

Lemma untouched_no_new_work w w' : untouched w w' -> no_new_work w w'.
Proof. intros (?&?&?&Hp). unfold no_new_work. rewrite Hp. done. Qed.

Lemma shutdown_pool_no_new_work env w : no_new_work w (shutdown_pool env w).
Proof.
  destruct (shutdown_no_new_jobs env w) as (Hd & Hs & _ & Hl & Hp).
  unfold no_new_work. rewrite Hd, Hs, Hl, Hp. done.
Qed.

Lemma log_no_new_work w e :
  no_new_work w (mkWorld (database w) (state_manager w) (worker_pool w) (log w ++ [e])).
Proof. done. Qed.

Lemma run_dry_no_new_work flags env paths w :
  dry_run flags = true -> no_new_work w (snd (run flags env paths w)).
Proof.
  intros Hdry. pose proof (preserves_run_body_dry flags env paths Hdry w) as Hu.
  unfold run. destruct (run_body flags env paths w) as [[b|e] w1]; simpl in Hu.
  - simpl. eapply no_new_work_trans; [by apply untouched_no_new_work|].
    apply shutdown_pool_no_new_work.
  - assert (Hc : no_new_work w (_finalize env (_cleanup env
                   (mkWorld (database w1) (state_manager w1) (worker_pool w1)
                      (log w1 ++ [LogFatal e]))))).
    { eapply no_new_work_trans; [by apply untouched_no_new_work|].
      eapply no_new_work_trans; [apply (log_no_new_work w1 (LogFatal e))|].
      eapply no_new_work_trans; apply shutdown_pool_no_new_work. }
    destruct e; simpl; try exact Hc.
    eapply no_new_work_trans; [by apply untouched_no_new_work|].
    apply shutdown_pool_no_new_work.
Qed.

(** ** The analysis dict *)

Lemma record_analysis_entry env results v w :
  exists w', record_analysis results (v, analyze_video env v) w
             = (inl (<[v := entry env v]> results), w').
Proof.
  unfold record_analysis, entry. simpl. destruct (analyze_video env v) as [a|msg].
  - unfold bind, on_database, ret. simpl. eauto.
  - unfold bind, say, ret. simpl. eauto.
Qed.

Lemma analyze_batch_covers env batch : forall results seen w,
  covers env results seen ->
  exists results' w',
    foldM record_analysis (zip batch (map (analyze_video env) batch)) results w
      = (inl results', w')
    /\ covers env results' (seen ++ batch).
Proof.
  induction batch as [|v batch IH]; intros results seen w Hc; simpl.
  - exists results, w. split; [done|]. by rewrite app_nil_r.
  - destruct (record_analysis_entry env results v w) as [w1 Hw1].
    unfold bind at 1. rewrite Hw1.
    destruct (IH (<[v := entry env v]> results) (seen ++ [v]) w1) as (r' & w' & Hf & Hc').
    + intros k. rewrite lookup_insert. case_decide as Hk.
      * subst k. rewrite decide_True; [done|].
        apply elem_of_app. right. by apply list_elem_of_singleton.
      * rewrite Hc. destruct (decide (k ∈ seen)) as [Hin|Hin].
        -- rewrite decide_True; [done|]. apply elem_of_app. by left.
        -- rewrite decide_False; [done|].
           intros [?|?%list_elem_of_singleton]%elem_of_app; [done|congruence].
    + exists r', w'. split; [done|]. by rewrite <- app_assoc in Hc'.
Qed.

Lemma analyze_batches_covers env bs : forall results seen w,
  covers env results seen ->
  exists results' w',
    foldM (analyze_batch env) bs results w = (inl results', w')
    /\ covers env results' (seen ++ concat bs).
Proof.
  induction bs as [|b bs IH]; intros results seen w Hc; simpl.
  - exists results, w. split; [done|]. by rewrite app_nil_r.
  - destruct (analyze_batch_covers env b results seen w Hc) as (r1 & w1 & Hb & Hc1).
    unfold bind at 1. unfold analyze_batch at 1. rewrite Hb.
    destruct (IH r1 (seen ++ b) w1 Hc1) as (r' & w' & Hf & Hc').
    exists r', w'. split; [done|]. by rewrite <- app_assoc in Hc'.
Qed.

Lemma elem_of_concat (v : string) (ls : list (list string)) :
  v ∈ concat ls <-> exists b, v ∈ b /\ b ∈ ls.
Proof.
  induction ls as [|b ls IH]; simpl.
  - split; [by intros ?%elem_of_nil|]. by intros (b & _ & ?%elem_of_nil).
  - rewrite elem_of_app, IH. split.
    + intros [Hv|(b' & Hv & Hb)]; [exists b|exists b']; split; try done.
      * by left.
      * by right.
    + intros (b' & Hv & Hb). apply elem_of_cons in Hb as [->|Hb]; [by left|].
      right. eauto.
Qed.

Lemma elem_of_batches (v : string) (l : list string) : v ∈ concat (batches l) <-> v ∈ l.
Proof.
  unfold batches. rewrite elem_of_concat. split.
  - intros (b & Hv & Hb). apply list_elem_of_In, in_map_iff in Hb as (k & <- & _).
    by apply subseteq_take, subseteq_drop in Hv.
  - intros Hv. apply list_elem_of_lookup in Hv as [i Hi].
    exists (take batch_size (drop (i / batch_size * batch_size) l)). split.
    + apply list_elem_of_lookup. exists (i mod batch_size)%nat.
      rewrite lookup_take_lt; [|apply Nat.mod_upper_bound; done].
      rewrite lookup_drop. rewrite <- Hi. f_equal.
      pose proof (Nat.div_mod_eq i batch_size). lia.
    + apply list_elem_of_In, in_map_iff. exists (i / batch_size)%nat. split; [done|].
      apply in_seq. split; [lia|]. rewrite Nat.add_0_l.
      apply lookup_lt_Some in Hi.
      apply Nat.Div0.div_lt_upper_bound.
      pose proof (Nat.div_mod_eq (length l + (batch_size - 1)) batch_size) as Hd.
      assert (batch_size <> 0%nat) as Hnz by done.
      pose proof (Nat.mod_upper_bound (length l + (batch_size - 1)) batch_size Hnz).
      unfold batch_size in *. lia.
Qed.

Lemma analyze_videos_results env files w :
  exists results w',
    _analyze_videos env files w = (inl results, w')
    /\ forall v, dict_get results v = if decide (v ∈ files) then entry env v else None.
Proof.
  destruct (analyze_batches_covers env (batches files) ∅ [] w) as (r & w' & Hf & Hc).
  - intros v. rewrite lookup_empty. rewrite decide_False; [done|]. apply not_elem_of_nil.
  - exists r, w'. split; [done|]. intros v. unfold dict_get. rewrite Hc. simpl.
    destruct (decide (v ∈ concat (batches files))) as [Hin|Hin];
      rewrite elem_of_batches in Hin.
    + by rewrite decide_True.
    + by rewrite decide_False.
Qed.

Lemma is_converted_conversions v db db' :
  ConversionDatabase.conversions db' = ConversionDatabase.conversions db ->
  ConversionDatabase.is_converted v db' = ConversionDatabase.is_converted v db.
Proof. unfold ConversionDatabase.is_converted. by intros ->. Qed.

Lemma batch_of_policy flags env paths w files ws batch w1 v a :
  _scan_paths env paths w = (inl files, ws) ->
  batch_of flags env paths w = (inl batch, w1) ->
  (In (v, a) batch <->
     In v files /\ analyze_video env v = inl a /\ needs_conversion a = true
     /\ (force flags = true \/ ConversionDatabase.is_converted v (database w) = false))
  /\ untouched w w1.
Proof.
  intros Hscan Hbatch.
  pose proof (preserves_scan env paths w) as Hu1. rewrite Hscan in Hu1. simpl in Hu1.
  unfold batch_of, bind in Hbatch. rewrite Hscan in Hbatch.
  destruct (analyze_videos_results env files ws) as (results & wa & Han & Hres).
  pose proof (preserves_analyze env files ws) as Hu2. rewrite Han in Hu2. simpl in Hu2.
  rewrite Han in Hbatch.
  pose proof (preserves_filter (force flags) files results wa) as Hu3.
  pose proof (filter_conversions_In (force flags) files results wa v a) as Hpol.
  unfold filter_step in Hbatch, Hu3.
  destruct (_filter_conversions (force flags) files results wa) as [c wf].
  injection Hbatch as -> ->. simpl in *.
  assert (Hu : untouched w wa) by (by eapply untouched_trans).
  split; [|by eapply untouched_trans].
  rewrite Hpol, Hres.
  rewrite (is_converted_conversions v (database w) (database wa)) by apply Hu.
  split.
  - intros (Hin & Hget & Hrest). split; [done|]. split; [|done].
    rewrite decide_True in Hget by (by apply list_elem_of_In).
    unfold entry in Hget. destruct (analyze_video env v); congruence.
  - intros (Hin & Han' & Hrest). split; [done|]. split; [|done].
    rewrite decide_True by (by apply list_elem_of_In).
    unfold entry. by rewrite Han'.
Qed.

(** ** Submission *)

Lemma submit_all_paths conversions : forall acc,
  map WorkerPool.t_video_path
    (WorkerPool.tasks (snd (fold_left
       (fun (acc : list nat * WorkerPool.t) (va : string * VideoAnalysis) =>
          let (h, p') := WorkerPool.submit (fst va) (snd va) (snd acc) in
          (fst acc ++ [h], p'))
       conversions acc)))
  = map WorkerPool.t_video_path (WorkerPool.tasks (snd acc)) ++ map fst conversions.
Proof.
  induction conversions as [|va conversions IH]; intros acc; simpl.
  - by rewrite app_nil_r.
  - rewrite IH. simpl. rewrite map_app. simpl. by rewrite <- app_assoc.
Qed.

Lemma poll_all_paths handles : forall q,
  map WorkerPool.t_video_path
    (WorkerPool.tasks (fold_left (fun q h => WorkerPool.poll h q) handles q))
  = map WorkerPool.t_video_path (WorkerPool.tasks q).
Proof.
  induction handles as [|h handles IH]; intros q; simpl; [done|].
  rewrite IH. apply (step_paths q (WorkerPool.EvPoll h)). done.
Qed.

Lemma gather_submits_paths conversions p :
  map WorkerPool.t_video_path (WorkerPool.tasks (snd (gather_submits conversions p)))
  = map WorkerPool.t_video_path (WorkerPool.tasks p) ++ map fst conversions.
Proof.
  unfold gather_submits.
  pose proof (submit_all_paths conversions ([], p)) as H.
  destruct (fold_left _ conversions ([], p)) as [handles p1]. simpl in *.
  by rewrite poll_all_paths.
Qed.

Lemma keeps_pool_bind {A B} (m : M A) (k : A -> M B) :
  keeps_pool m -> (forall a, keeps_pool (k a)) -> keeps_pool (bind m k).
Proof.
  intros Hm Hk w. unfold bind. specialize (Hm w).
  destruct (m w) as [[a|e] w']; simpl in *; [|done]. by rewrite Hk.
Qed.

Lemma keeps_pool_foldM {A B} (f : B -> A -> M B) l b :
  (forall b a, keeps_pool (f b a)) -> keeps_pool (foldM f l b).
Proof.
  intros Hf. revert b. induction l as [|a l IH]; intros b; simpl; [done|].
  apply keeps_pool_bind; [apply Hf|]. intros b'. apply IH.
Qed.

Lemma keeps_pool_on_database {A} (f : ConversionDatabase.Database -> (A + Exn) * _) :
  keeps_pool (on_database f).
Proof. intros w. unfold on_database. by destruct (f (database w)). Qed.

Lemma keeps_pool_on_state_manager {A} (f : StateManager.t -> (A + Exn) * _) :
  keeps_pool (on_state_manager f).
Proof. intros w. unfold on_state_manager. by destruct (f (state_manager w)). Qed.

Lemma keeps_pool_subscript stats key : keeps_pool (subscript stats key).
Proof. intros w. unfold subscript. by destruct (stats !! key). Qed.

Lemma keeps_pool_print_summary start_time t : keeps_pool (_print_summary start_time t).
Proof.
  destruct start_time as [s|]; simpl; [|done].
  apply keeps_pool_bind; [apply keeps_pool_on_database|]. intros stats.
  apply keeps_pool_bind; [done|]. intros _.
  apply keeps_pool_bind; [apply keeps_pool_subscript|]. intros _.
  apply keeps_pool_bind; [apply keeps_pool_subscript|]. intros _.
  apply keeps_pool_bind; [apply keeps_pool_subscript|]. done.
Qed.

Lemma keeps_pool_conclude_conversions start_time now conversions results :
  keeps_pool (conclude_conversions start_time now conversions results).
Proof.
  apply keeps_pool_bind.
  - apply keeps_pool_foldM. intros t [[v a] r]. unfold process_result. simpl.
    destruct r as [|r|e|h].
    + apply keeps_pool_bind; done.
    + apply keeps_pool_bind; [done|]. intros _.
      apply keeps_pool_bind; [apply keeps_pool_on_database|]. intros _.
      apply keeps_pool_bind; [apply keeps_pool_on_state_manager|]. done.
    + destruct (is_Exception e).
      * apply keeps_pool_bind; [done|]. intros _.
        apply keeps_pool_bind; [apply keeps_pool_on_database|]. done.
      * apply keeps_pool_bind; done.
    + apply keeps_pool_bind; done.
  - intros t. apply keeps_pool_bind; [apply keeps_pool_print_summary|]. done.
Qed.

Lemma execute_conversions_submits start_time env batch w :
  map WorkerPool.t_video_path
    (WorkerPool.tasks (worker_pool (snd (_execute_conversions start_time env batch w))))
  = map WorkerPool.t_video_path (WorkerPool.tasks (worker_pool w)) ++ map fst batch.
Proof.
  unfold _execute_conversions, bind, on_state_manager, on_worker_pool. simpl.
  destruct (gather_submits batch (worker_pool w)) as [results p] eqn:Hg.
  rewrite keeps_pool_conclude_conversions. simpl.
  pose proof (gather_submits_paths batch (worker_pool w)) as Hp. by rewrite Hg in Hp.
Qed.

Lemma shutdown_pool_paths env w :
  map WorkerPool.t_video_path (WorkerPool.tasks (worker_pool (shutdown_pool env w)))
  = map WorkerPool.t_video_path (WorkerPool.tasks (worker_pool w)).
Proof. apply shutdown_no_new_jobs. Qed.

Lemma live_run_submits_batch flags env paths w batch w1 :
  dry_run flags = false ->
  batch_of flags env paths w = (inl batch, w1) ->
  map WorkerPool.t_video_path
    (WorkerPool.tasks (worker_pool (snd (run flags env paths w))))
  = map WorkerPool.t_video_path (WorkerPool.tasks (worker_pool w)) ++ map fst batch.
Proof.
  intros Hlive Hbatch.
  assert (Hbody : map WorkerPool.t_video_path
                    (WorkerPool.tasks (worker_pool (snd (run_body flags env paths w))))
                  = map WorkerPool.t_video_path (WorkerPool.tasks (worker_pool w))
                    ++ map fst batch).
  { unfold batch_of, run_body, bind in *.
    pose proof (preserves_scan env paths w) as Hu1.
    destruct (_scan_paths env paths w) as [[files|e] ws]; [|done]. simpl in Hu1.
    pose proof (preserves_analyze env files ws) as Hu2.
    pose proof (fun r => preserves_filter (force flags) files r) as Hu3.
    destruct files as [|v files].
    - unfold _analyze_videos, batches, filter_step, _filter_conversions in Hbatch.
      simpl in Hbatch. injection Hbatch as <- _. simpl.
      rewrite app_nil_r. f_equal. f_equal. apply Hu1.
    - destruct (_analyze_videos env (v :: files) ws) as [[results|e] wa]; [|done].
      simpl in Hu2. specialize (Hu3 results wa). rewrite Hbatch in *. simpl in Hu3.
      assert (Hp : worker_pool w1 = worker_pool w).
      { destruct Hu1 as (_&_&_&E1). destruct Hu2 as (_&_&_&E2).
        destruct Hu3 as (_&_&_&E3). congruence. }
      destruct batch as [|c batch].
      + simpl. rewrite app_nil_r. by rewrite Hp.
      + rewrite Hlive. rewrite execute_conversions_submits. by rewrite Hp. }
  unfold run, _finalize, _cleanup.
  destruct (run_body flags env paths w) as [[b|e] wb]; simpl in Hbody.
  - cbn [snd]. by rewrite shutdown_pool_paths.
  - destruct e; cbn [snd]; rewrite ?shutdown_pool_paths; done.
Qed.

(** ** The result loop *)



Lemma process_skip_metrics video_path pt now m :
  Worker.process video_path (Returned None) pt now m =
  (inl None,
   Worker.mkMetrics (Worker.worker_id m) None (Worker.tasks_completed m + 1)
     (Worker.tasks_failed m) (Worker.total_processing_time m + pt)%Q
     (Worker.cpu_affinity m) false (Some now)).
Proof. reflexivity. Qed.

Lemma result_loop_skip now va w :
  foldM (process_result now) (zip [va] [PyNone]) (mkTally 0 0 0) w =
  (inl (mkTally 0 0 1),
   mkWorld (database w) (state_manager w) (worker_pool w)
     (log w ++ [LogConversionSkipped (fst va)])).
Proof. reflexivity. Qed.

(** * The claims *)

(** C1.  Filtering policy.  For a run that scanned [files] and selected
    [batch]: a file is scheduled with analysis [a] exactly when it is a
    candidate, its analysis succeeded with [a], [a] says it needs
    conversion, and force mode is set or [is_converted] is false for it.
    Selecting the batch changes neither the state store, nor the
    conversion records, nor the ledger (so no failure is counted), nor
    the pool; and a live run submits exactly the batch.  The same
    equivalence holds for [_filter_conversions] on any dict of analysis
    results. *)
Theorem scheduling_policy flags env paths w files ws batch w1 v a :
  _scan_paths env paths w = (inl files, ws) ->
  batch_of flags env paths w = (inl batch, w1) ->
  (In (v, a) batch <->
     In v files /\ analyze_video env v = inl a /\ needs_conversion a = true
     /\ (force flags = true \/ ConversionDatabase.is_converted v (database w) = false))
  /\ state_manager w1 = state_manager w
  /\ ConversionDatabase.conversions (database w1) = ConversionDatabase.conversions (database w)
  /\ ConversionDatabase.statistics (database w1) = ConversionDatabase.statistics (database w)
  /\ worker_pool w1 = worker_pool w
  /\ (dry_run flags = false ->
      map WorkerPool.t_video_path
        (WorkerPool.tasks (worker_pool (snd (run flags env paths w))))
      = map WorkerPool.t_video_path (WorkerPool.tasks (worker_pool w)) ++ map fst batch)
  /\ (forall force video_files results w0,
        In (v, a) (fst (_filter_conversions force video_files results w0)) <->
        In v video_files /\ dict_get results v = Some a /\ needs_conversion a = true
        /\ (force = true \/ ConversionDatabase.is_converted v (database w0) = false)).
Proof.
  intros Hscan Hbatch.
  destruct (batch_of_policy flags env paths w files ws batch w1 v a Hscan Hbatch)
    as (Hiff & Hsm & Hc & Hst & Hp).
  repeat (split; [assumption|]). split.
  - intros Hlive. by eapply live_run_submits_batch.
  - intros. apply filter_conversions_In.
Qed.

(** Scenario B as the witness: [fileA] has a completed record and force
    is off, so only [fileB] is scheduled. *)
Lemma scheduling_policy_witness :
  In (fileB, analysisB)
     (match fst (batch_of live envB [fileA; fileB] world_completed) with
      | inl batch => batch
      | inr _ => []
      end)
  /\ ~ In (fileA, analysisA)
       (match fst (batch_of live envB [fileA; fileB] world_completed) with
        | inl batch => batch
        | inr _ => []
        end).
Proof.
  assert (Hscan : _scan_paths envB [fileA; fileB] world_completed
                  = (inl [fileA; fileB], world_completed)) by reflexivity.
  assert (Hbatch : batch_of live envB [fileA; fileB] world_completed
                   = (inl [(fileB, analysisB)],
                      snd (batch_of live envB [fileA; fileB] world_completed)))
    by (vm_compute; reflexivity).
  rewrite Hbatch. cbn [fst]. split.
  - apply (proj1 (scheduling_policy live envB [fileA; fileB] world_completed _ _ _ _
                    fileB analysisB Hscan Hbatch)).
    split; [right; left; reflexivity|]. split; [reflexivity|]. split; [reflexivity|].
    right. reflexivity.
  - intros Hin.
    apply (proj1 (scheduling_policy live envB [fileA; fileB] world_completed _ _ _ _
                    fileA analysisA Hscan Hbatch)) in Hin.
    destruct Hin as (_ & _ & _ & [Hf|Hc]); [discriminate Hf|].
    vm_compute in Hc. discriminate Hc.
Defined.

(** C2.  Scenario C on the code: the encoder raises [ConversionError]
    for the one job of the batch.  [Worker.process] turns the failure
    into [None]; the path stays in [pending], the state has no [failed]
    entry, and the ledger's failed counter stays 0.  The run answers
    [False] because the result loop stops on the task handle it was
    given.  The same loop, fed the worker's [None], records no failure
    either: it tallies a skip with the stores unchanged, after which the
    summary raises [KeyError]. *)
Theorem failed_outcome_not_recorded :
  let r := run live envC [fileA] (fresh_world 1) in
  let sm := state_manager (snd r) in
  let loop := foldM (process_result 7) (zip [(fileA, analysisA)] [PyNone]) (mkTally 0 0 0)
                (world_before_loop envC) in
  let concluded := conclude_conversions (Some 7) 7 [(fileA, analysisA)] [PyNone]
                     (world_before_loop envC) in
  WorkerPool.status_of 0 (worker_pool (snd r)) = Some (WorkerPool.Finished (inl None))
  /\ map Worker.tasks_failed (WorkerPool.workers (worker_pool (snd r))) = [1]
  /\ StateManager.is_failed fileA sm = false
  /\ StateManager.failed (StateManager.current_state sm) = None
  /\ StateManager.get_pending sm = [fileA]
  /\ StateManager.state_file sm = Some (StateManager.current_state sm)
  /\ ConversionDatabase.failed_conversions (ConversionDatabase.statistics (database (snd r))) = 0
  /\ fst r = inl false
  /\ In (LogFatal task_error) (log (snd r))
  /\ fst loop = inl (mkTally 0 0 1)
  /\ ConversionDatabase.failed_conversions (ConversionDatabase.statistics (database (snd loop))) = 0
  /\ StateManager.is_failed fileA (state_manager (snd loop)) = false
  /\ StateManager.get_pending (state_manager (snd loop)) = [fileA]
  /\ fst concluded = inr (KeyError "total_savings")
  /\ ConversionDatabase.failed_conversions
       (ConversionDatabase.statistics (database (snd concluded))) = 0
  /\ StateManager.is_failed fileA (state_manager (snd concluded)) = false.
Proof. vm_compute. repeat split; auto. Qed.




(** C4.  Idempotency on the code: [fileA] converts successfully in a
    first run with force off.  No conversion record exists afterwards
    ([mark_started] is never called, so there is nothing for
    [mark_completed] to update), [is_converted] is false, and the
    filtering of a second run schedules the path again.  The result loop
    fed the encoder's result dict adds to the ledger, leaves the records
    empty, and stops on the [completed] key that the saved state lacks. *)
Theorem second_run_schedules_again :
  let r1 := run live envOK [fileA] (fresh_world 1) in
  let w2 := restart 1 (snd r1) in
  let loop := conclude_conversions (Some 7) 7 [(fileA, analysisA)] [PyDict resultA]
                (world_before_loop envOK) in
  WorkerPool.status_of 0 (worker_pool (snd r1)) = Some (WorkerPool.Finished (inl (Some resultA)))
  /\ ConversionDatabase.conversions (database (snd r1)) = []
  /\ ConversionDatabase.is_converted fileA (database (snd r1)) = false
  /\ fst (batch_of live envOK [fileA] w2) = inl [(fileA, analysisA)]
  /\ fst loop = inr (KeyError "completed")
  /\ ConversionDatabase.conversions (database (snd loop)) = []
  /\ ConversionDatabase.successful_conversions
        (ConversionDatabase.statistics (database (snd loop))) = 1
  /\ ConversionDatabase.is_converted fileA (database (snd loop)) = false.
Proof. vm_compute. repeat split; auto. Qed.

Lemma mark_completed_cases fault video_path original_size converted_size processing_time
    now db :
  let res := ConversionDatabase.mark_completed fault video_path original_size converted_size
               processing_time now db in
  let full := snd (ConversionDatabase.mark_completed ConversionDatabase.no_fault video_path
                     original_size converted_size processing_time now db) in
  res = (inl tt, full)
  \/ (exists msg, res = (inr (DatabaseError msg), db))
  \/ ((exists msg, res = (inr (SqliteError msg), db) \/ res = (inr (SqliteError msg), full))
      /\ (ConversionDatabase.connect_fails fault = true
          \/ ConversionDatabase.rollback_fails fault = true
          \/ ConversionDatabase.close_fails fault = true)).
Proof.
  cbv zeta.
  unfold ConversionDatabase.mark_completed, ConversionDatabase._get_connection,
    ConversionDatabase.handle_sqlite_error, ConversionDatabase.tx_bind,
    ConversionDatabase.execute, ConversionDatabase.commit, ConversionDatabase.no_fault.
  simpl.
  destruct (ConversionDatabase.connect_fails fault); [right; right; eauto 6|].
  destruct (ConversionDatabase.call_fails fault 0%nat); simpl;
    [destruct (ConversionDatabase.close_fails fault); [right; right; eauto 6|];
     destruct (ConversionDatabase.rollback_fails fault); [right; right; eauto 6|];
     right; left; eauto|].
  destruct (ConversionDatabase.call_fails fault 1%nat); simpl;
    [destruct (ConversionDatabase.close_fails fault); [right; right; eauto 6|];
     destruct (ConversionDatabase.rollback_fails fault); [right; right; eauto 6|];
     right; left; eauto|].
  destruct (ConversionDatabase.call_fails fault 2%nat); simpl;
    [destruct (ConversionDatabase.close_fails fault); [right; right; eauto 6|];
     destruct (ConversionDatabase.rollback_fails fault); [right; right; eauto 6|];
     right; left; eauto|].
  destruct (ConversionDatabase.close_fails fault); [right; right; eauto 6|].
  by left.
Qed.

Lemma Forall2_map_same {A} (P : A -> A -> Prop) (f : A -> A) (l : list A) :
  (forall x, P x (f x)) -> Forall2 P l (map f l).
Proof. intros H. induction l as [|x l IH]; simpl; by constructor. Qed.

(** C5.  [mark_completed], for sizes and ledger sums within the 64-bit
    range, under any pattern of sqlite failures ([connect], the
    statements, [commit], [rollback], [close]).  The stored database is
    either unchanged or has both writes: every record of the path that
    was in [started] state is [completed] with the converted size, the
    ratio, the space saved, the time and the completion date, every
    other record is as before, and the ledger has one successful
    conversion more and the sizes, the space saved and the time added.
    When the call returns, both writes are stored; when it raises
    [DatabaseError], none is; and it raises nothing but [DatabaseError],
    or the [sqlite3.Error] of a failed [connect], [rollback] or [close].
    A record that is [completed] afterwards was so before, or was a
    [started] record of that path. *)
Theorem mark_completed_atomic fault video_path original_size converted_size processing_time
    now db :
  let s := ConversionDatabase.statistics db in
  let space_saved := original_size - converted_size in
  ConversionDatabase.int64 original_size ->
  ConversionDatabase.int64 converted_size ->
  ConversionDatabase.int64 space_saved ->
  ConversionDatabase.int64 (ConversionDatabase.successful_conversions s + 1) ->
  ConversionDatabase.int64 (ConversionDatabase.total_original_size s + original_size) ->
  ConversionDatabase.int64 (ConversionDatabase.total_converted_size s + converted_size) ->
  ConversionDatabase.int64 (ConversionDatabase.total_space_saved s + space_saved) ->
  let res := ConversionDatabase.mark_completed fault video_path original_size converted_size
               processing_time now db in
  let s' := ConversionDatabase.statistics (snd res) in
  let both_stored :=
    Forall2
      (fun r r' =>
         (ConversionDatabase.c_file_path r = video_path ->
          ConversionDatabase.c_status r = ConversionDatabase.started ->
          r' = ConversionDatabase.mkConversionRow
                 (ConversionDatabase.c_id r) (ConversionDatabase.c_video_id r)
                 (ConversionDatabase.c_file_path r) ConversionDatabase.completed
                 (ConversionDatabase.c_original_size r)
                 (Some converted_size)
                 (Some (if 0 <? original_size
                        then (inject_Z converted_size / inject_Z original_size)%Q
                        else 1%Q))
                 (Some space_saved) (Some processing_time)
                 (ConversionDatabase.c_error_message r) (ConversionDatabase.c_started_at r)
                 (Some now))
         /\ (ConversionDatabase.c_file_path r <> video_path
             \/ ConversionDatabase.c_status r <> ConversionDatabase.started ->
             r' = r))
      (ConversionDatabase.conversions db) (ConversionDatabase.conversions (snd res))
    /\ ConversionDatabase.successful_conversions s'
       = ConversionDatabase.successful_conversions s + 1
    /\ ConversionDatabase.total_original_size s'
       = ConversionDatabase.total_original_size s + original_size
    /\ ConversionDatabase.total_converted_size s'
       = ConversionDatabase.total_converted_size s + converted_size
    /\ ConversionDatabase.total_space_saved s'
       = ConversionDatabase.total_space_saved s + space_saved
    /\ ConversionDatabase.total_processing_time s'
       = (ConversionDatabase.total_processing_time s + processing_time)%Q
    /\ ConversionDatabase.total_conversions s' = ConversionDatabase.total_conversions s
    /\ ConversionDatabase.failed_conversions s' = ConversionDatabase.failed_conversions s
    /\ ConversionDatabase.skipped_conversions s' = ConversionDatabase.skipped_conversions s
    /\ ConversionDatabase.last_updated s' = now
    /\ ConversionDatabase.videos (snd res) = ConversionDatabase.videos db in
  (snd res = db \/ both_stored)
  /\ (fst res = inl tt -> both_stored)
  /\ (forall msg, fst res = inr (DatabaseError msg) -> snd res = db)
  /\ (forall e, fst res = inr e ->
        (exists msg, e = DatabaseError msg)
        \/ ((exists msg, e = SqliteError msg)
            /\ (ConversionDatabase.connect_fails fault = true
                \/ ConversionDatabase.rollback_fails fault = true
                \/ ConversionDatabase.close_fails fault = true)))
  /\ (forall r', In r' (ConversionDatabase.conversions (snd res)) ->
        ConversionDatabase.c_status r' = ConversionDatabase.completed ->
        In r' (ConversionDatabase.conversions db)
        \/ exists r, In r (ConversionDatabase.conversions db)
             /\ ConversionDatabase.c_status r = ConversionDatabase.started
             /\ ConversionDatabase.c_file_path r = video_path
             /\ ConversionDatabase.c_id r = ConversionDatabase.c_id r').
Proof.
  cbv zeta. intros _ _ _ _ _ _ _.
  set (full := snd (ConversionDatabase.mark_completed ConversionDatabase.no_fault video_path
                      original_size converted_size processing_time now db)).
  assert (Hfull :
    Forall2
      (fun r r' =>
         (ConversionDatabase.c_file_path r = video_path ->
          ConversionDatabase.c_status r = ConversionDatabase.started ->
          r' = ConversionDatabase.mkConversionRow
                 (ConversionDatabase.c_id r) (ConversionDatabase.c_video_id r)
                 (ConversionDatabase.c_file_path r) ConversionDatabase.completed
                 (ConversionDatabase.c_original_size r)
                 (Some converted_size)
                 (Some (if 0 <? original_size
                        then (inject_Z converted_size / inject_Z original_size)%Q
                        else 1%Q))
                 (Some (original_size - converted_size)) (Some processing_time)
                 (ConversionDatabase.c_error_message r) (ConversionDatabase.c_started_at r)
                 (Some now))
         /\ (ConversionDatabase.c_file_path r <> video_path
             \/ ConversionDatabase.c_status r <> ConversionDatabase.started ->
             r' = r))
      (ConversionDatabase.conversions db) (ConversionDatabase.conversions full)
    /\ ConversionDatabase.successful_conversions (ConversionDatabase.statistics full)
       = ConversionDatabase.successful_conversions (ConversionDatabase.statistics db) + 1
    /\ ConversionDatabase.total_original_size (ConversionDatabase.statistics full)
       = ConversionDatabase.total_original_size (ConversionDatabase.statistics db)
         + original_size
    /\ ConversionDatabase.total_converted_size (ConversionDatabase.statistics full)
       = ConversionDatabase.total_converted_size (ConversionDatabase.statistics db)
         + converted_size
    /\ ConversionDatabase.total_space_saved (ConversionDatabase.statistics full)
       = ConversionDatabase.total_space_saved (ConversionDatabase.statistics db)
         + (original_size - converted_size)
    /\ ConversionDatabase.total_processing_time (ConversionDatabase.statistics full)
       = (ConversionDatabase.total_processing_time (ConversionDatabase.statistics db)
          + processing_time)%Q
    /\ ConversionDatabase.total_conversions (ConversionDatabase.statistics full)
       = ConversionDatabase.total_conversions (ConversionDatabase.statistics db)
    /\ ConversionDatabase.failed_conversions (ConversionDatabase.statistics full)
       = ConversionDatabase.failed_conversions (ConversionDatabase.statistics db)
    /\ ConversionDatabase.skipped_conversions (ConversionDatabase.statistics full)
       = ConversionDatabase.skipped_conversions (ConversionDatabase.statistics db)
    /\ ConversionDatabase.last_updated (ConversionDatabase.statistics full) = now
    /\ ConversionDatabase.videos full = ConversionDatabase.videos db).
  { split; [|by repeat split].
    apply (Forall2_map_same _
             (fun r => if ConversionDatabase.is_started_for video_path r
                       then ConversionDatabase.set_completed converted_size
                              (ConversionDatabase.compression_ratio original_size converted_size)
                              (original_size - converted_size) processing_time now r
                       else r)).
    intros r. unfold ConversionDatabase.is_started_for.
    destruct (String.eqb_spec (ConversionDatabase.c_file_path r) video_path) as [Hp|Hp];
      simpl.
    - destruct (ConversionDatabase.c_status r) eqn:Hs; simpl; split; try done;
        intros [?|?]; done.
    - split; [done|]. done. }
  assert (Horigin : forall d r',
            d = db \/ d = full ->
            In r' (ConversionDatabase.conversions d) ->
            ConversionDatabase.c_status r' = ConversionDatabase.completed ->
            In r' (ConversionDatabase.conversions db)
            \/ exists r, In r (ConversionDatabase.conversions db)
                 /\ ConversionDatabase.c_status r = ConversionDatabase.started
                 /\ ConversionDatabase.c_file_path r = video_path
                 /\ ConversionDatabase.c_id r = ConversionDatabase.c_id r').
  { intros d r' [->| ->] Hin Hst; [by left|].
    change (ConversionDatabase.conversions full)
      with (map (fun r => if ConversionDatabase.is_started_for video_path r
                          then ConversionDatabase.set_completed converted_size
                                 (ConversionDatabase.compression_ratio original_size
                                    converted_size)
                                 (original_size - converted_size) processing_time now r
                          else r)
                (ConversionDatabase.conversions db)) in Hin.
    apply in_map_iff in Hin as (r & Hr & Hin).
    destruct (ConversionDatabase.is_started_for video_path r) eqn:Hs.
    - right. exists r. unfold ConversionDatabase.is_started_for in Hs.
      apply andb_true_iff in Hs as [Hp Hstat]. apply String.eqb_eq in Hp.
      subst r'. simpl. repeat split; try done.
      by destruct (ConversionDatabase.c_status r).
    - left. by subst. }
  destruct (mark_completed_cases fault video_path original_size converted_size processing_time
              now db) as [Hc|[[msg Hc]|[[msg [Hc|Hc]] Hwhy]]];
    cbv zeta in Hc; fold full in Hc; rewrite Hc; cbn [fst snd].
  - split; [by right|]. split; [done|]. split; [done|]. split; [done|].
    intros r'. apply Horigin. by right.
  - split; [by left|]. split; [done|]. split; [done|]. split; [intros e [= <-]; eauto|].
    intros r'. apply Horigin. by left.
  - split; [by left|]. split; [done|]. split; [done|].
    split; [intros e [= <-]; right; eauto|]. intros r'. apply Horigin. by left.
  - split; [by right|]. split; [done|]. split; [done|].
    split; [intros e [= <-]; right; eauto|]. intros r'. apply Horigin. by right.
Qed.

Lemma mark_completed_atomic_witness :
  let res := ConversionDatabase.mark_completed ConversionDatabase.no_fault fileA (100 * MB)
               (40 * MB) 30%Q 2 db_started in
  ConversionDatabase.conversions (snd res) = [row_completed]
  /\ ConversionDatabase.successful_conversions (ConversionDatabase.statistics (snd res)) = 1
  /\ ConversionDatabase.total_original_size (ConversionDatabase.statistics (snd res))
     = 100 * MB
  /\ ConversionDatabase.total_space_saved (ConversionDatabase.statistics (snd res)) = 60 * MB.
Proof.
  cbv zeta.
  destruct (mark_completed_atomic ConversionDatabase.no_fault fileA (100 * MB) (40 * MB)
              30%Q 2 db_started) as (_ & Hret & _);
    try (vm_compute; split; discriminate).
  destruct (Hret eq_refl) as (Hrec & Hs & Ho & _ & Hsv & _).
  split; [|split; [exact Hs|split; [exact Ho|exact Hsv]]].
  clear Hret Hs Ho Hsv.
  change (ConversionDatabase.conversions db_started)
    with [ConversionDatabase.mkConversionRow 1 1 fileA ConversionDatabase.started (100 * MB)
            None None None None None (Some 1) None] in Hrec.
  generalize dependent (ConversionDatabase.conversions
    (snd (ConversionDatabase.mark_completed ConversionDatabase.no_fault fileA (100 * MB)
            (40 * MB) 30%Q 2 db_started))).
  intros l' Hrec.
  inversion Hrec as [|r r' l l2 [Hrow _] Hrest Hl Hl']. inversion Hrest.
  rewrite (Hrow eq_refl eq_refl). reflexivity.
Defined.

(** C6, as amended.  A dry run leaves the state store, the conversion
    records and the ledger unchanged, and submits and starts no job on
    the pool.  When it selects a non-empty batch of files of positive
    size it answers [True] and logs the summary with the number of files
    and their total size; the [videos] table is then the one the
    analysis step left, which caches every successful analysis. *)
Theorem dry_run_effects flags env paths w :
  dry_run flags = true ->
  let r := run flags env paths w in
  state_manager (snd r) = state_manager w
  /\ ConversionDatabase.conversions (database (snd r)) = ConversionDatabase.conversions (database w)
  /\ ConversionDatabase.statistics (database (snd r)) = ConversionDatabase.statistics (database w)
  /\ map WorkerPool.t_video_path (WorkerPool.tasks (worker_pool (snd r)))
     = map WorkerPool.t_video_path (WorkerPool.tasks (worker_pool w))
  /\ WorkerPool.started_log (worker_pool (snd r)) = WorkerPool.started_log (worker_pool w)
  /\ (forall batch w1,
        batch_of flags env paths w = (inl batch, w1) ->
        batch <> [] ->
        Forall (fun va => 0 < file_size (snd va)) batch ->
        fst r = inl true
        /\ In (LogDryRunSummary (length batch) (total_file_size batch)) (log (snd r))
        /\ ConversionDatabase.videos (database (snd r)) = ConversionDatabase.videos (database w1)).
Proof.
  intros Hdry. cbv zeta.
  destruct (run_dry_no_new_work flags env paths w Hdry) as (H1 & H2 & H3 & H4 & H5).
  repeat (split; [done|]). clear H1 H2 H3 H4 H5.
  destruct (run_body flags env paths w) as [res wb] eqn:Hrb.
  intros batch w1 Hbatch Hne Hpos.
  assert (Hres : res = inl true
                 /\ In (LogDryRunSummary (length batch) (total_file_size batch)) (log wb)
                 /\ database wb = database w1).
  { unfold batch_of, run_body, bind in Hbatch, Hrb.
    destruct (_scan_paths env paths w) as [[files|e] ws]; [|done].
    destruct files as [|v files].
    { exfalso. apply Hne. unfold _analyze_videos, batches in Hbatch. simpl in Hbatch.
      unfold filter_step, _filter_conversions in Hbatch. simpl in Hbatch. congruence. }
    destruct (_analyze_videos env (v :: files) ws) as [[results|e] wa]; [|done].
    rewrite Hbatch in Hrb. destruct batch as [|c batch]; [done|].
    rewrite Hdry in Hrb. unfold _dry_run_preview, bind in Hrb.
    destruct (preview_positive (c :: batch) 0 w1 Hpos) as (w' & Hw' & Hd).
    rewrite Hw' in Hrb.
    pose proof (total_file_size_pos (c :: batch) Hne Hpos) as Htot.
    destruct (0 + total_file_size (c :: batch) =? 0) eqn:E; [lia|].
    unfold say, ret in Hrb. simpl in Hrb. injection Hrb as <- <-. simpl.
    split; [done|]. split; [|done].
    apply in_or_app. right. left. done. }
  destruct Hres as (-> & Hin & Hd).
  unfold run. rewrite Hrb. simpl.
  rewrite Hd. done.
Qed.

Lemma dry_run_effects_witness :
  let r := run dry envOK [fileA] (fresh_world 1) in
  state_manager (snd r) = state_manager (fresh_world 1)
  /\ fst r = inl true
  /\ In (LogDryRunSummary 1 (100 * MB)) (log (snd r)).
Proof.
  destruct (dry_run_effects dry envOK [fileA] (fresh_world 1) eq_refl)
    as (Hsm & _ & _ & _ & _ & Hsum).
  destruct (Hsum [(fileA, analysisA)] (snd (batch_of dry envOK [fileA] (fresh_world 1))))
    as (Hret & Hlog & _).
  - vm_compute. reflexivity.
  - discriminate.
  - repeat constructor.
  - split; [exact Hsm|]. split; [exact Hret|exact Hlog].
Defined.

(** C6 as stated fails: a dry run over one analysable file writes its
    analysis to the [videos] table of an empty database. *)
Lemma dry_run_writes_videos_table :
  let r := run dry envOK [fileA] (fresh_world 1) in
  fst r = inl true
  /\ ConversionDatabase.videos (database (fresh_world 1)) = []
  /\ map ConversionDatabase.v_file_path (ConversionDatabase.videos (database (snd r))) = [fileA]
  /\ database (snd r) <> database (fresh_world 1).
Proof.
  cbv zeta. split; [reflexivity|]. split; [reflexivity|]. split; [reflexivity|].
  intros H. apply (f_equal ConversionDatabase.video_seq) in H. vm_compute in H. discriminate.
Qed.

(** C7.  After [shutdown] has set the event, whatever slices follow (new
    submissions, polls of waiting tasks, encoder completions, further
    shutdown calls): the event stays set; no task enters
    [Worker.process] (the log of started tasks is unchanged and a task
    is running only if it was running before); a waiting task resolves
    at its next poll without touching a worker; and a task in flight
    resolves with what [Worker.process] makes of its own encoder
    outcome. *)
Theorem shutdown_blocks_new_jobs (p : WorkerPool.t) (evs : list WorkerPool.Event) :
  let q := WorkerPool.run_events evs (WorkerPool.set_shutdown p) in
  WorkerPool.shutdown_event q = true
  /\ WorkerPool.started_log q = WorkerPool.started_log p
  /\ (forall i w, WorkerPool.status_of i q = Some (WorkerPool.Running w) ->
                  WorkerPool.status_of i p = Some (WorkerPool.Running w))
  /\ (forall i, WorkerPool.status_of i q = Some WorkerPool.Waiting ->
                WorkerPool.workers (WorkerPool.poll i q) = WorkerPool.workers q
                /\ exists r, WorkerPool.status_of i (WorkerPool.poll i q)
                             = Some (WorkerPool.Finished r)
                             /\ (r = inl None \/ r = inr IndexError))
  /\ (forall i w m out pt now,
        WorkerPool.status_of i q = Some (WorkerPool.Running w) ->
        WorkerPool.workers q !! w = Some m ->
        WorkerPool.status_of i (WorkerPool.encoder_done i out pt now q)
          = Some (WorkerPool.Finished (fst (Worker.process_end out pt now m)))
        /\ WorkerPool.workers (WorkerPool.encoder_done i out pt now q) !! w
          = Some (snd (Worker.process_end out pt now m))).
Proof.
  cbv zeta.
  destruct (run_events_frozen evs (WorkerPool.set_shutdown p) eq_refl) as (Hs & Hl & Hr).
  set (q := WorkerPool.run_events evs (WorkerPool.set_shutdown p)) in *.
  split; [done|]. split; [done|]. split; [exact Hr|]. split.
  - intros i Hst. rewrite (poll_after_shutdown i q Hs Hst). split; [done|].
    unfold WorkerPool.status_of, WorkerPool.resolve in *. simpl.
    rewrite status_of_set_status. rewrite decide_True by done.
    destruct (WorkerPool.tasks q !! i); [|done]. simpl.
    destruct (WorkerPool.workers q); eauto.
  - intros i w m out pt now Hst Hw.
    unfold WorkerPool.status_of, WorkerPool.encoder_done in *.
    destruct (WorkerPool.tasks q !! i) as [tk|] eqn:Htk; [|done]. simpl in Hst.
    injection Hst as ->. rewrite Hw.
    destruct (Worker.process_end out pt now m) as [r m']. simpl.
    rewrite status_of_set_status, decide_True, Htk by done. split; [done|].
    apply list_lookup_insert_eq. by apply lookup_lt_is_Some_1.
Qed.

Lemma shutdown_blocks_new_jobs_witness :
  let q := WorkerPool.set_shutdown pool_busy in
  WorkerPool.started_log q = [0%nat]
  /\ WorkerPool.workers (WorkerPool.poll 1 q) = WorkerPool.workers q
  /\ (exists r, WorkerPool.status_of 1 (WorkerPool.poll 1 q) = Some (WorkerPool.Finished r)
                /\ (r = inl None \/ r = inr IndexError))
  /\ WorkerPool.status_of 0
       (WorkerPool.encoder_done 0 (Raised (ConversionError "FFmpeg error")) 5%Q 8 q)
     = Some (WorkerPool.Finished (inl None)).
Proof.
  destruct (shutdown_blocks_new_jobs pool_busy []) as (_ & Hlog & _ & Hwait & Hrun).
  split; [exact Hlog|].
  destruct (Hwait 1%nat eq_refl) as [Hw Hr].
  split; [exact Hw|]. split; [exact Hr|].
  destruct (Hrun 0%nat 0%nat worker_busy (Raised (ConversionError "FFmpeg error")) 5%Q 8
              eq_refl eq_refl) as [Hst _].
  exact Hst.
Defined.

(** C8.  [busy == (currentJob != none)] holds for every worker of every
    pool state reachable from a new pool; it holds with [busy] set while
    a call of [process] is suspended in the encoder; and every call of
    [process], whatever the encoder returns or raises (also an exception
    that [process] does not catch), leaves [busy] false and the current
    task [None]. *)
Theorem worker_metrics_invariant :
  (forall ae cc n evs,
      Forall Worker.metrics_inv
        (WorkerPool.workers (WorkerPool.run_events evs (WorkerPool.init ae cc n))))
  /\ (forall video_path m,
        Worker.metrics_inv (Worker.process_begin video_path m)
        /\ Worker.is_busy (Worker.process_begin video_path m) = true)
  /\ (forall video_path out pt now m,
        let m' := snd (Worker.process video_path out pt now m) in
        Worker.metrics_inv m' /\ Worker.is_busy m' = false /\ Worker.current_task m' = None).
Proof.
  split; [|split].
  - intros. apply run_events_workers_inv. simpl.
    apply List.Forall_forall. intros m Hin. apply in_map_iff in Hin as (id & <- & _).
    apply init_inv.
  - intros. split; [apply process_begin_inv|done].
  - intros. cbv zeta. unfold Worker.process. split; [apply process_end_inv|].
    apply process_end_clears.
Qed.

(** C9, as amended.  The files selected for conversion are arranged in
    descending order of byte size (a permutation of the selection in
    which every file is at least as large as all that follow), and they
    are submitted to the pool in that order.  For the three files of
    Scenario A, presented in another order, the batch and the pool's
    task list are [500MB, 100MB, 10MB].  Nothing is said about the order
    of completion. *)
Theorem schedule_is_size_descending force video_files results w p :
  let scheduled := fst (_filter_conversions force video_files results w) in
  StronglySorted size_ge scheduled
  /\ Permutation (fst (select force (database w) results video_files)) scheduled
  /\ map WorkerPool.t_video_path (WorkerPool.tasks (snd (gather_submits scheduled p)))
     = map WorkerPool.t_video_path (WorkerPool.tasks p) ++ map fst scheduled
  /\ (let r := run live envA [fileC; fileA; fileB] (fresh_world 1) in
      match fst (batch_of live envA [fileC; fileA; fileB] (fresh_world 1)) with
      | inl batch => map (fun va => (fst va, file_size (snd va))) batch
      | inr _ => []
      end = [(fileA, 500 * MB); (fileB, 100 * MB); (fileC, 10 * MB)]
      /\ map (fun tk => file_size (WorkerPool.t_analysis tk)) (WorkerPool.tasks (worker_pool (snd r)))
         = [500 * MB; 100 * MB; 10 * MB]).
Proof.
  cbv zeta. unfold _filter_conversions.
  destruct (select force (database w) results video_files) as [kept logged]. simpl.
  split; [apply sort_by_size_desc_sorted|]. split; [apply sort_by_size_desc_perm|].
  split; [apply gather_submits_paths|]. split; reflexivity.
Qed.

(** C9 as stated fails on the order of completion: on a pool of one
    worker, with the three jobs of Scenario A submitted in the order
    [500MB, 100MB, 10MB], there is an execution in which the 10MB job
    starts and completes before the 100MB job. *)
Lemma completion_order_not_submission_order :
  let p := WorkerPool.run_events scenarioA_trace (WorkerPool.init false None 1) in
  map WorkerPool.t_video_path (WorkerPool.tasks p) = [fileA; fileB; fileC]
  /\ map (fun tk => file_size (WorkerPool.t_analysis tk)) (WorkerPool.tasks p)
     = [500 * MB; 100 * MB; 10 * MB]
  /\ WorkerPool.started_log p = [0; 2; 1]%nat
  /\ WorkerPool.finished_log p = [0; 2; 1]%nat
  /\ WorkerPool.finished_log p <> [0; 1; 2]%nat.
Proof. vm_compute. repeat split; auto. discriminate. Qed.

(** C10.  The skip-if-larger outcome on the code.  [convert_video]
    returns [None]; [Worker.process] counts the task as completed, adds
    the processing time, leaves the failure count, and returns [None] to
    the pool.  The orchestrator never sees that [None]: its result loop
    is handed the task handle, logs a success and stops with a
    [TypeError], so no skip is tallied and the run answers [False].  Fed
    the [None] itself, the loop tallies one skip, logs it, and changes
    no store. *)
Theorem skip_result_never_reaches_tally :
  let r := run live envSkip [fileA] (fresh_world 1) in
  fst (encode envSkip fileA) = Returned None
  /\ (forall video_path pt now m,
        let res := Worker.process video_path (Returned None) pt now m in
        fst res = inl None
        /\ Worker.tasks_completed (snd res) = Worker.tasks_completed m + 1
        /\ Worker.total_processing_time (snd res) = (Worker.total_processing_time m + pt)%Q
        /\ Worker.tasks_failed (snd res) = Worker.tasks_failed m)
  /\ WorkerPool.status_of 0 (worker_pool (snd r)) = Some (WorkerPool.Finished (inl None))
  /\ map Worker.tasks_completed (WorkerPool.workers (worker_pool (snd r))) = [1]
  /\ fst r = inl false
  /\ log (snd r) = [LogConversionSuccessful fileA; LogFatal task_error]
  /\ (forall now va w,
        foldM (process_result now) (zip [va] [PyNone]) (mkTally 0 0 0) w =
        (inl (mkTally 0 0 1),
         mkWorld (database w) (state_manager w) (worker_pool w)
           (log w ++ [LogConversionSkipped (fst va)]))).
Proof.
  cbv zeta. split; [reflexivity|]. split.
  { intros. rewrite process_skip_metrics. done. }
  split; [reflexivity|]. split; [reflexivity|]. split; [reflexivity|].
  split; [reflexivity|]. apply result_loop_skip.
Qed.

(** * Further properties

    Properties of the modelled code beyond the claims: the result
    store, the state store, the pool and its workers, the encoder's
    outcomes, the conversion decision, and the steps of a run. *)

(** ** The result store *)

Lemma find_video_stored p a id l :
  List.find (fun r => String.eqb (ConversionDatabase.v_file_path r) p)
    (List.filter (fun r => negb (String.eqb (ConversionDatabase.v_file_path r) p)) l
       ++ [ConversionDatabase.mkVideoRow id p a])
  = Some (ConversionDatabase.mkVideoRow id p a).
Proof.
  induction l as [|r l IH]; simpl.
  - by rewrite String.eqb_refl.
  - destruct (String.eqb (ConversionDatabase.v_file_path r) p) eqn:E; simpl; [done|].
    by rewrite E.
Qed.

Lemma find_video_other p q a id l :
  q <> p ->
  List.find (fun r => String.eqb (ConversionDatabase.v_file_path r) q)
    (List.filter (fun r => negb (String.eqb (ConversionDatabase.v_file_path r) p)) l
       ++ [ConversionDatabase.mkVideoRow id p a])
  = List.find (fun r => String.eqb (ConversionDatabase.v_file_path r) q) l.
Proof.
  intros Hne. induction l as [|r l IH]; simpl.
  - destruct (String.eqb p q) eqn:E; [|done]. apply String.eqb_eq in E. congruence.
  - destruct (String.eqb (ConversionDatabase.v_file_path r) p) eqn:E; simpl.
    + apply String.eqb_eq in E.
      destruct (String.eqb (ConversionDatabase.v_file_path r) q) eqn:E'; [|done].
      apply String.eqb_eq in E'. congruence.
    + destruct (String.eqb (ConversionDatabase.v_file_path r) q); done.
Qed.

Lemma get_after_store_same db p a :
  cached p a (snd (ConversionDatabase.store_analysis ConversionDatabase.no_fault p a db)).
Proof. unfold cached. unfold_db. simpl. by rewrite find_video_stored. Qed.

Lemma get_after_store_other db p a q :
  q <> p ->
  fst (ConversionDatabase.get_analysis ConversionDatabase.no_fault q
         (snd (ConversionDatabase.store_analysis ConversionDatabase.no_fault p a db)))
  = fst (ConversionDatabase.get_analysis ConversionDatabase.no_fault q db).
Proof. intros Hne. unfold_db. simpl. by rewrite find_video_other. Qed.

(** X1.  [store_analysis] then [get_analysis]: the stored analysis comes
    back for the same path, with [reason] emptied and nothing else
    changed, whatever was stored for the path before; [get_analysis]
    leaves the database as it is; and the answer for any other path is
    the one the database gave before the store. *)
Theorem store_get_analysis_roundtrip db p a q :
  let db' := snd (ConversionDatabase.store_analysis ConversionDatabase.no_fault p a db) in
  ConversionDatabase.get_analysis ConversionDatabase.no_fault p db'
    = (inl (Some (stored_form p a)), db')
  /\ (q <> p ->
      fst (ConversionDatabase.get_analysis ConversionDatabase.no_fault q db')
      = fst (ConversionDatabase.get_analysis ConversionDatabase.no_fault q db)).
Proof.
  cbv zeta. split; [|apply get_after_store_other].
  pose proof (get_after_store_same db p a) as H. unfold cached in H.
  destruct (ConversionDatabase.get_analysis ConversionDatabase.no_fault p _) as [r d] eqn:E.
  simpl in H. subst r. f_equal.
  revert E. unfold_db. simpl. by intros [= _ <-].
Qed.

Lemma store_get_analysis_roundtrip_witness :
  let db' := snd (ConversionDatabase.store_analysis ConversionDatabase.no_fault fileA analysisA
                    (ConversionDatabase._initialize_database 0)) in
  fst (ConversionDatabase.get_analysis ConversionDatabase.no_fault fileB db')
  = fst (ConversionDatabase.get_analysis ConversionDatabase.no_fault fileB
           (ConversionDatabase._initialize_database 0)).
Proof.
  apply (proj2 (store_get_analysis_roundtrip (ConversionDatabase._initialize_database 0)
                  fileA analysisA fileB)).
  discriminate.
Defined.

Lemma run_op_cases fault op db :
  run_op fault op db = (None, snd (run_op ConversionDatabase.no_fault op db))
  \/ (exists msg, run_op fault op db = (Some (DatabaseError msg), db))
  \/ ((exists msg, run_op fault op db = (Some (SqliteError msg), db)
                   \/ run_op fault op db
                      = (Some (SqliteError msg), snd (run_op ConversionDatabase.no_fault op db)))
      /\ connection_fails fault).
Proof.
  unfold connection_fails.
  destruct op; simpl; unfold_db; simpl; split_faults fault;
    first [ by left
          | right; left; by eexists
          | right; right; split; [eexists; first [by left | by right] | auto] ].
Qed.

(** X2.  Every mutating method of the result store, for sizes and
    ledger sums within the 64-bit range, is all-or-nothing under any
    pattern of [sqlite3.Error] failures of its sqlite calls: the stored
    database is either unchanged or the one a call without failures
    leaves.  When the call returns it is the latter; when it raises
    [DatabaseError] it is unchanged; and the exception is a
    [DatabaseError] unless [connect], [rollback] or [close] fails, whose
    [sqlite3.Error] leaves as it is. *)
Theorem store_operations_all_or_nothing fault op db :
  op_in_range op db ->
  let r := run_op fault op db in
  let full := snd (run_op ConversionDatabase.no_fault op db) in
  (snd r = db \/ snd r = full)
  /\ (fst r = None -> snd r = full)
  /\ (forall msg, fst r = Some (DatabaseError msg) -> snd r = db)
  /\ (forall e, fst r = Some e ->
        (exists msg, e = DatabaseError msg)
        \/ ((exists msg, e = SqliteError msg) /\ connection_fails fault)).
Proof.
  intros _. cbv zeta.
  destruct (run_op_cases fault op db) as [->|[[msg ->]|[[msg [-> | ->]] Hwhy]]]; cbn [fst snd].
  - split; [by right|]. repeat split; done.
  - split; [by left|]. split; [done|]. split; [done|]. intros e [= <-]. eauto.
  - split; [by left|]. split; [done|]. split; [done|]. intros e [= <-]. eauto.
  - split; [by right|]. split; [done|]. split; [done|]. intros e [= <-]. eauto.
Qed.

Lemma store_operations_all_or_nothing_witness :
  let fault := ConversionDatabase.mkFaults false (fun k => Nat.eqb k 1) false false in
  let r := run_op fault (OpMarkCompleted fileA (100 * MB) (40 * MB) 30%Q 2) db_started in
  fst r = Some (DatabaseError "Database error: sqlite3.Error") /\ snd r = db_started.
Proof.
  cbv zeta. split; [reflexivity|].
  refine (proj1 (proj2 (proj2
            (store_operations_all_or_nothing
               (ConversionDatabase.mkFaults false (fun k => Nat.eqb k 1) false false)
               (OpMarkCompleted fileA (100 * MB) (40 * MB) 30%Q 2) db_started _)))
            "Database error: sqlite3.Error" eq_refl).
  repeat split; vm_compute; discriminate.
Defined.

(** The three shapes of the conversion records after a method. *)
Lemma conversions_after_op op db :
  let db' := snd (run_op ConversionDatabase.no_fault op db) in
  ConversionDatabase.conversions db' = ConversionDatabase.conversions db
  \/ (exists r, ConversionDatabase.conversions db' = ConversionDatabase.conversions db ++ [r])
  \/ (exists p f, ConversionDatabase.conversions db'
        = map (fun r => if ConversionDatabase.is_started_for p r then f r else r)
              (ConversionDatabase.conversions db)).
Proof.
  destruct op; simpl; unfold_db; simpl; eauto.
  destruct (List.find _ (ConversionDatabase.videos db)); simpl; eauto.
Qed.

Lemma is_converted_In q db :
  ConversionDatabase.is_converted q db = true <->
  exists r, In r (ConversionDatabase.conversions db)
            /\ ConversionDatabase.c_file_path r = q
            /\ ConversionDatabase.c_status r = ConversionDatabase.completed.
Proof.
  unfold ConversionDatabase.is_converted. rewrite Z.ltb_lt. split.
  - intros H.
    destruct (List.filter _ (ConversionDatabase.conversions db)) as [|r l] eqn:E;
      [simpl in H; lia|].
    assert (Hin : In r (List.filter
              (fun r => String.eqb (ConversionDatabase.c_file_path r) q
                        && ConversionDatabase.Status_eqb (ConversionDatabase.c_status r)
                             ConversionDatabase.completed)
              (ConversionDatabase.conversions db))) by (rewrite E; by left).
    apply filter_In in Hin as [Hin Hc]. apply andb_true_iff in Hc as [Hp Hs].
    exists r. split; [done|]. split; [by apply String.eqb_eq|].
    by destruct (ConversionDatabase.c_status r).
  - intros (r & Hin & Hp & Hs).
    assert (Hf : In r (List.filter
              (fun r => String.eqb (ConversionDatabase.c_file_path r) q
                        && ConversionDatabase.Status_eqb (ConversionDatabase.c_status r)
                             ConversionDatabase.completed)
              (ConversionDatabase.conversions db))).
    { apply filter_In. split; [done|]. rewrite Hs, Hp, String.eqb_refl. done. }
    destruct (List.filter _ (ConversionDatabase.conversions db)); [done|]. simpl. lia.
Qed.

(** X3.  Once [is_converted] answers true for a path it does so after
    every further method call on the store, failed or not: no method
    takes a record out of [completed] state. *)
Theorem is_converted_never_reverts fault op db q :
  ConversionDatabase.is_converted q db = true ->
  ConversionDatabase.is_converted q (snd (run_op fault op db)) = true.
Proof.
  intros Hq.
  destruct (run_op_cases fault op db) as [->|[[msg ->]|[[msg [-> | ->]] _]]];
    [|done|done|]; cbn [snd].
  all: apply is_converted_In in Hq as (r & Hin & Hp & Hs); apply is_converted_In.
  all: destruct (conversions_after_op op db) as [->|[[x ->]|(p & f & ->)]].
  all: try (by eauto).
  all: try (exists r; split; [apply in_or_app; by left|done]).
  all: exists r; split; [|done]; apply in_map_iff; exists r; split; [|done];
    unfold ConversionDatabase.is_started_for; rewrite Hs; by rewrite andb_false_r.
Qed.


Lemma is_converted_never_reverts_witness :
  ConversionDatabase.is_converted fileA
    (snd (run_op ConversionDatabase.no_fault (OpMarkFailed fileA "late failure" 3) db_completed))
  = true.
Proof.
  apply (is_converted_never_reverts ConversionDatabase.no_fault
           (OpMarkFailed fileA "late failure" 3) db_completed fileA).
  reflexivity.
Defined.

(** X4.  The ledger under any method call, failed or not:
    [total_conversions] is never changed (no statement writes it), and
    the three outcome counters never decrease except by
    [clear_statistics]. *)
Theorem ledger_counters_monotone fault op db :
  let s := ConversionDatabase.statistics db in
  let s' := ConversionDatabase.statistics (snd (run_op fault op db)) in
  ConversionDatabase.total_conversions s' = ConversionDatabase.total_conversions s
  /\ (is_reset op = true
      \/ (ConversionDatabase.successful_conversions s
            <= ConversionDatabase.successful_conversions s'
          /\ ConversionDatabase.failed_conversions s <= ConversionDatabase.failed_conversions s'
          /\ ConversionDatabase.skipped_conversions s
             <= ConversionDatabase.skipped_conversions s')).
Proof.
  cbv zeta.
  assert (Hfull :
    ConversionDatabase.total_conversions
      (ConversionDatabase.statistics (snd (run_op ConversionDatabase.no_fault op db)))
    = ConversionDatabase.total_conversions (ConversionDatabase.statistics db)
    /\ (is_reset op = true
        \/ (ConversionDatabase.successful_conversions (ConversionDatabase.statistics db)
              <= ConversionDatabase.successful_conversions
                   (ConversionDatabase.statistics (snd (run_op ConversionDatabase.no_fault op db)))
            /\ ConversionDatabase.failed_conversions (ConversionDatabase.statistics db)
               <= ConversionDatabase.failed_conversions
                    (ConversionDatabase.statistics (snd (run_op ConversionDatabase.no_fault op db)))
            /\ ConversionDatabase.skipped_conversions (ConversionDatabase.statistics db)
               <= ConversionDatabase.skipped_conversions
                    (ConversionDatabase.statistics
                       (snd (run_op ConversionDatabase.no_fault op db)))))).
  { destruct op; simpl; unfold_db; simpl; try (split; [done|right; lia]).
    - destruct (List.find _ (ConversionDatabase.videos db)); simpl; split;
        (done || (right; lia)).
    - split; [done|by left]. }
  destruct (run_op_cases fault op db) as [->|[[msg ->]|[[msg [-> | ->]] _]]]; cbn [snd];
    first [exact Hfull | split; [done|right; lia]].
Qed.

Lemma map_unmatched {A} (f : A -> A) (test : A -> bool) (l : list A) :
  Forall (fun r => test r = false) l ->
  map (fun r => if test r then f r else r) l = l.
Proof.
  induction 1 as [|r l Hr Hl IH]; simpl; [done|]. by rewrite Hr, IH.
Qed.

(** X5.  [mark_completed], [mark_failed] and [mark_skipped] on a path
    that has no record in [started] state change no conversion record
    and still count the outcome in the ledger; [is_converted] answers
    as before. *)
Theorem mark_without_started_record_counts p db original converted pt msg now :
  no_started_record p db ->
  let dc := snd (ConversionDatabase.mark_completed ConversionDatabase.no_fault p original
                   converted pt now db) in
  let df := snd (ConversionDatabase.mark_failed ConversionDatabase.no_fault p msg now db) in
  let dk := snd (ConversionDatabase.mark_skipped ConversionDatabase.no_fault p msg now db) in
  ConversionDatabase.conversions dc = ConversionDatabase.conversions db
  /\ ConversionDatabase.successful_conversions (ConversionDatabase.statistics dc)
     = ConversionDatabase.successful_conversions (ConversionDatabase.statistics db) + 1
  /\ ConversionDatabase.is_converted p dc = ConversionDatabase.is_converted p db
  /\ ConversionDatabase.conversions df = ConversionDatabase.conversions db
  /\ ConversionDatabase.failed_conversions (ConversionDatabase.statistics df)
     = ConversionDatabase.failed_conversions (ConversionDatabase.statistics db) + 1
  /\ ConversionDatabase.conversions dk = ConversionDatabase.conversions db
  /\ ConversionDatabase.skipped_conversions (ConversionDatabase.statistics dk)
     = ConversionDatabase.skipped_conversions (ConversionDatabase.statistics db) + 1.
Proof.
  intros Hno. cbv zeta. unfold_db. simpl.
  unfold ConversionDatabase.is_converted. simpl.
  rewrite !(map_unmatched _ _ _ Hno). done.
Qed.

Lemma mark_without_started_record_counts_witness :
  let db := ConversionDatabase._initialize_database 0 in
  let dc := snd (ConversionDatabase.mark_completed ConversionDatabase.no_fault fileA
                   (100 * MB) (40 * MB) 30%Q 1 db) in
  ConversionDatabase.conversions dc = ConversionDatabase.conversions db
  /\ ConversionDatabase.successful_conversions (ConversionDatabase.statistics dc)
     = ConversionDatabase.successful_conversions (ConversionDatabase.statistics db) + 1
  /\ ConversionDatabase.is_converted fileA dc = ConversionDatabase.is_converted fileA db.
Proof.
  cbv zeta.
  destruct (mark_without_started_record_counts fileA (ConversionDatabase._initialize_database 0)
              (100 * MB) (40 * MB) 30%Q "" 1) as (H1 & H2 & H3 & _).
  - constructor.
  - split; [exact H1|]. split; [exact H2|exact H3].
Defined.

(** [mark_started]: a returned id is the next one of the table, the new
    record is [started] and carries the video's id; an exception leaves
    the database unchanged unless [close] fails after the commit; a path
    without a [videos] row is refused. *)
Lemma mark_started_outcomes fault p size now db :
  let res := ConversionDatabase.mark_started fault p size now db in
  (forall id, fst res = inl id ->
     id = ConversionDatabase.conversion_seq db + 1
     /\ exists v, List.find (fun r => String.eqb (ConversionDatabase.v_file_path r) p)
                    (ConversionDatabase.videos db) = Some v
        /\ ConversionDatabase.conversions (snd res)
           = ConversionDatabase.conversions db
             ++ [ConversionDatabase.mkConversionRow id (ConversionDatabase.v_id v) p
                   ConversionDatabase.started size None None None None None (Some now) None]
        /\ ConversionDatabase.statistics (snd res) = ConversionDatabase.statistics db
        /\ ConversionDatabase.videos (snd res) = ConversionDatabase.videos db)
  /\ (forall e, fst res = inr e ->
        ConversionDatabase.close_fails fault = false -> snd res = db)
  /\ (ConversionDatabase.connect_fails fault = false ->
      ConversionDatabase.close_fails fault = false ->
      ConversionDatabase.call_fails fault 0%nat = false ->
      List.find (fun r => String.eqb (ConversionDatabase.v_file_path r) p)
        (ConversionDatabase.videos db) = None ->
      fst res = inr (DatabaseError ("Video not found in database: " +:+ p))).
Proof.
  cbv zeta. unfold_db. simpl.
  destruct (List.find _ (ConversionDatabase.videos db)) as [v|] eqn:Hv; simpl;
    split_faults fault; (split; [|split; done]);
    try (intros id Hid; discriminate Hid).
  intros id [= <-]. split; [done|]. by exists v.
Qed.

Lemma is_converted_after_start q db db' r :
  ConversionDatabase.conversions db' = ConversionDatabase.conversions db ++ [r] ->
  ConversionDatabase.c_status r = ConversionDatabase.started ->
  ConversionDatabase.is_converted q db' = ConversionDatabase.is_converted q db.
Proof.
  unfold ConversionDatabase.is_converted. intros -> Hs.
  rewrite List.filter_app. simpl. rewrite Hs, andb_false_r. by rewrite app_nil_r.
Qed.

Lemma is_converted_after_fail q p msg now db db' :
  ConversionDatabase.conversions db'
  = map (fun r => if ConversionDatabase.is_started_for p r
                  then ConversionDatabase.set_failed msg now r else r)
        (ConversionDatabase.conversions db) ->
  ConversionDatabase.is_converted q db' = ConversionDatabase.is_converted q db.
Proof.
  intros Hc. apply eq_true_iff_eq. rewrite !is_converted_In, Hc. split.
  - intros (r' & Hin & Hp & Hs). apply in_map_iff in Hin as (r & <- & Hin).
    destruct (ConversionDatabase.is_started_for p r); [simpl in Hs; discriminate|eauto].
  - intros (r & Hin & Hp & Hs). exists r. split; [|done]. apply in_map_iff.
    exists r. split; [|done]. unfold ConversionDatabase.is_started_for.
    rewrite Hs. by rewrite andb_false_r.
Qed.

Lemma mark_failed_conversions p msg now db :
  ConversionDatabase.conversions
    (snd (ConversionDatabase.mark_failed ConversionDatabase.no_fault p msg now db))
  = map (fun r => if ConversionDatabase.is_started_for p r
                  then ConversionDatabase.set_failed msg now r else r)
        (ConversionDatabase.conversions db).
Proof. reflexivity. Qed.

(** X6.  The life cycle the store is written for, for sizes and ledger
    sums within the 64-bit range and calls that do not fail.  After
    [store_analysis], [mark_started] returns the next record id and
    leaves [is_converted] and the ledger as they were; [mark_completed]
    after it makes [is_converted] true and changes the ledger by one
    successful conversion, the original size, the converted size, their
    difference as the space saved, and the time, each added once, with
    the other counters as they were; [mark_failed] after it instead
    leaves [is_converted] as it was and adds one to the failed counter
    only. *)
Theorem conversion_lifecycle db p a size converted pt t1 t2 msg :
  let s := ConversionDatabase.statistics db in
  ConversionDatabase.int64 (file_size a) ->
  ConversionDatabase.int64 size ->
  ConversionDatabase.int64 converted ->
  ConversionDatabase.int64 (size - converted) ->
  ConversionDatabase.int64 (ConversionDatabase.successful_conversions s + 1) ->
  ConversionDatabase.int64 (ConversionDatabase.failed_conversions s + 1) ->
  ConversionDatabase.int64 (ConversionDatabase.total_original_size s + size) ->
  ConversionDatabase.int64 (ConversionDatabase.total_converted_size s + converted) ->
  ConversionDatabase.int64 (ConversionDatabase.total_space_saved s + (size - converted)) ->
  let db1 := snd (ConversionDatabase.store_analysis ConversionDatabase.no_fault p a db) in
  let r2 := ConversionDatabase.mark_started ConversionDatabase.no_fault p size t1 db1 in
  let db3 := snd (ConversionDatabase.mark_completed ConversionDatabase.no_fault p size
                    converted pt t2 (snd r2)) in
  let db3' := snd (ConversionDatabase.mark_failed ConversionDatabase.no_fault p msg t2 (snd r2)) in
  let s3 := ConversionDatabase.statistics db3 in
  let s3' := ConversionDatabase.statistics db3' in
  fst r2 = inl (ConversionDatabase.conversion_seq db + 1)
  /\ ConversionDatabase.is_converted p (snd r2) = ConversionDatabase.is_converted p db
  /\ ConversionDatabase.statistics (snd r2) = s
  /\ ConversionDatabase.is_converted p db3 = true
  /\ ConversionDatabase.successful_conversions s3
     = ConversionDatabase.successful_conversions s + 1
  /\ ConversionDatabase.total_original_size s3
     = ConversionDatabase.total_original_size s + size
  /\ ConversionDatabase.total_converted_size s3
     = ConversionDatabase.total_converted_size s + converted
  /\ ConversionDatabase.total_space_saved s3
     = ConversionDatabase.total_space_saved s + (size - converted)
  /\ ConversionDatabase.total_processing_time s3
     = (ConversionDatabase.total_processing_time s + pt)%Q
  /\ ConversionDatabase.total_conversions s3 = ConversionDatabase.total_conversions s
  /\ ConversionDatabase.failed_conversions s3 = ConversionDatabase.failed_conversions s
  /\ ConversionDatabase.skipped_conversions s3 = ConversionDatabase.skipped_conversions s
  /\ ConversionDatabase.last_updated s3 = t2
  /\ ConversionDatabase.is_converted p db3' = ConversionDatabase.is_converted p db
  /\ ConversionDatabase.failed_conversions s3' = ConversionDatabase.failed_conversions s + 1
  /\ ConversionDatabase.successful_conversions s3'
     = ConversionDatabase.successful_conversions s
  /\ ConversionDatabase.total_original_size s3' = ConversionDatabase.total_original_size s
  /\ ConversionDatabase.total_space_saved s3' = ConversionDatabase.total_space_saved s.
Proof.
  cbv zeta. intros _ _ _ _ _ _ _ _ _.
  assert (Hstart : ConversionDatabase.mark_started ConversionDatabase.no_fault p size t1
            (snd (ConversionDatabase.store_analysis ConversionDatabase.no_fault p a db))
          = (inl (ConversionDatabase.conversion_seq db + 1),
             ConversionDatabase.mkDatabase
               (ConversionDatabase.videos
                  (snd (ConversionDatabase.store_analysis ConversionDatabase.no_fault p a db)))
               (ConversionDatabase.video_seq db + 1)
               (ConversionDatabase.conversions db
                  ++ [ConversionDatabase.mkConversionRow (ConversionDatabase.conversion_seq db + 1)
                        (ConversionDatabase.video_seq db + 1) p ConversionDatabase.started size
                        None None None None None (Some t1) None])
               (ConversionDatabase.conversion_seq db + 1)
               (ConversionDatabase.statistics db))).
  { unfold_db. simpl. rewrite find_video_stored. done. }
  rewrite Hstart. cbn [fst snd]. split; [done|].
  split; [eapply is_converted_after_start; simpl; reflexivity|].
  split; [reflexivity|].
  split.
  { apply is_converted_In. eexists. split; [|split].
    - unfold_db. simpl. rewrite map_app. apply in_or_app. right. simpl. left.
      unfold ConversionDatabase.is_started_for. simpl. rewrite String.eqb_refl. reflexivity.
    - reflexivity.
    - reflexivity. }
  do 9 (split; [reflexivity|]).
  split; [|repeat split; reflexivity].
  rewrite (is_converted_after_fail p p msg t2 _ _ (mark_failed_conversions p msg t2 _)).
  eapply is_converted_after_start; simpl; reflexivity.
Qed.

Lemma conversion_lifecycle_witness :
  let db := ConversionDatabase._initialize_database 0 in
  let db1 := snd (ConversionDatabase.store_analysis ConversionDatabase.no_fault fileA
                    analysisA db) in
  let r2 := ConversionDatabase.mark_started ConversionDatabase.no_fault fileA (100 * MB) 1 db1 in
  let db3 := snd (ConversionDatabase.mark_completed ConversionDatabase.no_fault fileA
                    (100 * MB) (40 * MB) 30%Q 2 (snd r2)) in
  fst r2 = inl (ConversionDatabase.conversion_seq db + 1)
  /\ ConversionDatabase.is_converted fileA db3 = true
  /\ ConversionDatabase.total_space_saved (ConversionDatabase.statistics db3)
     = ConversionDatabase.total_space_saved (ConversionDatabase.statistics db)
       + (100 * MB - 40 * MB).
Proof.
  cbv zeta.
  destruct (conversion_lifecycle (ConversionDatabase._initialize_database 0) fileA analysisA
              (100 * MB) (40 * MB) 30%Q 1 2 "")
    as (H1 & _ & _ & H4 & _ & _ & _ & H8 & _);
    try (vm_compute; split; discriminate).
  split; [exact H1|]. split; [exact H4|exact H8].
Defined.

Lemma get_statistics_no_fault db :
  exists stats,
    ConversionDatabase.get_statistics ConversionDatabase.no_fault db = (inl stats, db)
    /\ stats !! "total_savings" = None
    /\ stats !! "completed" = None
    /\ stats !! "failed" = None
    /\ stats !! "skipped" = None
    /\ stats !! "total_space_saved"
       = Some (ConversionDatabase.VInt
                 (ConversionDatabase.total_space_saved (ConversionDatabase.statistics db)))
    /\ stats !! "avg_savings_percent"
       = Some (ConversionDatabase.avg_savings_percent (ConversionDatabase.statistics db)).
Proof.
  eexists. split; [reflexivity|]. repeat split; reflexivity.
Qed.

(** X7.  [get_statistics] leaves the database unchanged.  When it
    returns, the dict has the space saved under ['total_space_saved']
    and the derived ['avg_savings_percent'], and has no key
    ['total_savings'], ['completed'], ['failed'] or ['skipped']; with no
    successful conversion the three derived values are [0], [1.0] and
    [0].  When a sqlite call of it raises [sqlite3.Error], the exception
    of [get_statistics] is a [DatabaseError], or the [sqlite3.Error]
    itself when it is [connect], [rollback] or [close] that fails. *)
Theorem get_statistics_keys fault db :
  snd (ConversionDatabase.get_statistics fault db) = db
  /\ match fst (ConversionDatabase.get_statistics fault db) with
     | inl stats =>
         stats !! "total_savings" = None
         /\ stats !! "completed" = None
         /\ stats !! "failed" = None
         /\ stats !! "skipped" = None
         /\ stats !! "total_space_saved"
            = Some (ConversionDatabase.VInt
                      (ConversionDatabase.total_space_saved (ConversionDatabase.statistics db)))
         /\ stats !! "avg_savings_percent"
            = Some (ConversionDatabase.avg_savings_percent (ConversionDatabase.statistics db))
         /\ (ConversionDatabase.successful_conversions (ConversionDatabase.statistics db) <= 0
             -> stats !! "avg_savings_percent" = Some (ConversionDatabase.VInt 0)
                /\ stats !! "avg_compression_ratio" = Some (ConversionDatabase.VReal 1)
                /\ stats !! "avg_processing_time" = Some (ConversionDatabase.VInt 0))
     | inr e =>
         (exists msg, e = DatabaseError msg)
         \/ ((exists msg, e = SqliteError msg) /\ connection_fails fault)
     end.
Proof.
  unfold connection_fails. unfold_db. simpl.
  destruct (ConversionDatabase.connect_fails fault) eqn:Hc; simpl; [split; [done|eauto 6]|].
  destruct (ConversionDatabase.call_fails fault 0%nat); simpl.
  { destruct (ConversionDatabase.close_fails fault) eqn:Hk; simpl; [split; [done|eauto 6]|].
    destruct (ConversionDatabase.rollback_fails fault) eqn:Hr; simpl; split;
      first [done | eauto 6]. }
  destruct (ConversionDatabase.close_fails fault) eqn:Hk; simpl; [split; [done|eauto 6]|].
  split; [done|]. repeat split; try reflexivity.
  all: unfold ConversionDatabase.avg_savings_percent,
         ConversionDatabase.avg_compression_ratio, ConversionDatabase.avg_processing_time;
       destruct (Z.ltb_spec 0 (ConversionDatabase.successful_conversions
                                 (ConversionDatabase.statistics db))); [lia|reflexivity].
Qed.

(** ** The state store *)

(** X8.  [save] then [load].  After a successful [save(state)] the file
    and the current state are [state] with a fresh ['updated_at'];
    [load] gives it back exactly when it has a ['version'] key, and
    answers [None] otherwise.  A failed [save] raises [FileSystemError]
    and leaves the file as it was, the current state being replaced
    all the same. *)
Theorem save_load_roundtrip st now sm :
  let sm1 := snd (StateManager.save true (Some st) now sm) in
  let r := StateManager.save false (Some st) now sm in
  StateManager.state_file sm1 = Some (StateManager.with_updated_at now st)
  /\ StateManager.current_state sm1 = StateManager.with_updated_at now st
  /\ fst (StateManager.load sm1)
     = match StateManager.version st with
       | Some _ => Some (StateManager.with_updated_at now st)
       | None => None
       end
  /\ StateManager.current_state (snd (StateManager.load sm1))
     = StateManager.with_updated_at now st
  /\ fst r = inr (FileSystemError "Could not save state")
  /\ StateManager.state_file (snd r) = StateManager.state_file sm
  /\ StateManager.current_state (snd r) = StateManager.with_updated_at now st.
Proof.
  cbv zeta. unfold StateManager.save, StateManager.load. simpl.
  destruct (StateManager.version st); done.
Qed.

(** [load]: the file is never changed, and the current state only when
    a dict with a ['version'] key is read. *)
Lemma load_outcomes sm :
  match fst (StateManager.load sm) with
  | None =>
      snd (StateManager.load sm) = sm
      /\ (StateManager.state_file sm = None
          \/ exists st, StateManager.state_file sm = Some st /\ StateManager.version st = None)
  | Some st =>
      StateManager.state_file sm = Some st
      /\ is_Some (StateManager.version st)
      /\ snd (StateManager.load sm) = StateManager.mkStateManager (Some st) st
  end.
Proof.
  unfold StateManager.load. destruct sm as [[st|] cs]; simpl; [|by split; [|left]].
  destruct (StateManager.version st) eqn:E; simpl.
  - split; [done|]. split; [|done]. rewrite E. by eexists.
  - split; [done|]. right. eauto.
Qed.

(** X9.  A [mark_*] call that raises leaves the state file as it was.
    The exception is a [KeyError], which needs a current state that
    lacks one of the keys, or the [FileSystemError] of a failed
    [save]. *)
Theorem mark_raises_file_kept write_ok mk file_str now sm e :
  fst (apply_mark write_ok mk file_str now sm) = inr e ->
  StateManager.state_file (snd (apply_mark write_ok mk file_str now sm))
    = StateManager.state_file sm
  /\ ((exists k, e = KeyError k /\ ~ has_all_keys (StateManager.current_state sm))
      \/ (e = FileSystemError "Could not save state" /\ write_ok = false)).
Proof.
  destruct sm as [file cs].
  destruct mk; simpl;
    unfold StateManager.mark_completed, StateManager.mark_failed, StateManager.mark_skipped,
      StateManager.save, has_all_keys; simpl.
  - destruct (StateManager.pending cs) eqn:E1; simpl;
      [|intros [= <-]; split; [done|]; left; eexists; split; [done|];
        intros (H & _); by destruct H].
    destruct (StateManager.completed cs) eqn:E2; simpl;
      [|intros [= <-]; split; [done|]; left; eexists; split; [done|];
        intros (_ & H & _); by destruct H].
    destruct (StateManager.failed cs) eqn:E3; simpl;
      [|intros [= <-]; split; [done|]; left; eexists; split; [done|];
        intros (_ & _ & H & _); by destruct H].
    destruct write_ok; simpl; [done|]. intros [= <-]. split; [done|]. by right.
  - destruct (StateManager.pending cs) eqn:E1; simpl;
      [|intros [= <-]; split; [done|]; left; eexists; split; [done|];
        intros (H & _); by destruct H].
    destruct (StateManager.failed cs) eqn:E3; simpl;
      [|intros [= <-]; split; [done|]; left; eexists; split; [done|];
        intros (_ & _ & H & _); by destruct H].
    destruct (StateManager.job_metadata cs) eqn:E4; simpl;
      [|intros [= <-]; split; [done|]; left; eexists; split; [done|];
        intros (_ & _ & _ & _ & H); by destruct H].
    destruct write_ok; simpl; [done|]. intros [= <-]. split; [done|]. by right.
  - destruct (StateManager.pending cs) eqn:E1; simpl;
      [|intros [= <-]; split; [done|]; left; eexists; split; [done|];
        intros (H & _); by destruct H].
    destruct (StateManager.skipped cs) eqn:E3; simpl;
      [|intros [= <-]; split; [done|]; left; eexists; split; [done|];
        intros (_ & _ & _ & H & _); by destruct H].
    destruct (StateManager.job_metadata cs) eqn:E4; simpl;
      [|intros [= <-]; split; [done|]; left; eexists; split; [done|];
        intros (_ & _ & _ & _ & H); by destruct H].
    destruct write_ok; simpl; [done|]. intros [= <-]. split; [done|]. by right.
Qed.

Lemma mark_raises_file_kept_witness :
  StateManager.state_file
    (snd (apply_mark true MarkCompleted fileA 1 (batch_state_manager 0 [fileA])))
    = StateManager.state_file (batch_state_manager 0 [fileA])
  /\ ((exists k, KeyError "completed" = KeyError k
                 /\ ~ has_all_keys (StateManager.current_state (batch_state_manager 0 [fileA])))
      \/ (KeyError "completed" = FileSystemError "Could not save state" /\ true = false)).
Proof.
  exact (mark_raises_file_kept true MarkCompleted fileA 1 (batch_state_manager 0 [fileA])
           (KeyError "completed") eq_refl).
Defined.

(** [if file_str in pending: pending.remove(file_str)] takes out one
    occurrence of the path, the first, and no other entry. *)
Lemma drop_pending_removes_one x l y :
  count_occ String.string_dec (StateManager.drop_pending x l) y
  = (count_occ String.string_dec l y - (if String.string_dec y x then 1 else 0))%nat.
Proof.
  unfold StateManager.drop_pending.
  destruct (existsb (String.eqb x) l) eqn:E.
  - clear E. induction l as [|z l IH]; simpl; [done|].
    destruct (String.eqb z x) eqn:Ez.
    + apply String.eqb_eq in Ez. subst z.
      destruct (String.string_dec x y) as [->|Hne].
      * destruct (String.string_dec y y); [lia|done].
      * destruct (String.string_dec y x); [congruence|lia].
    + apply String.eqb_neq in Ez. simpl. rewrite IH.
      destruct (String.string_dec z y) as [->|Hne]; [|done].
      destruct (String.string_dec y x); [congruence|lia].
  - destruct (String.string_dec y x) as [->|]; [|lia].
    assert (Hc : count_occ String.string_dec l x = 0%nat); [|lia].
    apply count_occ_not_In. intros Hin.
    assert (existsb (String.eqb x) l = true); [|congruence].
    apply existsb_exists. exists x. split; [done|apply String.eqb_refl].
Qed.

Lemma drop_pending_absent x l : ~ In x l -> StateManager.drop_pending x l = l.
Proof.
  intros Hx. unfold StateManager.drop_pending.
  destruct (existsb (String.eqb x) l) eqn:E; [|done].
  apply existsb_exists in E as (y & Hy & Hxy). apply String.eqb_eq in Hxy. by subst.
Qed.

Lemma remove_first_app x l1 l2 :
  ~ In x l1 -> StateManager.remove_first x (l1 ++ x :: l2) = l1 ++ l2.
Proof.
  induction l1 as [|y l1 IH]; simpl; intros Hx.
  - by rewrite String.eqb_refl.
  - destruct (String.eqb y x) eqn:E.
    + apply String.eqb_eq in E. tauto.
    + rewrite IH; [done|tauto].
Qed.

Lemma drop_pending_first x l1 l2 :
  ~ In x l1 -> StateManager.drop_pending x (l1 ++ x :: l2) = l1 ++ l2.
Proof.
  intros Hx. unfold StateManager.drop_pending.
  assert (E : existsb (String.eqb x) (l1 ++ x :: l2) = true).
  { apply existsb_exists. exists x. split; [|apply String.eqb_refl].
    apply in_or_app. right. by left. }
  rewrite E. by apply remove_first_app.
Qed.

Lemma sm_pending_has_all_keys : has_all_keys (StateManager.current_state sm_pending).
Proof. unfold has_all_keys. simpl. repeat split; by eexists. Qed.

Lemma init_has_all_keys file now :
  has_all_keys (StateManager.current_state (StateManager.init file now)).
Proof. unfold has_all_keys. simpl. repeat split; by eexists. Qed.

(** X10.  [mark_completed] on a state with all its keys: it returns and
    saves; [pending] loses the first entry that is the path and nothing
    else (it is as before when the path is not in it); the path is in
    [completed] and is not in [failed]; [skipped] and the stored error
    messages are as before, also for the path itself; for every other
    path [completed] and [failed] are as before. *)
Theorem mark_completed_effect file_str now sm other :
  has_all_keys (StateManager.current_state sm) ->
  let r := StateManager.mark_completed true file_str now sm in
  fst r = inl tt
  /\ StateManager.state_file (snd r) = Some (StateManager.current_state (snd r))
  /\ (~ In file_str (StateManager.get_pending sm) ->
      StateManager.get_pending (snd r) = StateManager.get_pending sm)
  /\ (forall l1 l2, StateManager.get_pending sm = l1 ++ file_str :: l2 ->
        ~ In file_str l1 -> StateManager.get_pending (snd r) = l1 ++ l2)
  /\ StateManager.is_completed file_str (snd r) = true
  /\ StateManager.is_failed file_str (snd r) = false
  /\ StateManager.is_skipped other (snd r) = StateManager.is_skipped other sm
  /\ StateManager.get_error_message other (snd r) = StateManager.get_error_message other sm
  /\ (other <> file_str ->
      StateManager.is_completed other (snd r) = StateManager.is_completed other sm
      /\ StateManager.is_failed other (snd r) = StateManager.is_failed other sm).
Proof.
  intros ([p Hp] & [c Hc] & [f Hf] & [k Hk] & [jm Hjm]). cbv zeta.
  destruct sm as [file cs]. simpl in *.
  unfold StateManager.mark_completed, StateManager.save, StateManager.get_pending,
    StateManager.is_completed, StateManager.is_failed, StateManager.is_skipped,
    StateManager.get_error_message. simpl.
  rewrite Hp. simpl. rewrite Hc. simpl. rewrite Hf. simpl. rewrite Hk, Hjm. simpl.
  split; [done|]. split; [done|].
  split; [apply drop_pending_absent|].
  split; [intros l1 l2 -> Hl1; by apply drop_pending_first|].
  repeat split; try done.
  - apply bool_decide_eq_true. apply elem_of_union. right. by apply elem_of_singleton.
  - apply bool_decide_eq_false. rewrite elem_of_difference, elem_of_singleton. tauto.
  - apply bool_decide_ext. rewrite elem_of_union, elem_of_singleton. tauto.
  - apply bool_decide_ext. rewrite elem_of_difference, elem_of_singleton. tauto.
Qed.

Lemma mark_completed_effect_witness :
  let r := StateManager.mark_completed true fileA 1 sm_pending in
  fst r = inl tt
  /\ StateManager.state_file (snd r) = Some (StateManager.current_state (snd r))
  /\ StateManager.get_pending (snd r) = [fileB; fileA]
  /\ StateManager.is_completed fileA (snd r) = true
  /\ StateManager.is_failed fileA (snd r) = false.
Proof.
  cbv zeta.
  destruct (mark_completed_effect fileA 1 sm_pending fileB sm_pending_has_all_keys)
    as (H1 & H2 & _ & H3 & H4 & H5 & _).
  split; [exact H1|]. split; [exact H2|]. split; [|split; [exact H4|exact H5]].
  apply (H3 [fileB] [fileA] eq_refl). intros [H|[]]. discriminate H.
Defined.

(** X11.  [mark_failed] on a state with all its keys: it returns and
    saves; [pending] loses the first entry that is the path and nothing
    else (it is as before when the path is not in it); the path is in
    [failed], and its error message is the one given; [completed] and
    [skipped] are as before, also for the path itself; for every other
    path [failed] and the error message are as before. *)
Theorem mark_failed_effect file_str error now sm other :
  has_all_keys (StateManager.current_state sm) ->
  let r := StateManager.mark_failed true file_str error now sm in
  fst r = inl tt
  /\ StateManager.state_file (snd r) = Some (StateManager.current_state (snd r))
  /\ (~ In file_str (StateManager.get_pending sm) ->
      StateManager.get_pending (snd r) = StateManager.get_pending sm)
  /\ (forall l1 l2, StateManager.get_pending sm = l1 ++ file_str :: l2 ->
        ~ In file_str l1 -> StateManager.get_pending (snd r) = l1 ++ l2)
  /\ StateManager.is_failed file_str (snd r) = true
  /\ StateManager.get_error_message file_str (snd r) = Some error
  /\ StateManager.is_completed other (snd r) = StateManager.is_completed other sm
  /\ StateManager.is_skipped other (snd r) = StateManager.is_skipped other sm
  /\ (other <> file_str ->
      StateManager.is_failed other (snd r) = StateManager.is_failed other sm
      /\ StateManager.get_error_message other (snd r)
         = StateManager.get_error_message other sm).
Proof.
  intros ([p Hp] & [c Hc] & [f Hf] & [k Hk] & [jm Hjm]). cbv zeta.
  destruct sm as [file cs]. simpl in *.
  unfold StateManager.mark_failed, StateManager.save, StateManager.get_pending,
    StateManager.is_completed, StateManager.is_failed, StateManager.is_skipped,
    StateManager.get_error_message. simpl.
  rewrite Hp. simpl. rewrite Hf. simpl. rewrite Hjm. simpl. rewrite Hc, Hk. simpl.
  split; [done|]. split; [done|].
  split; [apply drop_pending_absent|].
  split; [intros l1 l2 -> Hl1; by apply drop_pending_first|].
  repeat split; try done.
  - apply bool_decide_eq_true. apply elem_of_union. right. by apply elem_of_singleton.
  - by rewrite lookup_insert_eq.
  - apply bool_decide_ext. rewrite elem_of_union, elem_of_singleton. tauto.
  - by rewrite lookup_insert_ne.
Qed.

Lemma mark_failed_effect_witness :
  let r := StateManager.mark_failed true fileA "FFmpeg error" 1 sm_pending in
  fst r = inl tt
  /\ StateManager.get_pending (snd r) = [fileB; fileA]
  /\ StateManager.is_failed fileA (snd r) = true
  /\ StateManager.get_error_message fileA (snd r) = Some "FFmpeg error"
  /\ StateManager.is_failed fileB (snd r) = StateManager.is_failed fileB sm_pending.
Proof.
  cbv zeta.
  destruct (mark_failed_effect fileA "FFmpeg error" 1 sm_pending fileB sm_pending_has_all_keys)
    as (H1 & _ & _ & H3 & H4 & H5 & _ & _ & H8).
  destruct H8 as [H8 _]; [discriminate|].
  split; [exact H1|]. split; [|split; [exact H4|split; [exact H5|exact H8]]].
  apply (H3 [fileB] [fileA] eq_refl). intros [H|[]]. discriminate H.
Defined.

(** X12.  [mark_skipped] on a state with all its keys: it returns and
    saves; [pending] loses the first entry that is the path and nothing
    else (it is as before when the path is not in it); the path is in
    [skipped]; [completed], [failed] and the error messages are as
    before, also for the path itself; for every other path [skipped] is
    as before. *)
Theorem mark_skipped_effect file_str reason now sm other :
  has_all_keys (StateManager.current_state sm) ->
  let r := StateManager.mark_skipped true file_str reason now sm in
  fst r = inl tt
  /\ StateManager.state_file (snd r) = Some (StateManager.current_state (snd r))
  /\ (~ In file_str (StateManager.get_pending sm) ->
      StateManager.get_pending (snd r) = StateManager.get_pending sm)
  /\ (forall l1 l2, StateManager.get_pending sm = l1 ++ file_str :: l2 ->
        ~ In file_str l1 -> StateManager.get_pending (snd r) = l1 ++ l2)
  /\ StateManager.is_skipped file_str (snd r) = true
  /\ StateManager.is_completed other (snd r) = StateManager.is_completed other sm
  /\ StateManager.is_failed other (snd r) = StateManager.is_failed other sm
  /\ StateManager.get_error_message other (snd r) = StateManager.get_error_message other sm
  /\ (other <> file_str ->
      StateManager.is_skipped other (snd r) = StateManager.is_skipped other sm).
Proof.
  intros ([p Hp] & [c Hc] & [f Hf] & [k Hk] & [jm Hjm]). cbv zeta.
  destruct sm as [file cs]. simpl in *.
  unfold StateManager.mark_skipped, StateManager.save, StateManager.get_pending,
    StateManager.is_completed, StateManager.is_failed, StateManager.is_skipped,
    StateManager.get_error_message. simpl.
  rewrite Hp. simpl. rewrite Hk. simpl. rewrite Hjm. simpl. rewrite Hc, Hf. simpl.
  split; [done|]. split; [done|].
  split; [apply drop_pending_absent|].
  split; [intros l1 l2 -> Hl1; by apply drop_pending_first|].
  repeat split; try done.
  - apply bool_decide_eq_true. apply elem_of_union. right. by apply elem_of_singleton.
  - intros Hne. apply bool_decide_ext. rewrite elem_of_union, elem_of_singleton. tauto.
Qed.

Lemma mark_skipped_effect_witness :
  let r := StateManager.mark_skipped true fileA "output larger" 1 sm_pending in
  fst r = inl tt
  /\ StateManager.get_pending (snd r) = [fileB; fileA]
  /\ StateManager.is_skipped fileA (snd r) = true
  /\ StateManager.is_skipped fileB (snd r) = StateManager.is_skipped fileB sm_pending.
Proof.
  cbv zeta.
  destruct (mark_skipped_effect fileA "output larger" 1 sm_pending fileB
              sm_pending_has_all_keys)
    as (H1 & _ & _ & H3 & H4 & _ & _ & _ & H8).
  specialize (H8 ltac:(discriminate)).
  split; [exact H1|]. split; [|split; [exact H4|exact H8]].
  apply (H3 [fileB] [fileA] eq_refl). intros [H|[]]. discriminate H.
Defined.

(** X13.  [completed] and [failed] are not kept disjoint.  A path marked
    completed and then failed is in both sets; marked failed and then
    completed it is in [completed] only, and its error message stays in
    the metadata. *)
Theorem completed_and_failed_not_exclusive file_str error t1 t2 sm :
  has_all_keys (StateManager.current_state sm) ->
  let completed_first :=
    snd (StateManager.mark_failed true file_str error t2
           (snd (StateManager.mark_completed true file_str t1 sm))) in
  let failed_first :=
    snd (StateManager.mark_completed true file_str t2
           (snd (StateManager.mark_failed true file_str error t1 sm))) in
  StateManager.is_completed file_str completed_first = true
  /\ StateManager.is_failed file_str completed_first = true
  /\ StateManager.is_completed file_str failed_first = true
  /\ StateManager.is_failed file_str failed_first = false
  /\ StateManager.get_error_message file_str failed_first = Some error.
Proof.
  intros ([p Hp] & [c Hc] & [f Hf] & [k Hk] & [jm Hjm]). cbv zeta.
  destruct sm as [file cs]. simpl in *.
  unfold StateManager.mark_completed, StateManager.mark_failed, StateManager.save,
    StateManager.is_completed, StateManager.is_failed, StateManager.get_error_message.
  simpl.
  repeat (first [rewrite Hp | rewrite Hc | rewrite Hf | rewrite Hk | rewrite Hjm]; simpl).
  repeat split.
  - apply bool_decide_eq_true. apply elem_of_union. right. by apply elem_of_singleton.
  - apply bool_decide_eq_true. apply elem_of_union. right. by apply elem_of_singleton.
  - apply bool_decide_eq_true. apply elem_of_union. right. by apply elem_of_singleton.
  - apply bool_decide_eq_false. rewrite elem_of_difference, elem_of_singleton. tauto.
  - by rewrite lookup_insert_eq.
Qed.

Lemma completed_and_failed_not_exclusive_witness :
  let sm := StateManager.init None 0 in
  let completed_first :=
    snd (StateManager.mark_failed true fileA "late error" 2
           (snd (StateManager.mark_completed true fileA 1 sm))) in
  StateManager.is_completed fileA completed_first = true
  /\ StateManager.is_failed fileA completed_first = true.
Proof.
  cbv zeta.
  destruct (completed_and_failed_not_exclusive fileA "late error" 1 2 (StateManager.init None 0)
              (init_has_all_keys None 0))
    as (H1 & H2 & _).
  split; assumption.
Defined.

(** X14.  [clear] saves a default state, which [load] then gives back:
    nothing pending, all four counts of [get_statistics] zero.  After
    [delete] there is no file, [load] answers [None], and the current
    state is a default state. *)
Theorem clear_and_delete now sm :
  let cleared := StateManager.clear true now sm in
  let deleted := StateManager.delete now sm in
  fst cleared = inl tt
  /\ StateManager.load (snd cleared)
     = (Some (StateManager.current_state (snd cleared)), snd cleared)
  /\ StateManager.version (StateManager.current_state (snd cleared)) = Some 1
  /\ StateManager.get_pending (snd cleared) = []
  /\ StateManager.get_statistics (snd cleared) = StateManager.mkStateStatistics 0 0 0 0
  /\ StateManager.load deleted = (None, deleted)
  /\ StateManager.get_statistics deleted = StateManager.mkStateStatistics 0 0 0 0.
Proof. cbv zeta. repeat split; reflexivity. Qed.

(** X15.  The state dict that [_execute_conversions] saves has the keys
    ['pending'] and ['timestamp'] only.  [load] rejects it for want of
    a ['version'], answering [None].  On it each of [mark_completed],
    [mark_failed] and [mark_skipped] raises [KeyError] for its own set,
    after it has taken the first entry that is the path out of the
    in-memory [pending] list (which is as before when the path is not in
    it); the file is left as it was, and the path is recorded in none of
    the three sets. *)
Theorem batch_state_unusable now paths sm0 mk file_str t1 :
  let sm := snd (StateManager.save true
                   (Some (StateManager.mkStateDict None None None (Some paths)
                            None None None None (Some now)))
                   now sm0) in
  let r := apply_mark true mk file_str t1 sm in
  sm = batch_state_manager now paths
  /\ StateManager.load sm = (None, sm)
  /\ StateManager.get_pending sm = paths
  /\ fst r = inr (KeyError (missing_key mk))
  /\ StateManager.state_file (snd r) = Some (saved_batch_state now paths)
  /\ (~ In file_str paths -> StateManager.get_pending (snd r) = paths)
  /\ (forall l1 l2, paths = l1 ++ file_str :: l2 -> ~ In file_str l1 ->
        StateManager.get_pending (snd r) = l1 ++ l2)
  /\ StateManager.is_completed file_str (snd r) = false
  /\ StateManager.is_failed file_str (snd r) = false
  /\ StateManager.is_skipped file_str (snd r) = false.
Proof.
  cbv zeta. do 3 (split; [reflexivity|]).
  destruct mk; (split; [reflexivity|]); (split; [reflexivity|]);
    (split; [apply drop_pending_absent|]);
    (split; [intros l1 l2 -> Hl1; by apply drop_pending_first|]);
    repeat split; reflexivity.
Qed.

(** ** The pool and its workers *)

Lemma first_idle_spec ws : forall k w,
  WorkerPool.first_idle k ws = Some w ->
  (k <= w)%nat
  /\ (exists m, ws !! (w - k)%nat = Some m /\ Worker.is_busy m = false)
  /\ (forall j m, (j < w - k)%nat -> ws !! j = Some m -> Worker.is_busy m = true).
Proof.
  induction ws as [|m ws IH]; intros k w; simpl; [done|].
  destruct (Worker.is_busy m) eqn:Hb.
  - intros H. destruct (IH _ _ H) as (Hle & (m' & Hm' & Hb') & Hlt).
    split; [lia|]. replace (w - k)%nat with (S (w - S k)) by lia. simpl.
    split; [eauto|]. intros [|j] mj Hj; simpl; [congruence|]. apply Hlt. lia.
  - intros [= <-]. split; [lia|]. rewrite Nat.sub_diag. simpl.
    split; [eauto|]. intros j mj Hj. lia.
Qed.

Lemma first_idle_none ws : forall k,
  WorkerPool.first_idle k ws = None <-> Forall (fun m => Worker.is_busy m = true) ws.
Proof.
  induction ws as [|m ws IH]; intros k; simpl.
  - split; [constructor|done].
  - destruct (Worker.is_busy m) eqn:Hb.
    + rewrite IH. split; [by constructor|]. by inversion 1.
    + split; [done|]. inversion 1. congruence.
Qed.

Lemma filter_length_insert {A} (P : A -> bool) (l : list A) : forall i x y,
  l !! i = Some x ->
  (length (List.filter P (<[i := y]> l)) + (if P x then 1 else 0)
   = length (List.filter P l) + (if P y then 1 else 0))%nat.
Proof.
  induction l as [|a l IH]; intros [|i] x y; simpl; try done.
  - intros [= ->]. destruct (P x), (P y); simpl; lia.
  - intros H. specialize (IH i x y H). destruct (P a); simpl; lia.
Qed.

Lemma filter_length_set_status i st l tk :
  l !! i = Some tk ->
  (length (List.filter is_running (WorkerPool.set_status i st l))
   + (if is_running tk then 1 else 0)
   = length (List.filter is_running l)
     + (match st with WorkerPool.Running _ => 1 | _ => 0 end))%nat.
Proof.
  unfold WorkerPool.set_status. revert i. induction l as [|a l IH]; intros [|i]; simpl; try done.
  - intros [= ->]. unfold is_running at 1. simpl.
    destruct st, (is_running tk); simpl; lia.
  - intros H. specialize (IH i H). change (list_alter ?f i l) with (alter f i l).
    destruct (is_running a); simpl; lia.
Qed.

Lemma filter_length_le {A} (P : A -> bool) (l : list A) :
  (length (List.filter P l) <= length l)%nat.
Proof. induction l as [|a l IH]; simpl; [done|]. destruct (P a); simpl; lia. Qed.

Lemma pool_inv_resolve i r p tk :
  WorkerPool.tasks p !! i = Some tk ->
  WorkerPool.t_status tk = WorkerPool.Waiting ->
  pool_inv p -> pool_inv (WorkerPool.resolve i r p).
Proof.
  intros Htk Hst (Hlen & Hbusy & Hinj & Hcnt).
  assert (Hsub : forall j w, runs_on (WorkerPool.resolve i r p) j w -> runs_on p j w).
  { unfold runs_on, WorkerPool.status_of. simpl. intros j w.
    rewrite status_of_set_status. case_decide; [|done].
    subst j. rewrite Htk. done. }
  split; [done|]. split; [|split].
  - intros j w Hj. apply (Hbusy j w). by apply Hsub.
  - intros j k w Hj Hk. apply (Hinj j k w); by apply Hsub.
  - unfold running_tasks, busy_workers in *. simpl.
    pose proof (filter_length_set_status i (WorkerPool.Finished r) _ tk Htk) as Hf.
    unfold is_running at 2 in Hf. rewrite Hst in Hf. lia.
Qed.

Lemma step_pool_inv p e : pool_inv p -> pool_inv (WorkerPool.step p e).
Proof.
  intros Hinv. destruct e as [v a|i|i out pt now|]; simpl.
  - destruct Hinv as (Hlen & Hbusy & Hinj & Hcnt).
    assert (Hsub : forall j w, runs_on (snd (WorkerPool.submit v a p)) j w -> runs_on p j w).
    { unfold runs_on, WorkerPool.status_of. simpl. intros j w.
      rewrite lookup_app. destruct (WorkerPool.tasks p !! j); [done|].
      destruct (j - length (WorkerPool.tasks p))%nat as [|k]; simpl; done. }
    split; [done|]. split; [|split].
    + intros j w Hj. apply (Hbusy j w). by apply Hsub.
    + intros j k w Hj Hk. apply (Hinj j k w); by apply Hsub.
    + unfold running_tasks, busy_workers in *. simpl.
      rewrite List.filter_app, length_app. simpl. lia.
  - unfold WorkerPool.poll.
    destruct (WorkerPool.tasks p !! i) as [tk|] eqn:Htk; [|done].
    destruct (WorkerPool.t_status tk) eqn:Hst; try done.
    unfold WorkerPool._get_available_worker.
    destruct (WorkerPool.shutdown_event p) eqn:Hsd.
    { destruct (WorkerPool.workers p); by eapply pool_inv_resolve. }
    destruct (WorkerPool.first_idle 0 (WorkerPool.workers p)) as [w|] eqn:Hfi; [|done].
    destruct (first_idle_spec _ _ _ Hfi) as (_ & (m & Hm & Hidle) & _).
    rewrite Nat.sub_0_r in Hm. rewrite Hm.
    destruct Hinv as (Hlen & Hbusy & Hinj & Hcnt).
    assert (Hsub : forall j w',
      runs_on (WorkerPool.mkPool (WorkerPool.max_workers p)
                 (<[w := Worker.process_begin (WorkerPool.t_video_path tk) m]>
                    (WorkerPool.workers p))
                 (WorkerPool.set_status i (WorkerPool.Running w) (WorkerPool.tasks p))
                 (WorkerPool.shutdown_event p) (WorkerPool.started_log p ++ [i])
                 (WorkerPool.finished_log p)) j w' ->
      (j = i /\ w' = w) \/ (j <> i /\ w' <> w /\ runs_on p j w')).
    { unfold runs_on, WorkerPool.status_of. simpl. intros j w'.
      rewrite status_of_set_status. case_decide.
      - subst j. rewrite Htk. simpl. intros [= <-]. by left.
      - intros Hj. right. split; [done|]. split; [|done]. intros ->.
        destruct (Hbusy j w Hj) as (m' & Hm' & Hb'). congruence. }
    split; [|split; [|split]].
    + simpl. by rewrite length_insert.
    + intros j w' Hj. simpl. destruct (Hsub j w' Hj) as [[-> ->]|(Hne & Hnw & Hr)].
      * exists (Worker.process_begin (WorkerPool.t_video_path tk) m). split; [|done].
        apply list_lookup_insert_eq. by eapply lookup_lt_Some.
      * destruct (Hbusy j w' Hr) as (m' & Hm' & Hb'). exists m'.
        split; [|done]. by rewrite list_lookup_insert_ne.
    + intros j k w' Hj Hk.
      destruct (Hsub j w' Hj) as [[-> ->]|(Hne & Hnw & Hr)];
        destruct (Hsub k _ Hk) as [[-> Hw]|(Hne' & Hnw' & Hr')]; try done.
      by apply (Hinj j k w').
    + unfold running_tasks, busy_workers in *. simpl.
      pose proof (filter_length_set_status i (WorkerPool.Running w) _ tk Htk) as Hf.
      unfold is_running at 2 in Hf. rewrite Hst in Hf.
      pose proof (filter_length_insert Worker.is_busy (WorkerPool.workers p) w m
                    (Worker.process_begin (WorkerPool.t_video_path tk) m) Hm) as Hg.
      rewrite Hidle in Hg. simpl in Hg. lia.
  - unfold WorkerPool.encoder_done.
    destruct (WorkerPool.tasks p !! i) as [tk|] eqn:Htk; [|done].
    destruct (WorkerPool.t_status tk) eqn:Hst; try done.
    destruct (WorkerPool.workers p !! w) as [m|] eqn:Hm; [|done].
    pose proof (process_end_clears out pt now m) as [Hclr _].
    destruct (Worker.process_end out pt now m) as [r m']. simpl in Hclr.
    destruct Hinv as (Hlen & Hbusy & Hinj & Hcnt).
    assert (Hi : runs_on p i w).
    { unfold runs_on, WorkerPool.status_of. rewrite Htk. simpl. by rewrite Hst. }
    assert (Hsub : forall j w',
      runs_on (WorkerPool.mkPool (WorkerPool.max_workers p) (<[w := m']> (WorkerPool.workers p))
                 (WorkerPool.set_status i (WorkerPool.Finished r) (WorkerPool.tasks p))
                 (WorkerPool.shutdown_event p) (WorkerPool.started_log p)
                 (WorkerPool.finished_log p ++ [i])) j w' ->
      j <> i /\ w' <> w /\ runs_on p j w').
    { unfold runs_on, WorkerPool.status_of. simpl. intros j w'.
      rewrite status_of_set_status. case_decide.
      - subst j. rewrite Htk. done.
      - intros Hj. split; [done|]. split; [|done]. intros ->.
        apply H. by apply (Hinj i j w). }
    split; [|split; [|split]].
    + simpl. by rewrite length_insert.
    + intros j w' Hj. simpl. destruct (Hsub j w' Hj) as (Hne & Hnw & Hr).
      destruct (Hbusy j w' Hr) as (mj & Hmj & Hb). exists mj.
      split; [|done]. by rewrite list_lookup_insert_ne.
    + intros j k w' Hj Hk.
      destruct (Hsub j w' Hj) as (_ & _ & Hr). destruct (Hsub k w' Hk) as (_ & _ & Hr').
      by apply (Hinj j k w').
    + unfold running_tasks, busy_workers in *. simpl.
      pose proof (filter_length_set_status i (WorkerPool.Finished r) _ tk Htk) as Hf.
      unfold is_running at 2 in Hf. rewrite Hst in Hf.
      pose proof (filter_length_insert Worker.is_busy (WorkerPool.workers p) w m m' Hm) as Hg.
      destruct (Hbusy i w Hi) as (m0 & Hm0 & Hb0).
      assert (m0 = m) by congruence. subst m0.
      rewrite Hb0, Hclr in Hg. lia.
  - destruct Hinv as (Hlen & Hbusy & Hinj & Hcnt). by repeat split.
Qed.

Lemma run_events_pool_inv evs : forall p,
  pool_inv p -> pool_inv (WorkerPool.run_events evs p).
Proof.
  induction evs as [|e evs IH]; intros p H; simpl; [done|].
  apply IH. by apply step_pool_inv.
Qed.

Lemma init_pool_inv ae cc n : pool_inv (WorkerPool.init ae cc n).
Proof.
  split; [|split; [|split]].
  - simpl. by rewrite length_map, length_seq.
  - unfold runs_on, WorkerPool.status_of. simpl. done.
  - unfold runs_on, WorkerPool.status_of. simpl. done.
  - unfold running_tasks, busy_workers. simpl.
    induction (seq 0 n) as [|k l IH]; simpl; [done|]. exact IH.
Qed.

Lemma step_max_workers p e :
  WorkerPool.max_workers (WorkerPool.step p e) = WorkerPool.max_workers p.
Proof.
  destruct e as [v a|i|i out pt now|]; simpl; try done.
  - unfold WorkerPool.poll. destruct (WorkerPool.tasks p !! i) as [tk|]; [|done].
    destruct (WorkerPool.t_status tk); try done.
    destruct (WorkerPool._get_available_worker p); try done.
    destruct (WorkerPool.shutdown_event p); [done|].
    destruct (WorkerPool.workers p !! w); done.
  - unfold WorkerPool.encoder_done. destruct (WorkerPool.tasks p !! i) as [tk|]; [|done].
    destruct (WorkerPool.t_status tk); try done.
    destruct (WorkerPool.workers p !! w) as [m|]; [|done].
    by destruct (Worker.process_end out pt now m).
Qed.

Lemma run_events_max_workers evs ae cc n :
  WorkerPool.max_workers (WorkerPool.run_events evs (WorkerPool.init ae cc n)) = n.
Proof.
  change n with (WorkerPool.max_workers (WorkerPool.init ae cc n)) at 2.
  generalize (WorkerPool.init ae cc n).
  induction evs as [|e evs IH]; intros q; simpl; [done|].
  rewrite IH. apply step_max_workers.
Qed.

(** X16.  The concurrency bound.  In every state a pool of [n] workers
    reaches, by any sequence of submissions, polls, encoder completions
    and shutdowns: at most [n] tasks are inside [Worker.process]; their
    number is the [busy_workers] of [get_metrics], which with
    [idle_workers] adds up to [total_workers], none of them negative;
    no two running tasks share a worker, and the worker of a running
    task is busy. *)
Theorem pool_never_exceeds_capacity ae cc n evs :
  let p := WorkerPool.run_events evs (WorkerPool.init ae cc n) in
  (running_tasks p <= n)%nat
  /\ WorkerPool.m_busy_workers (WorkerPool.get_metrics p) = Z.of_nat (running_tasks p)
  /\ WorkerPool.m_busy_workers (WorkerPool.get_metrics p)
     + WorkerPool.m_idle_workers (WorkerPool.get_metrics p)
     = WorkerPool.m_total_workers (WorkerPool.get_metrics p)
  /\ 0 <= WorkerPool.m_idle_workers (WorkerPool.get_metrics p)
  /\ (forall i j w, runs_on p i w -> runs_on p j w -> i = j)
  /\ (forall i w, runs_on p i w ->
        exists m, WorkerPool.workers p !! w = Some m /\ Worker.is_busy m = true).
Proof.
  cbv zeta.
  destruct (run_events_pool_inv evs _ (init_pool_inv ae cc n)) as (Hlen & Hbusy & Hinj & Hcnt).
  set (p := WorkerPool.run_events evs (WorkerPool.init ae cc n)) in *.
  assert (Hmax : WorkerPool.max_workers p = n) by apply run_events_max_workers.
  pose proof (filter_length_le Worker.is_busy (WorkerPool.workers p)) as Hle.
  unfold running_tasks, busy_workers in *. unfold WorkerPool.get_metrics. simpl.
  rewrite Hcnt. repeat split; try done; try lia.
Qed.

(** [_get_available_worker]: the idle worker with the lowest index while
    the pool is not shutting down, a sleep when every worker is busy;
    after shutdown the first worker, or [IndexError] on an empty pool. *)
Lemma get_available_worker_lowest_idle p :
  match WorkerPool._get_available_worker p with
  | WorkerPool.Found w =>
      if WorkerPool.shutdown_event p then w = 0%nat
      else (exists m, WorkerPool.workers p !! w = Some m /\ Worker.is_busy m = false)
           /\ (forall j m, (j < w)%nat -> WorkerPool.workers p !! j = Some m ->
                 Worker.is_busy m = true)
  | WorkerPool.Sleep =>
      WorkerPool.shutdown_event p = false
      /\ Forall (fun m => Worker.is_busy m = true) (WorkerPool.workers p)
  | WorkerPool.Fail e =>
      e = IndexError /\ WorkerPool.shutdown_event p = true /\ WorkerPool.workers p = []
  end.
Proof.
  unfold WorkerPool._get_available_worker.
  destruct (WorkerPool.shutdown_event p).
  - destruct (WorkerPool.workers p); done.
  - destruct (WorkerPool.first_idle 0 (WorkerPool.workers p)) as [w|] eqn:E.
    + destruct (first_idle_spec _ _ _ E) as (_ & Hm & Hlt). rewrite Nat.sub_0_r in *. done.
    + split; [done|]. by apply (first_idle_none _ 0%nat).
Qed.

(** [_set_cpu_affinity]: the cores of a worker are cores of the
    machine, without repetition, at most [max(1, cores // workers)] of
    them. *)
Lemma cpu_affinity_in_range cpu_count concurrent id :
  Forall (fun c => (c < physical_cores cpu_count)%nat)
    (Worker._set_cpu_affinity cpu_count concurrent id)
  /\ (length (Worker._set_cpu_affinity cpu_count concurrent id)
      <= Nat.max 1 (physical_cores cpu_count / concurrent))%nat
  /\ NoDup (Worker._set_cpu_affinity cpu_count concurrent id).
Proof.
  unfold Worker._set_cpu_affinity.
  change (match cpu_count with Some (S n) => S n | _ => 1%nat end)
    with (physical_cores cpu_count).
  destruct (concurrent =? 0)%nat; [repeat split; [constructor|simpl; lia|constructor]|].
  split; [|split].
  - apply List.Forall_forall. intros c Hc. apply in_seq in Hc. lia.
  - rewrite length_seq. lia.
  - apply NoDup_seq.
Qed.

(** X17.  CPU affinity with no more workers than physical cores:
    worker [i] gets the [cores // workers] cores from
    [i * (cores // workers)] on, a non-empty list, and every core of a
    worker lies below every core of a worker with a higher id, so no
    core is shared. *)
Theorem cpu_affinity_partition cpus concurrent i j :
  (1 <= concurrent <= cpus)%nat ->
  (i < j < concurrent)%nat ->
  Worker._set_cpu_affinity (Some cpus) concurrent i
    = seq (i * (cpus / concurrent)) (cpus / concurrent)
  /\ Worker._set_cpu_affinity (Some cpus) concurrent i <> []
  /\ Forall (fun c => Forall (fun d => (c < d)%nat)
                        (Worker._set_cpu_affinity (Some cpus) concurrent j))
       (Worker._set_cpu_affinity (Some cpus) concurrent i).
Proof.
  intros Hc Hij.
  assert (Hq : (1 <= cpus / concurrent)%nat) by (apply Nat.div_le_lower_bound; lia).
  assert (Hm : (concurrent * (cpus / concurrent) <= cpus)%nat) by (apply Nat.Div0.mul_div_le).
  assert (Hform : forall k, (k < concurrent)%nat ->
            Worker._set_cpu_affinity (Some cpus) concurrent k
            = seq (k * (cpus / concurrent)) (cpus / concurrent)).
  { intros k Hk. unfold Worker._set_cpu_affinity.
    destruct (concurrent =? 0)%nat eqn:E; [apply Nat.eqb_eq in E; lia|].
    destruct cpus as [|n]; [lia|].
    set (q := (S n / concurrent)%nat) in *.
    rewrite (Nat.max_r 1 q) by lia.
    assert (Hk' : (k * q + q <= S n)%nat) by nia.
    rewrite (Nat.mod_small (k * q) (S n)) by lia.
    rewrite Nat.min_l by lia. f_equal. lia. }
  rewrite (Hform i) by lia. rewrite (Hform j) by lia.
  split; [done|]. split.
  - destruct (cpus / concurrent)%nat; [lia|done].
  - apply List.Forall_forall. intros c Hc'. apply List.Forall_forall. intros d Hd.
    apply in_seq in Hc', Hd. nia.
Qed.

Lemma cpu_affinity_partition_witness :
  Worker._set_cpu_affinity (Some 8%nat) 4 1 = seq (1 * (8 / 4)) (8 / 4)
  /\ Forall (fun c => Forall (fun d => (c < d)%nat)
                        (Worker._set_cpu_affinity (Some 8%nat) 4 2))
       (Worker._set_cpu_affinity (Some 8%nat) 4 1).
Proof.
  destruct (cpu_affinity_partition 8 4 1 2) as (H1 & _ & H3).
  - lia.
  - lia.
  - split; assumption.
Defined.

(** More workers than cores: each worker gets one core, and two workers
    whose ids differ by the number of cores get the same one. *)
Lemma cpu_affinity_oversubscribed cpus concurrent id :
  (1 <= cpus < concurrent)%nat ->
  Worker._set_cpu_affinity (Some cpus) concurrent id = [(id mod cpus)%nat]
  /\ Worker._set_cpu_affinity (Some cpus) concurrent (id + cpus)
     = Worker._set_cpu_affinity (Some cpus) concurrent id.
Proof.
  intros Hc.
  assert (Hform : forall k, Worker._set_cpu_affinity (Some cpus) concurrent k
                            = [(k mod cpus)%nat]).
  { intros k. unfold Worker._set_cpu_affinity.
    destruct (concurrent =? 0)%nat eqn:E; [apply Nat.eqb_eq in E; lia|].
    destruct cpus as [|n]; [lia|].
    rewrite (Nat.div_small (S n) concurrent) by lia. simpl Nat.max.
    rewrite Nat.mul_1_r.
    pose proof (Nat.mod_upper_bound k (S n)) as Hlt.
    rewrite Nat.min_l by lia.
    replace (k mod S n + 1 - k mod S n)%nat with 1%nat by lia. done. }
  rewrite !Hform. split; [done|].
  rewrite <- (Nat.Div0.add_mod_idemp_r id cpus cpus), Nat.Div0.mod_same, Nat.add_0_r. done.
Qed.

(** X18.  One call of [Worker.process].  The worker ends idle with no
    current task, its id and cores unchanged.  A returned value comes
    from a return of the encoder, counted as completed with its time
    added, or is [None] after an [Exception] of the encoder, counted as
    failed with time and last-task time unchanged; an exception leaves
    [process] only when it is not an [Exception], and then no counter
    moves. *)
Theorem process_accounting video_path out pt now m :
  let r := Worker.process video_path out pt now m in
  Worker.worker_id (snd r) = Worker.worker_id m
  /\ Worker.cpu_affinity (snd r) = Worker.cpu_affinity m
  /\ Worker.is_busy (snd r) = false
  /\ Worker.current_task (snd r) = None
  /\ match fst r with
     | inl res =>
         (out = Returned res
          /\ Worker.tasks_completed (snd r) = Worker.tasks_completed m + 1
          /\ Worker.tasks_failed (snd r) = Worker.tasks_failed m
          /\ Worker.total_processing_time (snd r) = (Worker.total_processing_time m + pt)%Q
          /\ Worker.last_task_time (snd r) = Some now)
         \/ (exists e, out = Raised e /\ is_Exception e = true /\ res = None
              /\ Worker.tasks_completed (snd r) = Worker.tasks_completed m
              /\ Worker.tasks_failed (snd r) = Worker.tasks_failed m + 1
              /\ Worker.total_processing_time (snd r) = Worker.total_processing_time m
              /\ Worker.last_task_time (snd r) = Worker.last_task_time m)
     | inr e =>
         out = Raised e /\ is_Exception e = false
         /\ Worker.tasks_completed (snd r) = Worker.tasks_completed m
         /\ Worker.tasks_failed (snd r) = Worker.tasks_failed m
         /\ Worker.total_processing_time (snd r) = Worker.total_processing_time m
     end.
Proof.
  cbv zeta. unfold Worker.process. destruct out as [res|e]; simpl.
  - repeat split; try done. left. done.
  - destruct (is_Exception e) eqn:E; simpl; repeat split; try done.
    right. exists e. done.
Qed.

(** ** The encoder and the conversion decision *)

Lemma on_exception_cases r e :
  exists e', VideoEncoder.on_exception r e = Raised e'
    /\ ((exists msg, e' = ConversionError msg)
        \/ VideoEncoder.cleanup_error r = Some e'
        \/ (is_Exception e' = false /\ e' = e)).
Proof.
  unfold VideoEncoder.on_exception.
  destruct e; simpl; eauto 6;
    destruct (VideoEncoder.cleanup_error r); eauto 6.
Qed.

(** X19.  The outcomes of [convert_video].  What it raises is a
    [ConversionError], or the exception of [_get_output_path] or
    [build_command], which run before the [try], or the exception of
    the removal of the output file in the handler, or an exception of
    the body that is not an [Exception] and so is caught by no clause.
    It returns [None] only with [skip_if_larger] set, for an output
    that is not empty and at least as large as the input, produced by
    an FFmpeg that exited with 0, and removed.  A returned dict has
    [success = True], the output path, the size of the output file,
    which is not 0, and the elapsed time; with [skip_if_larger] set its
    size is below the input's.  An exit code other than 0 gives the
    [ConversionError] that names it, and an [Exception] of the FFmpeg
    process is replaced by a [ConversionError] with its text. *)
Theorem convert_video_outcomes skip_if_larger out_path analysis r :
  match VideoEncoder.convert_video skip_if_larger out_path analysis r with
  | Raised e =>
      (exists msg, e = ConversionError msg)
      \/ VideoEncoder.setup_error r = Some e
      \/ VideoEncoder.cleanup_error r = Some e
      \/ (is_Exception e = false
          /\ (VideoEncoder.spawn_error r = Some e \/ VideoEncoder.exists_error r = Some e
              \/ VideoEncoder.stat_error r = Some e \/ VideoEncoder.unlink_error r = Some e
              \/ VideoEncoder.replace_error r = Some e))
  | Returned None =>
      skip_if_larger = true
      /\ file_size analysis <= VideoEncoder.st_size r
      /\ VideoEncoder.returncode r = 0
      /\ VideoEncoder.output_exists r = true
      /\ VideoEncoder.st_size r <> 0
      /\ VideoEncoder.unlink_error r = None
  | Returned (Some res) =>
      res = mkConvResult out_path (VideoEncoder.st_size r) (VideoEncoder.elapsed r) true
      /\ VideoEncoder.returncode r = 0
      /\ VideoEncoder.output_exists r = true
      /\ VideoEncoder.st_size r <> 0
      /\ (skip_if_larger = false \/ output_size res < file_size analysis)
      /\ VideoEncoder.replace_error r = None
  end
  /\ (VideoEncoder.setup_error r = None -> VideoEncoder.spawn_error r = None ->
      VideoEncoder.returncode r <> 0 ->
      VideoEncoder.convert_video skip_if_larger out_path analysis r
      = Raised (ConversionError
                  ("FFmpeg error (code " +:+ pretty (VideoEncoder.returncode r) +:+ ")")))
  /\ (forall e, VideoEncoder.setup_error r = None -> VideoEncoder.spawn_error r = Some e ->
      is_Exception e = true -> (forall msg, e <> ConversionError msg) ->
      VideoEncoder.cleanup_error r = None ->
      VideoEncoder.convert_video skip_if_larger out_path analysis r
      = Raised (ConversionError ("Conversion failed: " +:+ exn_str e))).
Proof.
  unfold VideoEncoder.convert_video, VideoEncoder.check_output.
  split; [|split].
  - destruct (VideoEncoder.setup_error r) as [e0|] eqn:H0; [eauto|].
    destruct (VideoEncoder.spawn_error r) as [e1|] eqn:H1.
    { destruct (on_exception_cases r e1) as (e' & -> & [?|[?|[? ->]]]); eauto 8. }
    destruct (VideoEncoder.returncode r =? 0) eqn:Hrc; simpl; [|eauto].
    destruct (VideoEncoder.exists_error r) as [e2|] eqn:H2.
    { destruct (on_exception_cases r e2) as (e' & -> & [?|[?|[? ->]]]); eauto 8. }
    destruct (VideoEncoder.output_exists r) eqn:Hex; simpl; [|eauto].
    destruct (VideoEncoder.stat_error r) as [e3|] eqn:H3.
    { destruct (on_exception_cases r e3) as (e' & -> & [?|[?|[? ->]]]); eauto 8. }
    destruct (VideoEncoder.st_size r =? 0) eqn:Hsz.
    { destruct (VideoEncoder.unlink_error r) as [e4|] eqn:H4; [|eauto].
      destruct (on_exception_cases r e4) as (e' & -> & [?|[?|[? ->]]]); eauto 10. }
    destruct (skip_if_larger && (file_size analysis <=? VideoEncoder.st_size r)) eqn:Hskip.
    + apply andb_true_iff in Hskip as [-> Hle].
      destruct (VideoEncoder.unlink_error r) as [e4|] eqn:H4.
      { destruct (on_exception_cases r e4) as (e' & -> & [?|[?|[? ->]]]); eauto 10. }
      repeat split; try done; lia.
    + destruct (VideoEncoder.replace_error r) as [e5|] eqn:H5.
      { destruct (on_exception_cases r e5) as (e' & -> & [?|[?|[? ->]]]); eauto 10. }
      repeat split; try done; try lia.
      apply andb_false_iff in Hskip as [->|Hle]; [by left|right; simpl; lia].
  - intros -> -> Hrc. apply Z.eqb_neq in Hrc. by rewrite Hrc.
  - intros e -> -> He Hne Hcl. unfold VideoEncoder.on_exception. rewrite He, Hcl.
    destruct e; try done. by destruct (Hne msg).
Qed.

(** X20.  The decision of [_needs_conversion].  A file needs
    conversion exactly when its video codec is not the target, or its
    audio codec is neither the target nor ['none'], or its bitrate is
    positive and more than 1.5 times the optimal one for its
    resolution; the container plays no part.  The reason is
    ['already optimal'] exactly when no conversion is needed. *)
Theorem needs_conversion_decision tv ta vc ac container bitrate width height :
  let r := CodecDetector._needs_conversion tv ta vc ac container bitrate width height in
  fst r = CodecDetector.wrong_video_codec tv vc
          || CodecDetector.wrong_audio_codec ta ac
          || CodecDetector.excessive_bitrate bitrate width height
  /\ (fst r = false <-> snd r = "already optimal")
  /\ (fst r = false <->
      vc = tv /\ (ac = ta \/ ac = "none")
      /\ (bitrate <= 0
          \/ 2 * bitrate <= 3 * CodecDetector._calculate_optimal_bitrate width height)).
Proof.
  cbv zeta. unfold CodecDetector._needs_conversion.
  assert (Hiff : CodecDetector.wrong_video_codec tv vc
                 || CodecDetector.wrong_audio_codec ta ac
                 || CodecDetector.excessive_bitrate bitrate width height = false
                 <-> vc = tv /\ (ac = ta \/ ac = "none")
                     /\ (bitrate <= 0
                         \/ 2 * bitrate
                            <= 3 * CodecDetector._calculate_optimal_bitrate width height)).
  { rewrite !orb_false_iff.
    unfold CodecDetector.wrong_video_codec, CodecDetector.wrong_audio_codec,
      CodecDetector.excessive_bitrate.
    rewrite !negb_false_iff, orb_true_iff, andb_false_iff, !String.eqb_eq, !Z.ltb_ge.
    tauto. }
  destruct (CodecDetector.wrong_video_codec tv vc),
           (CodecDetector.wrong_audio_codec ta ac),
           (CodecDetector.excessive_bitrate bitrate width height);
    cbn [app fst snd CodecDetector.join_reasons orb];
    (split; [reflexivity|]); (split; [|exact Hiff]);
    (split; [done|]); cbn [String.append]; intros H; (reflexivity || discriminate H).
Qed.

(** [_calculate_optimal_bitrate] grows with the number of pixels and
    stays between 1.5 and 20 Mbit/s. *)
Lemma optimal_bitrate_steps width height width' height' :
  width * height <= width' * height' ->
  CodecDetector._calculate_optimal_bitrate width height
    <= CodecDetector._calculate_optimal_bitrate width' height'
  /\ 1500000 <= CodecDetector._calculate_optimal_bitrate width height <= 20000000.
Proof.
  unfold CodecDetector._calculate_optimal_bitrate. intros H.
  repeat match goal with
         | |- context [?a <=? ?b] => destruct (Z.leb_spec a b)
         end; lia.
Qed.

(** ** The steps of a run *)

Lemma scan_fold env paths : forall acc w,
  foldM (scan_path env) paths acc w
  = (inl (acc ++ flat_map (scan_one env) paths),
     mkWorld (database w) (state_manager w) (worker_pool w)
       (log w ++ map LogInvalidPath (List.filter (invalid_path env) paths))).
Proof.
  induction paths as [|p paths IH]; intros acc w; simpl.
  - rewrite !app_nil_r. by destruct w.
  - unfold bind at 1. unfold scan_path at 1, scan_one at 1, invalid_path at 1.
    destruct (is_file env p); [destruct (is_video_file env p)|destruct (is_dir env p)];
      unfold bind, say, ret; simpl; rewrite IH; simpl; rewrite <- ?app_assoc; done.
Qed.

(** X21.  [_scan_paths], for a scanner that answers every directory
    with a list: the result is the concatenation, in the order of
    [paths], of what each entry contributes (a file itself when it is a
    video file, a directory its scan, anything else nothing), without
    removal of duplicates; the only effect is a warning for each entry
    that is neither a file nor a directory. *)
Theorem scan_paths_result env paths w :
  _scan_paths env paths w
  = (inl (flat_map (scan_one env) paths),
     mkWorld (database w) (state_manager w) (worker_pool w)
       (log w ++ map LogInvalidPath (List.filter (invalid_path env) paths))).
Proof. apply (scan_fold env paths [] w). Qed.

Lemma chunks_concat {A} (b : nat) (n : nat) : forall l : list A,
  (length l <= n * b)%nat ->
  concat (map (fun k => take b (drop (k * b) l)) (seq 0 n)) = l.
Proof.
  induction n as [|n IH]; intros l Hl.
  - destruct l; simpl in *; (done || lia).
  - rewrite <- cons_seq, <- fmap_S_seq. simpl. rewrite drop_0.
    change (map ?f (S <$> ?l)) with (map f (map S l)). rewrite map_map.
    rewrite (map_ext _ (fun k => take b (drop (k * b) (drop b l)))).
    + rewrite (IH (drop b l)); [apply take_drop|]. rewrite length_drop. lia.
    + intros k. rewrite drop_drop. f_equal; f_equal; lia.
Qed.

(** X22.  The analysis batches partition the file list: concatenated
    in order they give the list back, each has between 1 and
    [batch_size] files, and there are no more of them than needed. *)
Theorem batches_partition (video_files : list string) :
  concat (batches video_files) = video_files
  /\ Forall (fun batch => (1 <= length batch <= batch_size)%nat) (batches video_files)
  /\ (length (batches video_files) * batch_size < length video_files + batch_size)%nat.
Proof.
  unfold batches.
  assert (Hb : (0 < batch_size)%nat) by (unfold batch_size; lia).
  generalize dependent batch_size. intros b Hb.
  set (n := ((length video_files + (b - 1)) / b)%nat).
  assert (Hup : (n * b <= length video_files + (b - 1))%nat).
  { rewrite Nat.mul_comm. apply Nat.Div0.mul_div_le. }
  assert (Hlo : (length video_files <= n * b)%nat).
  { pose proof (Nat.div_mod_eq (length video_files + (b - 1)) b) as Hd.
    pose proof (Nat.mod_upper_bound (length video_files + (b - 1)) b) as Hm.
    fold n in Hd. lia. }
  split; [by apply chunks_concat|]. split.
  - apply List.Forall_forall. intros batch Hin. apply in_map_iff in Hin as (k & <- & Hk).
    apply in_seq in Hk. rewrite length_take, length_drop.
    assert ((k + 1) * b <= n * b)%nat by (apply Nat.mul_le_mono_r; lia). lia.
  - rewrite length_map, length_seq. lia.
Qed.

Lemma insert_by_size_filter s x l :
  List.filter (fun y => file_size (snd y) =? s) (insert_by_size x l)
  = List.filter (fun y => file_size (snd y) =? s) (x :: l).
Proof.
  induction l as [|y l IH]; simpl; [done|].
  destruct (file_size (snd y) <=? file_size (snd x)) eqn:E; simpl; [done|].
  rewrite IH. simpl.
  destruct (file_size (snd x) =? s) eqn:Ex, (file_size (snd y) =? s) eqn:Ey; try done.
  lia.
Qed.

(** X23.  The schedule's sort is stable: files of the same size keep
    the order in which the filter met them. *)
Theorem sort_by_size_desc_stable s l :
  List.filter (fun y => file_size (snd y) =? s) (sort_by_size_desc l)
  = List.filter (fun y => file_size (snd y) =? s) l.
Proof.
  induction l as [|x l IH]; simpl; [done|].
  rewrite insert_by_size_filter. simpl. by rewrite IH.
Qed.

Lemma preview_fold conversions : forall acc w,
  fst (foldM preview_file conversions acc w)
  = if forallb (fun va => negb (file_size (snd va) =? 0)) conversions
    then inl (acc + total_file_size conversions)
    else inr ZeroDivisionError.
Proof.
  induction conversions as [|va conversions IH]; intros acc w; simpl.
  - f_equal. lia.
  - unfold bind at 1. unfold preview_file at 1.
    destruct (file_size (snd va) =? 0); simpl; [done|].
    unfold bind, say, ret. simpl. rewrite IH.
    destruct (forallb _ conversions); [|done]. f_equal. lia.
Qed.

Lemma total_file_size_nonneg conversions :
  Forall (fun va => 0 <= file_size (snd va)) conversions -> 0 <= total_file_size conversions.
Proof. induction 1; simpl; lia. Qed.

(** [_dry_run_preview] on files of non-negative size returns exactly
    when the list is non-empty and every size is positive; otherwise a
    percentage divides by zero. *)
Lemma dry_run_preview_outcome conversions w :
  Forall (fun va => 0 <= file_size (snd va)) conversions ->
  fst (_dry_run_preview conversions w)
  = match conversions with
    | [] => inr ZeroDivisionError
    | _ => if forallb (fun va => 0 <? file_size (snd va)) conversions
           then inl tt else inr ZeroDivisionError
    end.
Proof.
  intros Hnn. unfold _dry_run_preview, bind.
  pose proof (preview_fold conversions 0 w) as Hf.
  destruct (foldM preview_file conversions 0 w) as [r w1]. simpl in Hf. subst r.
  assert (Hsame : forallb (fun va => negb (file_size (snd va) =? 0)) conversions
                  = forallb (fun va => 0 <? file_size (snd va)) conversions).
  { induction Hnn as [|va l Hva Hl IH]; simpl; [done|]. rewrite IH. f_equal.
    destruct (Z.eqb_spec (file_size (snd va)) 0), (Z.ltb_spec 0 (file_size (snd va)));
      simpl; (done || lia). }
  rewrite Hsame. destruct conversions as [|c conversions]; [reflexivity|].
  clear Hsame.
  destruct (forallb _ (c :: conversions)) eqn:Hall; [|done].
  assert (0 < total_file_size (c :: conversions)).
  { simpl in Hall. apply andb_true_iff in Hall as [Hc _]. apply Z.ltb_lt in Hc.
    inversion Hnn; subst. pose proof (total_file_size_nonneg conversions H2). simpl. lia. }
  destruct (0 + total_file_size (c :: conversions) =? 0) eqn:E; [lia|]. done.
Qed.

Lemma print_summary_error start_time t w :
  exists e, fst (_print_summary start_time t w) = inr e.
Proof.
  destruct start_time as [s|]; simpl; [|by eexists].
  destruct (get_statistics_no_fault (database w)) as (stats & Hs & Hk & _).
  unfold bind, on_database, say, subscript. rewrite Hs. simpl. rewrite Hk. simpl. by eexists.
Qed.

(** X24.  [_print_summary] never returns.  Entered through [resume],
    where [start_time] is still [None], it raises [TypeError] at the
    subtraction, before any effect.  With a start time it logs the
    three counts and then raises [KeyError] for ['total_savings'], a
    key the statistics dict does not have; the database is unchanged. *)
Theorem print_summary_raises t w :
  (exists msg, _print_summary None t w = (inr (TypeError msg), w))
  /\ forall s,
       fst (_print_summary (Some s) t w) = inr (KeyError "total_savings")
       /\ database (snd (_print_summary (Some s) t w)) = database w
       /\ log (snd (_print_summary (Some s) t w))
          = log w ++ [LogSummary (successful t) (failed t) (skipped t)].
Proof.
  split; [by eexists|]. intros s. simpl.
  destruct (get_statistics_no_fault (database w)) as (stats & Hs & Hk & _).
  unfold bind, on_database, say, subscript. rewrite Hs. simpl. rewrite Hk. simpl. done.
Qed.

(** X25.  The result loop followed by the summary as the source has it
    never returns a verdict: whatever the gathered results are, an
    exception leaves it, from the loop or from [_print_summary]. *)
Theorem conclude_conversions_never_returns start_time now conversions results w :
  exists e, fst (conclude_conversions start_time now conversions results w) = inr e.
Proof.
  unfold conclude_conversions, bind.
  destruct (foldM (process_result now) (zip conversions results) (mkTally 0 0 0) w)
    as [[t|e] w1]; [|eauto].
  destruct (print_summary_error start_time t w1) as (e & He).
  destruct (_print_summary start_time t w1) as [r w2]. simpl in He. subst r. eauto.
Qed.

Lemma submit_all_handles conversions : forall acc : list nat * WorkerPool.t,
  exists rest,
    fst (fold_left
           (fun (acc : list nat * WorkerPool.t) (va : string * VideoAnalysis) =>
              let (h, p') := WorkerPool.submit (fst va) (snd va) (snd acc) in
              (fst acc ++ [h], p'))
           conversions acc)
    = fst acc ++ rest.
Proof.
  induction conversions as [|va conversions IH]; intros acc; simpl.
  - exists []. by rewrite app_nil_r.
  - destruct (IH (fst acc ++ [length (WorkerPool.tasks (snd acc))],
                  snd (WorkerPool.submit (fst va) (snd va) (snd acc)))) as [rest Hrest].
    simpl in Hrest. exists (length (WorkerPool.tasks (snd acc)) :: rest).
    rewrite Hrest. by rewrite <- app_assoc.
Qed.

Lemma gather_submits_first c conversions p :
  exists rest, fst (gather_submits (c :: conversions) p)
               = PyTask (length (WorkerPool.tasks p)) :: rest.
Proof.
  unfold gather_submits. simpl.
  destruct (submit_all_handles conversions
              ([length (WorkerPool.tasks p)], snd (WorkerPool.submit (fst c) (snd c) p)))
    as [rest Hrest].
  simpl in Hrest.
  destruct (fold_left _ conversions _) as [handles p1]. simpl in *. subst handles.
  simpl. eauto.
Qed.

Lemma execute_conversions_trace start_time env c conversions w :
  let r := _execute_conversions start_time env (c :: conversions) w in
  fst r = inr task_error
  /\ database (snd r) = database w
  /\ StateManager.state_file (state_manager (snd r))
     = Some (saved_batch_state (clock env) (map fst (c :: conversions)))
  /\ StateManager.current_state (state_manager (snd r))
     = saved_batch_state (clock env) (map fst (c :: conversions))
  /\ log (snd r) = log w ++ [LogConversionSuccessful (fst c)].
Proof.
  cbv zeta. unfold _execute_conversions, bind, on_state_manager, on_worker_pool.
  simpl StateManager.save. cbn [fst snd worker_pool database state_manager log].
  destruct (gather_submits_first c conversions (worker_pool w)) as [rest Hrest].
  destruct (gather_submits (c :: conversions) (worker_pool w)) as [results p1].
  simpl in Hrest. subst results.
  unfold conclude_conversions, bind. simpl. done.
Qed.

(** X26.  [_execute_conversions] on a non-empty batch.  The state dict
    with the batch as ['pending'] is saved, every file of the batch is
    submitted to the pool, and the result loop then raises [TypeError]
    at the first result, a task handle: it logs a success for the first
    file, and writes nothing to the database. *)
Theorem execute_conversions_outcome start_time env c conversions w :
  let r := _execute_conversions start_time env (c :: conversions) w in
  fst r = inr task_error
  /\ database (snd r) = database w
  /\ state_manager (snd r) = batch_state_manager (clock env) (map fst (c :: conversions))
  /\ map WorkerPool.t_video_path (WorkerPool.tasks (worker_pool (snd r)))
     = map WorkerPool.t_video_path (WorkerPool.tasks (worker_pool w))
       ++ map fst (c :: conversions)
  /\ log (snd r) = log w ++ [LogConversionSuccessful (fst c)].
Proof.
  cbv zeta.
  destruct (execute_conversions_trace start_time env c conversions w)
    as (Hr & Hd & Hf & Hc & Hl).
  split; [done|]. split; [done|]. split; [|split; [apply execute_conversions_submits|done]].
  unfold batch_state_manager.
  destruct (state_manager (snd (_execute_conversions start_time env (c :: conversions) w)))
    as [f cs].
  simpl in Hf, Hc. by rewrite Hf, Hc.
Qed.

Lemma run_body_selected flags env paths w c batch w1 :
  batch_of flags env paths w = (inl (c :: batch), w1) ->
  run_body flags env paths w
  = (if dry_run flags
     then bind (_dry_run_preview (c :: batch)) (fun _ => ret true)
     else _execute_conversions (Some (clock env)) env (c :: batch)) w1.
Proof.
  unfold batch_of, run_body, bind. intros Hbatch.
  destruct (_scan_paths env paths w) as [[files|e] ws]; [|done].
  destruct files as [|v files].
  { unfold _analyze_videos, batches, filter_step, _filter_conversions in Hbatch.
    simpl in Hbatch. congruence. }
  destruct (_analyze_videos env (v :: files) ws) as [[results|e] wa]; [|done].
  rewrite Hbatch. by destruct (dry_run flags).
Qed.

Lemma load_batch_state now paths sm :
  StateManager.state_file sm = Some (saved_batch_state now paths) ->
  StateManager.load sm = (None, sm).
Proof. unfold StateManager.load. by intros ->. Qed.

Lemma resume_without_state env w :
  fst (StateManager.load (state_manager w)) = None ->
  fst (resume env w) = inl false.
Proof.
  unfold resume. destruct (StateManager.load (state_manager w)) as [[st|] sm]; simpl; done.
Qed.

(** X27.  A live run that selects at least one file.  It answers
    [False]: the result loop raises [TypeError] on the first task
    handle, which [run] reports as a fatal error.  No conversion is
    recorded, the database being the one the analysis step left.  The
    state file holds the batch as pending in a dict that [load]
    rejects, so a [resume] after the run answers [False] as well. *)
Theorem live_run_outcome flags env paths w c batch w1 :
  dry_run flags = false ->
  batch_of flags env paths w = (inl (c :: batch), w1) ->
  let r := run flags env paths w in
  fst r = inl false
  /\ database (snd r) = database w1
  /\ StateManager.state_file (state_manager (snd r))
     = Some (saved_batch_state (clock env) (map fst (c :: batch)))
  /\ log (snd r) = log w1 ++ [LogConversionSuccessful (fst c); LogFatal task_error]
  /\ fst (resume env (snd r)) = inl false.
Proof.
  intros Hlive Hbatch. cbv zeta. unfold run.
  rewrite (run_body_selected _ _ _ _ _ _ _ Hbatch), Hlive.
  destruct (execute_conversions_trace (Some (clock env)) env c batch w1)
    as (Hr & Hd & Hf & Hc & Hl).
  destruct (_execute_conversions (Some (clock env)) env (c :: batch) w1) as [r wb].
  simpl in *. subst r.
  unfold task_error. cbn [fst snd].
  unfold _finalize, _cleanup.
  set (wl := mkWorld (database wb) (state_manager wb) (worker_pool wb)
               (log wb ++ [LogFatal (TypeError "'_asyncio.Task' object is not subscriptable")])).
  destruct (shutdown_no_new_jobs env wl) as (Hd1 & Hs1 & Hl1 & _).
  destruct (shutdown_no_new_jobs env (shutdown_pool env wl)) as (Hd2 & Hs2 & Hl2 & _).
  cbv zeta in *.
  split; [done|]. split; [by rewrite Hd2, Hd1|].
  split; [by rewrite Hs2, Hs1|].
  split.
  { rewrite Hl2, Hl1. simpl. rewrite Hl. by rewrite <- app_assoc. }
  apply resume_without_state. rewrite Hs2, Hs1. simpl.
  by rewrite (load_batch_state _ _ _ Hf).
Qed.

Lemma live_run_outcome_witness :
  fst (run live envOK [fileA] (fresh_world 1)) = inl false
  /\ fst (resume envOK (snd (run live envOK [fileA] (fresh_world 1)))) = inl false.
Proof.
  destruct (live_run_outcome live envOK [fileA] (fresh_world 1) (fileA, analysisA) []
              (snd (batch_of live envOK [fileA] (fresh_world 1))))
    as (H1 & _ & _ & _ & H5).
  - reflexivity.
  - vm_compute. reflexivity.
  - split; assumption.
Defined.

Lemma get_analysis_fold pending_files : forall acc w,
  exists conversions,
    foldM (fun acc file_path =>
             bind (on_database
                     (ConversionDatabase.get_analysis ConversionDatabase.no_fault file_path))
               (fun analysis =>
                  ret (match analysis with
                       | Some a => acc ++ [(file_path, a)]
                       | None => acc
                       end)))
          pending_files acc w
    = (inl conversions, w).
Proof.
  induction pending_files as [|f l IH]; intros acc w; simpl.
  - by eexists.
  - unfold bind at 1. unfold on_database at 1.
    unfold ConversionDatabase.get_analysis, ConversionDatabase._get_connection,
      ConversionDatabase.tx_bind, ConversionDatabase.execute, ConversionDatabase.tx_ret,
      ConversionDatabase.sql_select_video. simpl.
    unfold ret at 1.
    replace (mkWorld (database w) (state_manager w) (worker_pool w) (log w)) with w
      by (by destruct w).
    apply IH.
Qed.

Lemma bind_inl {A B} (m : M A) (k : A -> M B) w a w' :
  m w = (inl a, w') -> bind m k w = k a w'.
Proof. unfold bind. by intros ->. Qed.

(** X28.  [resume] never answers [True].  It answers [False] when
    there is no usable state, nothing pending, or no pending file with a
    cached analysis; in every other case [_execute_conversions] raises
    the [TypeError] of the first task handle, which [resume] does not
    catch. *)
Theorem resume_never_succeeds env w :
  fst (resume env w) = inl false \/ fst (resume env w) = inr task_error.
Proof.
  unfold resume.
  destruct (StateManager.load (state_manager w)) as [[st|] sm]; [|by left].
  destruct (StateManager.pending st) as [[|f l]|]; [by left| |by left].
  destruct (get_analysis_fold (f :: l) []
              (mkWorld (database w) sm (worker_pool w) (log w))) as [conversions Hc].
  rewrite (bind_inl _ _ _ _ _ Hc).
  destruct conversions as [|c conversions]; [by left|].
  right. apply execute_conversions_trace.
Qed.

Lemma record_analysis_stores results v a w :
  database (snd (record_analysis results (v, inl a) w))
  = snd (ConversionDatabase.store_analysis ConversionDatabase.no_fault v a (database w)).
Proof.
  unfold record_analysis, bind, on_database. cbn [fst snd].
  destruct (ConversionDatabase.store_analysis ConversionDatabase.no_fault v a (database w))
    as [[[]|e] d]; reflexivity.
Qed.

Lemma record_analysis_cached env v a v' results w :
  analyze_video env v = inl a ->
  v' = v \/ cached v a (database w) ->
  cached v a (database (snd (record_analysis results (v', analyze_video env v') w))).
Proof.
  intros Ha Hor.
  destruct (analyze_video env v') as [a'|msg] eqn:Ha'.
  - rewrite record_analysis_stores. unfold cached.
    destruct (String.eqb_spec v' v) as [->|Hne].
    + assert (a' = a) by congruence. subst a'.
      apply get_after_store_same.
    + destruct Hor as [|Hc]; [done|].
      rewrite (get_after_store_other (database w) v' a' v); [done|congruence].
  - destruct Hor as [->|Hc]; [congruence|done].
Qed.

Lemma analyze_batch_cached env v a batch : forall results w,
  analyze_video env v = inl a ->
  In v batch \/ cached v a (database w) ->
  cached v a (database (snd (analyze_batch env results batch w))).
Proof.
  unfold analyze_batch.
  induction batch as [|v' batch IH]; intros results w Ha Hor; simpl.
  - destruct Hor as [[]|Hc]. done.
  - destruct (record_analysis_entry env results v' w) as [w1 Hw1].
    unfold bind at 1. rewrite Hw1. apply IH; [done|].
    assert (Hw : w1 = snd (record_analysis results (v', analyze_video env v') w))
      by (by rewrite Hw1).
    destruct Hor as [[->|Hin]|Hc].
    + right. rewrite Hw. apply record_analysis_cached; [done|by left].
    + by left.
    + right. rewrite Hw. apply record_analysis_cached; [done|by right].
Qed.

Lemma analyze_batch_returns env batch results w :
  exists results', fst (analyze_batch env results batch w) = inl results'.
Proof.
  destruct (analyze_batch_covers env batch (∅ : gmap string (option VideoAnalysis)) [] w)
    as (r1 & w1 & Hb & _).
  { intros k. rewrite lookup_empty. rewrite decide_False; [done|apply not_elem_of_nil]. }
  clear Hb r1 w1. unfold analyze_batch. revert results w.
  induction batch as [|v batch IH]; intros results w; simpl; [by eexists|].
  destruct (record_analysis_entry env results v w) as [w1 Hw1].
  unfold bind at 1. rewrite Hw1. apply IH.
Qed.

Lemma analyze_batches_cached env v a bs : forall results w,
  analyze_video env v = inl a ->
  In v (concat bs) \/ cached v a (database w) ->
  cached v a (database (snd (foldM (analyze_batch env) bs results w))).
Proof.
  induction bs as [|b bs IH]; intros results w Ha Hor; simpl.
  - destruct Hor as [[]|Hc]. done.
  - pose proof (analyze_batch_cached env v a b results w Ha) as Hb.
    destruct (analyze_batch_returns env b results w) as [r1 Hr1].
    unfold bind at 1.
    destruct (analyze_batch env results b w) as [r w1]. simpl in Hr1, Hb. subst r.
    apply IH; [done|].
    destruct Hor as [Hin|Hc].
    + apply in_app_or in Hin as [Hin|Hin]; [right; apply Hb; by left|by left].
    + right. apply Hb. by right.
Qed.

(** X29.  The analysis step caches what it learns: after
    [_analyze_videos], [get_analysis] answers, for every scanned file
    whose analysis succeeded, that analysis with [reason] emptied. *)
Theorem analysis_is_cached env files w v a :
  In v files ->
  analyze_video env v = inl a ->
  fst (ConversionDatabase.get_analysis ConversionDatabase.no_fault v
         (database (snd (_analyze_videos env files w))))
  = inl (Some (stored_form v a)).
Proof.
  intros Hin Ha. apply (analyze_batches_cached env v a (batches files) ∅ w Ha).
  left. apply list_elem_of_In, elem_of_batches. by apply list_elem_of_In.
Qed.

Lemma analysis_is_cached_witness :
  fst (ConversionDatabase.get_analysis ConversionDatabase.no_fault fileA
         (database (snd (_analyze_videos envOK [fileA] (fresh_world 1)))))
  = inl (Some (stored_form fileA analysisA)).
Proof.
  apply (analysis_is_cached envOK [fileA] (fresh_world 1) fileA analysisA).
  - by left.
  - reflexivity.
Defined.

(** X30.  The verdict of a dry run that selects at least one file, the
    sizes being non-negative: [True] exactly when every selected file
    has positive size; a selected file of size 0 makes the preview
    divide by zero, which [run] answers with [False]. *)
Theorem dry_run_verdict flags env paths w c batch w1 :
  dry_run flags = true ->
  batch_of flags env paths w = (inl (c :: batch), w1) ->
  Forall (fun va => 0 <= file_size (snd va)) (c :: batch) ->
  fst (run flags env paths w)
  = inl (forallb (fun va => 0 <? file_size (snd va)) (c :: batch)).
Proof.
  intros Hdry Hbatch Hnn. unfold run.
  rewrite (run_body_selected _ _ _ _ _ _ _ Hbatch), Hdry.
  pose proof (dry_run_preview_outcome (c :: batch) w1 Hnn) as Hp.
  unfold bind.
  destruct (_dry_run_preview (c :: batch) w1) as [r w2]. cbn [fst] in Hp. subst r.
  destruct (forallb _ (c :: batch)); done.
Qed.

Lemma dry_run_verdict_witness :
  fst (run dry envOK [fileA] (fresh_world 1))
  = inl (forallb (fun va => 0 <? file_size (snd va)) [(fileA, analysisA)]).
Proof.
  apply (dry_run_verdict dry envOK [fileA] (fresh_world 1) (fileA, analysisA) []
           (snd (batch_of dry envOK [fileA] (fresh_world 1)))).
  - reflexivity.
  - vm_compute. reflexivity.
  - repeat constructor. vm_compute. discriminate.
Defined.
